(** * Tasks API (task1-testing/src/app.js) and Users API
      (task3-unknown-language/main.go): a shallow embedding and the
      properties of the specification checked against it. *)

From Stdlib Require Import ZArith List String Ascii Bool Lia.
From Stdlib Require Import Floats.SpecFloat.
From Stdlib Require Import Sorting.Sorted.
From stdpp Require Import gmap list.

Local Open Scope Z_scope.

(** ASCII literals of the sources, as the sequence of their characters. *)
Definition u16 (s : string) : list N :=
  map N_of_ascii (list_ascii_of_string s).

(** * The tasks service (app.js) *)

Module Tasks.

(** ** JavaScript values *)

(** A JavaScript string is a sequence of UTF-16 code units; [length] counts
    code units, as [String.prototype.length] does. *)
Abbreviation jsstring := (list N).

(** The values a task field can hold.  Request bodies are decoded JSON, so
    numbers are binary64 values; [VObj ownToString] is a nested plain
    object, known by whether it has an own property named toString (a JSON
    value, hence not callable) and modelled without own [length] property
    (its other contents are never inspected by the code below);
    [VInherited k] is the member [k] that every plain object inherits from
    [Object.prototype]. *)
#[warning="-register-all"] Inductive JSVal : Type :=
| VUndefined
| VNull
| VBool (b : bool)
| VNum (x : spec_float)
| VStr (s : jsstring)
| VArr (elems : list JSVal)
| VObj (ownToString : bool)
| VInherited (name : jsstring).

(** A task, a request body: a plain object with its own properties. *)
Abbreviation JSObject := (gmap jsstring JSVal).

Definition K_id : jsstring := Eval vm_compute in u16 "id".
Definition K_title : jsstring := Eval vm_compute in u16 "title".
Definition K_description : jsstring := Eval vm_compute in u16 "description".
Definition K_completed : jsstring := Eval vm_compute in u16 "completed".
Definition K_priority : jsstring := Eval vm_compute in u16 "priority".
Definition K_createdAt : jsstring := Eval vm_compute in u16 "createdAt".
Definition K_updatedAt : jsstring := Eval vm_compute in u16 "updatedAt".

Definition S_low : jsstring := Eval vm_compute in u16 "low".
Definition S_medium : jsstring := Eval vm_compute in u16 "medium".
Definition S_high : jsstring := Eval vm_compute in u16 "high".
Definition S_true : jsstring := Eval vm_compute in u16 "true".
Definition S_desc : jsstring := Eval vm_compute in u16 "desc".

(** Property names defined on [Object.prototype]. *)
Definition objectPrototypeNames : list jsstring :=
  Eval vm_compute in
  map u16 ["constructor"; "hasOwnProperty"; "isPrototypeOf";
           "propertyIsEnumerable"; "toLocaleString"; "toString"; "valueOf";
           "__proto__"; "__defineGetter__"; "__defineSetter__";
           "__lookupGetter__"; "__lookupSetter__"]%string.

(** [o[k]]: the own property, else the inherited member, else [undefined]. *)
Definition js_get (o : JSObject) (k : jsstring) : JSVal :=
  match o !! k with
  | Some v => v
  | None => if bool_decide (k ∈ objectPrototypeNames)
            then VInherited k else VUndefined
  end.

(** ToBoolean. *)
Definition truthy (v : JSVal) : bool :=
  match v with
  | VUndefined | VNull => false
  | VBool b => b
  | VNum (S754_zero _) | VNum S754_nan => false
  | VNum _ => true
  | VStr [] => false
  | VStr _ => true
  | VArr _ | VObj _ | VInherited _ => true
  end.

Definition typeof_string (v : JSVal) : bool :=
  match v with VStr _ => true | _ => false end.

Definition typeof_boolean (v : JSVal) : bool :=
  match v with VBool _ => true | _ => false end.

Definition is_undefined (v : JSVal) : bool :=
  match v with VUndefined => true | _ => false end.

(** WhiteSpace and LineTerminator code units, the set stripped by
    [String.prototype.trim]. *)
Definition isTrimSpace (c : N) : bool :=
  ((9 <=? c) && (c <=? 13) || (c =? 32) || (c =? 160) || (c =? 5760)
   || (8192 <=? c) && (c <=? 8202) || (c =? 8232) || (c =? 8233)
   || (c =? 8239) || (c =? 8287) || (c =? 12288) || (c =? 65279))%N.

Fixpoint dropSpaces (s : jsstring) : jsstring :=
  match s with
  | c :: s' => if isTrimSpace c then dropSpaces s' else s
  | [] => []
  end.

(** [s.trim()] *)
Definition js_trim (s : jsstring) : jsstring :=
  rev (dropSpaces (rev (dropSpaces s))).

(** [v.trim().length === 0], evaluated only where [v] is a string. *)
Definition trim_is_empty (v : JSVal) : bool :=
  match v with
  | VStr s => Nat.eqb (length (js_trim s)) 0
  | _ => false
  end.

(** [v.length > n] for a truthy [v]: strings and arrays have a length; the
    [length] of a number, a boolean or a plain object is [undefined], and
    [undefined > n] is false; an inherited member is a function of at most
    two parameters or the prototype object itself. *)
Definition length_gt (v : JSVal) (n : nat) : bool :=
  match v with
  | VStr s => Nat.ltb n (length s)
  | VArr l => Nat.ltb n (length l)
  | _ => false
  end.

(** [['low', 'medium', 'high'].includes(v)] *)
Definition priority_includes (v : JSVal) : bool :=
  match v with
  | VStr s => bool_decide (s ∈ [S_low; S_medium; S_high])
  | _ => false
  end.

(** ** Validation *)

Definition MSG_title_required : string :=
  "Title is required and must be a non-empty string".
Definition MSG_title_long : string :=
  "Title must be less than 200 characters".
Definition MSG_description_string : string :=
  "Description must be a string".
Definition MSG_description_long : string :=
  "Description must be less than 1000 characters".
Definition MSG_completed_boolean : string :=
  "Completed must be a boolean".
Definition MSG_priority : string :=
  "Priority must be one of: low, medium, high".

(** [if (c) errors.push(msg)] *)
Definition push_if (c : bool) (msg : string) (errors : list string) : list string :=
  if c then errors ++ [msg] else errors.

Definition title_required_fails (task : JSObject) : bool :=
  let title := js_get task K_title in
  negb (truthy title) || negb (typeof_string title) || trim_is_empty title.

Definition title_long_fails (task : JSObject) : bool :=
  let title := js_get task K_title in
  truthy title && length_gt title 200.

Definition description_string_fails (task : JSObject) : bool :=
  let description := js_get task K_description in
  truthy description && negb (typeof_string description).

Definition description_long_fails (task : JSObject) : bool :=
  let description := js_get task K_description in
  truthy description && length_gt description 1000.

Definition completed_fails (task : JSObject) : bool :=
  let completed := js_get task K_completed in
  negb (is_undefined completed) && negb (typeof_boolean completed).

Definition priority_fails (task : JSObject) : bool :=
  let priority := js_get task K_priority in
  truthy priority && negb (priority_includes priority).

Definition validateTask (task : JSObject) : list string :=
  let errors := [] in
  let errors := push_if (title_required_fails task) MSG_title_required errors in
  let errors := push_if (title_long_fails task) MSG_title_long errors in
  let errors := push_if (description_string_fails task) MSG_description_string errors in
  let errors := push_if (description_long_fails task) MSG_description_long errors in
  let errors := push_if (completed_fails task) MSG_completed_boolean errors in
  let errors := push_if (priority_fails task) MSG_priority errors in
  errors.

(** ** The task store and its operations *)

(** [let tasks = []]: the in-memory collection, in insertion order. *)
Abbreviation Store := (list JSObject).

(** [task.id === id], where [id] is a route parameter, hence a string. *)
Definition id_is (id : jsstring) (task : JSObject) : bool :=
  match js_get task K_id with
  | VStr s => bool_decide (s = id)
  | _ => false
  end.

(** [Array.prototype.findIndex]; [None] stands for [-1]. *)
Fixpoint findIndex {A} (p : A -> bool) (l : list A) : option nat :=
  match l with
  | [] => None
  | x :: l' => if p x then Some O else option_map S (findIndex p l')
  end.

Definition findTaskById (tasks : Store) (id : jsstring) : option JSObject :=
  List.find (id_is id) tasks.

(** [a || b] *)
Definition js_or (a b : JSVal) : JSVal := if truthy a then a else b.

(** [createTask]: [uuid] is the value drawn by [uuidv4()], [t1] and [t2] the
    two readings of the clock.  [None] is the TypeError raised by
    [taskData.title.trim()] when the title is not a string. *)
Definition createTask (uuid t1 t2 : jsstring) (taskData : JSObject) (tasks : Store)
  : option (JSObject * Store) :=
  match js_get taskData K_title with
  | VStr title =>
      let task : JSObject :=
        <[K_updatedAt := VStr t2]>
        (<[K_createdAt := VStr t1]>
        (<[K_priority := js_or (js_get taskData K_priority) (VStr S_medium)]>
        (<[K_completed := js_or (js_get taskData K_completed) (VBool false)]>
        (<[K_description := js_or (js_get taskData K_description) (VStr [])]>
        (<[K_title := VStr (js_trim title)]>
        (<[K_id := VStr uuid]> ∅)))))) in
      Some (task, tasks ++ [task])
  | _ => None
  end.

(** [{...old, ...updateData, updatedAt: now}]: later entries win. *)
Definition merge_update (now : jsstring) (old updateData : JSObject) : JSObject :=
  <[K_updatedAt := VStr now]> (updateData ∪ old).

(** [updateTask]: the first component is the returned record, [None] for
    [null]. *)
Definition updateTask (now : jsstring) (id : jsstring) (updateData : JSObject)
    (tasks : Store) : option JSObject * Store :=
  match findIndex (id_is id) tasks with
  | None => (None, tasks)
  | Some taskIndex =>
      match tasks !! taskIndex with
      | Some old =>
          let updatedTask := merge_update now old updateData in
          (Some updatedTask, <[taskIndex := updatedTask]> tasks)
      | None => (None, tasks)
      end
  end.

(** [deleteTask]: [tasks.splice(taskIndex, 1)]. *)
Definition deleteTask (id : jsstring) (tasks : Store) : bool * Store :=
  match findIndex (id_is id) tasks with
  | None => (false, tasks)
  | Some taskIndex => (true, delete taskIndex tasks)
  end.

(** ** The list endpoint: query parameters *)

(** A parsed query-string value: a string, or (with repeated or bracketed
    keys) an array or an object. *)
#[warning="-register-all"] Inductive QVal : Type :=
| QStr (s : jsstring)
| QArr (items : list QVal)
| QObj.

Record Query := {
  q_completed : option QVal;
  q_priority : option QVal;
  q_search : option QVal;
  q_sortBy : option QVal;
  q_sortOrder : option QVal;
  q_page : option QVal;
  q_limit : option QVal
}.

Definition S_comma : jsstring := Eval vm_compute in u16 ",".
Definition S_object_Object : jsstring := Eval vm_compute in u16 "[object Object]".
Definition S_undefined : jsstring := Eval vm_compute in u16 "undefined".

(** [Array.prototype.join(",")] over already converted items. *)
Fixpoint join_comma (items : list jsstring) : jsstring :=
  match items with
  | [] => []
  | [s] => s
  | s :: rest => s ++ S_comma ++ join_comma rest
  end.

(** ToString of a query value. *)
Fixpoint qToString (v : QVal) : jsstring :=
  match v with
  | QStr s => s
  | QArr items => join_comma (map qToString items)
  | QObj => S_object_Object
  end.

(** ToBoolean of a present query value. *)
Definition q_truthy (v : QVal) : bool :=
  match v with
  | QStr [] => false
  | _ => true
  end.

(** ** Numbers

    [parseInt] and the arithmetic of the pagination stage work on binary64
    numbers whose value is an integer, on the two infinities, the two zeros
    and NaN.  [Finite z] is the number of non-zero integer value [z]. *)
Inductive JSNumber : Type :=
| NaN
| Infinity (negative : bool)
| Zero (negative : bool)
| Finite (z : Z).

(** The binary64 number nearest to the integer [n >= 1], ties to the even
    significand: [n] itself below 2^53; beyond, the 53 leading bits [q] of
    [n], rounded on the [e] bits that follow, and Infinity when the result
    reaches 2^1024. *)
Definition round64_pos (n : Z) : JSNumber :=
  if n <? 2 ^ 53 then Finite n
  else
    let e := Z.log2 n - 52 in
    let q := n / 2 ^ e in
    let r := n mod 2 ^ e in
    let half := 2 ^ (e - 1) in
    let q' := if r <? half then q
              else if half <? r then q + 1
              else if Z.even q then q else q + 1 in
    if 2 ^ 1024 <=? q' * 2 ^ e then Infinity false else Finite (q' * 2 ^ e).

(** [-x] *)
Definition js_neg (x : JSNumber) : JSNumber :=
  match x with
  | NaN => NaN
  | Infinity s => Infinity (negb s)
  | Zero s => Zero (negb s)
  | Finite z => Finite (- z)
  end.

(** The number for the exact integer result [z] of an operation. *)
Definition round64 (z : Z) : JSNumber :=
  if z =? 0 then Zero false
  else if 0 <? z then round64_pos z
  else js_neg (round64_pos (- z)).

(** [x + y]: the exact sum, rounded. *)
Definition js_add (x y : JSNumber) : JSNumber :=
  match x, y with
  | NaN, _ | _, NaN => NaN
  | Infinity s, Infinity s' => if Bool.eqb s s' then Infinity s else NaN
  | Infinity s, _ | _, Infinity s => Infinity s
  | Zero s, Zero s' => Zero (s && s')
  | Zero _, Finite z | Finite z, Zero _ => Finite z
  | Finite a, Finite b => round64 (a + b)
  end.

(** [x - y] *)
Definition js_sub (x y : JSNumber) : JSNumber := js_add x (js_neg y).

(** [x * y]: the exact product, rounded. *)
Definition js_mul (x y : JSNumber) : JSNumber :=
  match x, y with
  | NaN, _ | _, NaN => NaN
  | Infinity s, Infinity s' => Infinity (xorb s s')
  | Infinity _, Zero _ | Zero _, Infinity _ => NaN
  | Infinity s, Finite z | Finite z, Infinity s => Infinity (xorb s (z <? 0))
  | Zero s, Zero s' => Zero (xorb s s')
  | Zero s, Finite z | Finite z, Zero s => Zero (xorb s (z <? 0))
  | Finite a, Finite b => round64 (a * b)
  end.

Definition isNaN (x : JSNumber) : bool :=
  match x with NaN => true | _ => false end.

(** The value of the digit [c] in radix [radix], if it is one. *)
Definition digit_value (radix : Z) (c : N) : option Z :=
  let c := Z.of_N c in
  let d := if (48 <=? c) && (c <=? 57) then Some (c - 48)
           else if (97 <=? c) && (c <=? 122) then Some (c - 87)
           else if (65 <=? c) && (c <=? 90) then Some (c - 55)
           else None in
  match d with
  | Some v => if v <? radix then Some v else None
  | None => None
  end.

(** The longest prefix of digits, read left to right; [acc] is [None] until
    a digit has been read. *)
Fixpoint parse_digits (radix : Z) (s : jsstring) (acc : option Z) : option Z :=
  match s with
  | c :: s' =>
      match digit_value radix c with
      | Some d => parse_digits radix s' (Some (radix * default 0 acc + d))
      | None => acc
      end
  | [] => acc
  end.

(** The integer written by the digits after the sign: hexadecimal after a
    "0x" or "0X" prefix, decimal otherwise; [None] when there is no
    digit. *)
Definition parseMagnitude (s : jsstring) : option Z :=
  let '(radix, s) :=
    match s with
    | c :: x :: s' =>
        if (c =? 48)%N && ((x =? 120)%N || (x =? 88)%N)
        then (16, s') else (10, s)
    | _ => (10, s)
    end in
  parse_digits radix s None.

(** [parseInt(s)] with no radix argument: NaN without a digit, a zero of
    the sign written, else the binary64 number nearest to the integer
    written. *)
Definition parseInt (s : jsstring) : JSNumber :=
  let s := dropSpaces s in
  let '(negative, s) :=
    match s with
    | c :: s' => if (c =? 45)%N then (true, s')          (* "-" *)
                 else if (c =? 43)%N then (false, s')    (* "+" *)
                 else (false, s)
    | [] => (false, s)
    end in
  match parseMagnitude s with
  | None => NaN
  | Some mathInt =>
      if mathInt =? 0 then Zero negative
      else round64 (if negative then - mathInt else mathInt)
  end.

(** [parseInt(req.query.x)]: an absent parameter is [undefined], which
    converts to the string "undefined". *)
Definition parseParam (p : option QVal) : JSNumber :=
  match p with
  | Some v => parseInt (qToString v)
  | None => parseInt S_undefined
  end.

(** [(p !== undefined && !isNaN(parsed)) ? parsed : dflt] *)
Definition param_or (p : option QVal) (dflt : JSNumber) : JSNumber :=
  let parsed := parseParam p in
  match p with
  | Some _ => if isNaN parsed then dflt else parsed
  | None => dflt
  end.

Definition page_of (q : Query) : JSNumber := param_or (q_page q) (Finite 1).
Definition limit_of (q : Query) : JSNumber := param_or (q_limit q) (Finite 10).

(** ** The list endpoint: filter stages *)

(** [task.completed === completed] *)
Definition completed_is (completed : bool) (task : JSObject) : bool :=
  match js_get task K_completed with
  | VBool b => Bool.eqb b completed
  | _ => false
  end.

Definition filterCompleted (q : Query) (tasks : list JSObject) : list JSObject :=
  match q_completed q with
  | Some v =>
      let completed :=
        match v with QStr s => bool_decide (s = S_true) | _ => false end in
      List.filter (completed_is completed) tasks
  | None => tasks
  end.

(** [task.priority === req.query.priority]: an array or object in the query
    is never identical to a task field. *)
Definition priority_is (v : QVal) (task : JSObject) : bool :=
  match v, js_get task K_priority with
  | QStr s, VStr p => bool_decide (p = s)
  | _, _ => false
  end.

Definition filterPriority (q : Query) (tasks : list JSObject) : list JSObject :=
  match q_priority q with
  | Some v => if q_truthy v then List.filter (priority_is v) tasks else tasks
  | None => tasks
  end.

(** ** The runtime's conversion tables

    Case mapping, number parsing and printing, and the text of built-in
    functions are tables of the JavaScript runtime; the code that uses them
    is parameterised by them. *)
Record Runtime := {
  toLowerCase : jsstring -> jsstring;
  StringToNumber : jsstring -> spec_float;
  NumberToString : spec_float -> jsstring;
  inheritedToString : jsstring -> jsstring
}.

Section Pipeline.

Context (rt : Runtime).

(** [String.prototype.includes]: [t] occurs in [s]. *)
Fixpoint isPrefixOf (t s : jsstring) : bool :=
  match t, s with
  | [], _ => true
  | c :: t', d :: s' => (c =? d)%N && isPrefixOf t' s'
  | _ :: _, [] => false
  end.

Fixpoint js_includes (s t : jsstring) : bool :=
  isPrefixOf t s ||
  match s with
  | [] => false
  | _ :: s' => js_includes s' t
  end.

(** [v.toLowerCase().includes(term)]; [None] is the TypeError raised when
    [v] is not a string. *)
Definition lower_includes (v : JSVal) (term : jsstring) : option bool :=
  match v with
  | VStr s => Some (js_includes (toLowerCase rt s) term)
  | _ => None
  end.

(** The search predicate; [||] evaluates the description only when the
    title does not match. *)
Definition search_matches (term : jsstring) (task : JSObject) : option bool :=
  match lower_includes (js_get task K_title) term with
  | Some true => Some true
  | Some false => lower_includes (js_get task K_description) term
  | None => None
  end.

(** [Array.prototype.filter] with a predicate that may raise. *)
Fixpoint filterM {A} (p : A -> option bool) (l : list A) : option (list A) :=
  match l with
  | [] => Some []
  | x :: l' =>
      match p x with
      | Some b =>
          match filterM p l' with
          | Some r => Some (if b then x :: r else r)
          | None => None
          end
      | None => None
      end
  end.

(** The search stage; [None] is a raised TypeError (an array or object as
    search term has no [toLowerCase]). *)
Definition filterSearch (q : Query) (tasks : list JSObject) : option (list JSObject) :=
  match q_search q with
  | Some v =>
      if q_truthy v then
        match v with
        | QStr s => filterM (search_matches (toLowerCase rt s)) tasks
        | _ => None
        end
      else Some tasks
  | None => Some tasks
  end.

(** *** Sorting *)

Definition S_true_text : jsstring := Eval vm_compute in u16 "true".
Definition S_false_text : jsstring := Eval vm_compute in u16 "false".

(** ToString of a value, as used on array elements and by ToPrimitive;
    [None] is the TypeError raised for a plain object whose own toString
    hides the inherited method: no callable conversion is left, the
    inherited [valueOf] returning the object itself. *)
Fixpoint js_toString (v : JSVal) : option jsstring :=
  match v with
  | VUndefined => Some S_undefined
  | VNull => Some (u16 "null")
  | VBool b => Some (if b then S_true_text else S_false_text)
  | VNum x => Some (NumberToString rt x)
  | VStr s => Some s
  | VArr elems =>
      option_map join_comma
        ((fix items (l : list JSVal) : option (list jsstring) :=
            match l with
            | [] => Some []
            | e :: l' =>
                match (match e with
                       | VUndefined | VNull => Some []
                       | _ => js_toString e
                       end) with
                | Some s => option_map (cons s) (items l')
                | None => None
                end
            end) elems)
  | VObj ownToString => if ownToString then None else Some S_object_Object
  | VInherited k => Some (inheritedToString rt k)
  end.

(** ToPrimitive: objects, arrays and functions become strings, or raise. *)
Definition toPrimitive (v : JSVal) : option JSVal :=
  match v with
  | VArr _ | VObj _ | VInherited _ => option_map VStr (js_toString v)
  | _ => Some v
  end.

Definition SF_zero : spec_float := S754_zero false.
Definition SF_one : spec_float := S754_finite false 4503599627370496 (-52).

(** ToNumber of a primitive. *)
Definition toNumber (v : JSVal) : spec_float :=
  match v with
  | VNull => SF_zero
  | VBool b => if b then SF_one else SF_zero
  | VNum x => x
  | VStr s => StringToNumber rt s
  | _ => S754_nan
  end.

(** Code-unit order on strings. *)
Fixpoint string_lt (s t : jsstring) : bool :=
  match s, t with
  | _, [] => false
  | [], _ :: _ => true
  | c :: s', d :: t' => (c <? d)%N || ((c =? d)%N && string_lt s' t')
  end.

(** [x < y]: both operands are converted to primitives, left then right,
    before they are compared; [None] is a TypeError raised by either
    conversion. *)
Definition js_lt (x y : JSVal) : option bool :=
  match toPrimitive x with
  | Some px =>
      match toPrimitive y with
      | Some py =>
          Some match px, py with
               | VStr s, VStr t => string_lt s t
               | _, _ => SFltb (toNumber px) (toNumber py)
               end
      | None => None
      end
  | None => None
  end.

(** The comparator of the sort stage; [sortOrder] is 1 or -1. *)
Definition compareTasks (sortBy : jsstring) (sortOrder : Z) (a b : JSObject)
  : option Z :=
  match js_lt (js_get a sortBy) (js_get b sortBy) with
  | Some true => Some (-1 * sortOrder)
  | Some false =>
      match js_lt (js_get b sortBy) (js_get a sortBy) with
      | Some true => Some (1 * sortOrder)
      | Some false => Some 0
      | None => None
      end
  | None => None
  end.

(** [Array.prototype.sort(cmp)] is a stable sort, which stops at the first
    comparison that raises.  It is modelled as insertion sort: every stable
    sort returns the same list when [cmp] is a consistent comparator, and
    every sort of two elements or more brings each element into a
    comparison, so that it raises as soon as [cmp] raises on every pair
    with some element.  For an inconsistent comparator (as one that finds
    [undefined] equal to every number) the language leaves the order to
    the implementation: what is said below of the order is said of
    consistent comparators, and the rest (which tasks are returned, and how
    many) does not depend on the order. *)
Fixpoint insert_sorted {A} (cmp : A -> A -> option Z) (x : A) (l : list A)
  : option (list A) :=
  match l with
  | [] => Some [x]
  | y :: l' =>
      match cmp x y with
      | Some c => if c <=? 0 then Some (x :: l)
                  else option_map (cons y) (insert_sorted cmp x l')
      | None => None
      end
  end.

Fixpoint js_sort {A} (cmp : A -> A -> option Z) (l : list A) : option (list A) :=
  match l with
  | [] => Some []
  | x :: l' =>
      match js_sort cmp l' with
      | Some sorted => insert_sorted cmp x sorted
      | None => None
      end
  end.

Definition sortBy_of (q : Query) : jsstring :=
  match q_sortBy q with
  | Some v => if q_truthy v then qToString v else K_createdAt
  | None => K_createdAt
  end.

Definition sortOrder_of (q : Query) : Z :=
  match q_sortOrder q with
  | Some (QStr s) => if bool_decide (s = S_desc) then -1 else 1
  | _ => 1
  end.

(** The sort stage; [None] is a TypeError raised by a comparison. *)
Definition sortTasks (q : Query) (tasks : list JSObject) : option (list JSObject) :=
  js_sort (compareTasks (sortBy_of q) (sortOrder_of q)) tasks.

End Pipeline.

(** *** Pagination *)

(** The index that [slice] derives from an argument: its integer part (0
    for NaN), counted from the end when negative, and clamped to the
    array. *)
Definition sliceIndex (len : Z) (n : JSNumber) : Z :=
  match n with
  | NaN | Zero _ => 0
  | Infinity negative => if negative then 0 else len
  | Finite z => if z <? 0 then Z.max (len + z) 0 else Z.min z len
  end.

(** [Array.prototype.slice(startIndex, endIndex)] *)
Definition js_slice {A} (l : list A) (startIndex endIndex : JSNumber) : list A :=
  let len := Z.of_nat (length l) in
  let k := sliceIndex len startIndex in
  let final := sliceIndex len endIndex in
  take (Z.to_nat (final - k)) (drop (Z.to_nat k) l).

(** [Math.ceil(total / limit)] for the length [total] of an array.  A
    length is below 2^32, and its quotient by a non-zero integer is never
    rounded across an integer, so that the ceiling is that of the exact
    quotient; a quotient between -1 and 0 gives -0. *)
Definition ceil_div (total : Z) (limit : JSNumber) : JSNumber :=
  match limit with
  | NaN => NaN
  | Zero s => if total =? 0 then NaN else Infinity s
  | Infinity s => Zero s
  | Finite l =>
      let k := - ((- total) / l) in
      if k =? 0 then Zero (l <? 0) else Finite k
  end.

(** The metadata handed to [res.json], which prints Infinity and NaN as
    [null] and -0 as 0. *)
Record Pagination := {
  p_page : JSNumber;
  p_limit : JSNumber;
  p_total : Z;
  p_totalPages : JSNumber
}.

(** The page of [filteredTasks] selected by the query. *)
Definition pageSlice (page limit : JSNumber) (filteredTasks : list JSObject)
  : list JSObject :=
  let startIndex := js_mul (js_sub page (Finite 1)) limit in
  let endIndex := js_add startIndex limit in
  js_slice filteredTasks startIndex endIndex.

Definition paginatedTasks (q : Query) (filteredTasks : list JSObject) : list JSObject :=
  pageSlice (page_of q) (limit_of q) filteredTasks.

Definition pagination (q : Query) (filteredTasks : list JSObject) : Pagination :=
  let limit := limit_of q in
  {| p_page := page_of q;
     p_limit := limit;
     p_total := Z.of_nat (length filteredTasks);
     p_totalPages := ceil_div (Z.of_nat (length filteredTasks)) limit |}.

(** ** Request handlers *)

Inductive Response : Type :=
| RList (tasks : list JSObject) (p : Pagination)
| RTask (status : Z) (task : JSObject)
| RNoContent
| RFailure (status : Z) (error : string) (details : list string).

Definition R_not_found : Response := RFailure 404 "Task not found" [].
Definition R_internal : Response := RFailure 500 "Internal server error" [].
Definition R_validation (details : list string) : Response :=
  RFailure 400 "Validation failed" details.

(** The filter stages in order; [None] is an exception raised on the way. *)
Definition filterTasks (rt : Runtime) (q : Query) (tasks : Store) : option (list JSObject) :=
  filterSearch rt q (filterPriority q (filterCompleted q tasks)).

(** [GET /tasks]: an exception raised by the search or by the sort is
    caught and answered with status 500. *)
Definition getTasks (rt : Runtime) (q : Query) (tasks : Store) : Response :=
  match filterTasks rt q tasks with
  | Some filtered =>
      match sortTasks rt q filtered with
      | Some filteredTasks =>
          RList (paginatedTasks q filteredTasks) (pagination q filteredTasks)
      | None => R_internal
      end
  | None => R_internal
  end.

(** [GET /tasks/:id] *)
Definition getTask (id : jsstring) (tasks : Store) : Response :=
  match findTaskById tasks id with
  | Some task => RTask 200 task
  | None => R_not_found
  end.

(** [POST /tasks]; [body] is the decoded JSON object ([express.json]
    accepts objects and arrays only; an array behaves here as the object of
    its indices, and a request without body as the empty object). *)
Definition postTask (uuid t1 t2 : jsstring) (body : JSObject) (tasks : Store)
  : Response * Store :=
  let validationErrors := validateTask body in
  if Nat.ltb 0 (length validationErrors) then (R_validation validationErrors, tasks)
  else
    match createTask uuid t1 t2 body tasks with
    | Some (task, tasks') => (RTask 201 task, tasks')
    | None => (R_internal, tasks)
    end.

(** [PUT /tasks/:id] *)
Definition putTask (now : jsstring) (id : jsstring) (body : JSObject) (tasks : Store)
  : Response * Store :=
  match findTaskById tasks id with
  | None => (R_not_found, tasks)
  | Some task =>
      let validationErrors := validateTask (body ∪ task) in
      if Nat.ltb 0 (length validationErrors) then (R_validation validationErrors, tasks)
      else
        match updateTask now id body tasks with
        | (Some updatedTask, tasks') => (RTask 200 updatedTask, tasks')
        | (None, tasks') => (R_internal, tasks')  (* not reached: the task was found *)
        end
  end.

(** [DELETE /tasks/:id] *)
Definition deleteTaskHandler (id : jsstring) (tasks : Store) : Response * Store :=
  match deleteTask id tasks with
  | (true, tasks') => (RNoContent, tasks')
  | (false, tasks') => (R_not_found, tasks')
  end.

(** [DELETE /tasks] *)
Definition deleteAllTasks (tasks : Store) : Response * Store := (RNoContent, []).

(** One API operation, with the values it draws from its environment. *)
Inductive Request : Type :=
| ReqList (q : Query)
| ReqGet (id : jsstring)
| ReqCreate (uuid t1 t2 : jsstring) (body : JSObject)
| ReqUpdate (now : jsstring) (id : jsstring) (body : JSObject)
| ReqDelete (id : jsstring)
| ReqDeleteAll.

Definition handle (rt : Runtime) (req : Request) (tasks : Store) : Response * Store :=
  match req with
  | ReqList q => (getTasks rt q tasks, tasks)
  | ReqGet id => (getTask id tasks, tasks)
  | ReqCreate uuid t1 t2 body => postTask uuid t1 t2 body tasks
  | ReqUpdate now id body => putTask now id body tasks
  | ReqDelete id => deleteTaskHandler id tasks
  | ReqDeleteAll => deleteAllTasks tasks
  end.

(** The store after a sequence of operations. *)
Definition run (rt : Runtime) (reqs : list Request) (tasks : Store) : Store :=
  fold_left (fun tasks req => snd (handle rt req tasks)) reqs tasks.

End Tasks.

(** * The users service (main.go) *)

Module Users.

(** A Go string as the sequence of its code points.  Request fields are
    decoded from JSON, which yields valid UTF-8, so a string is determined
    by its runes; [len] counts the bytes of the UTF-8 encoding. *)
Abbreviation gostring := (list N).

Definition runeLen (r : N) : nat :=
  if (r <? 128)%N then 1%nat
  else if (r <? 2048)%N then 2%nat
  else if (r <? 65536)%N then 3%nat
  else 4%nat.

(** [len(s)] *)
Definition len (s : gostring) : nat :=
  fold_right (fun r n => (runeLen r + n)%nat) O s.

(** [unicode.IsSpace] *)
Definition isSpace (r : N) : bool :=
  ((9 <=? r) && (r <=? 13) || (r =? 32) || (r =? 133) || (r =? 160)
   || (r =? 5760) || (8192 <=? r) && (r <=? 8202) || (r =? 8232)
   || (r =? 8233) || (r =? 8239) || (r =? 8287) || (r =? 12288))%N.

Fixpoint trimLeft (s : gostring) : gostring :=
  match s with
  | r :: s' => if isSpace r then trimLeft s' else s
  | [] => []
  end.

(** [strings.TrimSpace] *)
Definition TrimSpace (s : gostring) : gostring :=
  rev (trimLeft (rev (trimLeft s))).

(** [strings.Contains(s, c)] for a one-character ASCII string [c]. *)
Definition ContainsRune (s : gostring) (c : N) : bool :=
  existsb (N.eqb c) s.

Definition AT : N := 64.
Definition DOT : N := 46.

Record UserRequest := {
  Name : gostring;
  Email : gostring;
  Age : Z
}.

Record User := {
  ID : Z;
  UName : gostring;
  UEmail : gostring;
  UAge : Z;
  CreatedAt : Z
}.

(** [isValidEmail] *)
Definition isValidEmail (email : gostring) : bool :=
  ContainsRune email AT && ContainsRune email DOT.

(** [if c { errors = append(errors, msg) }] *)
Definition append_if (c : bool) (msg : string) (errors : list string) : list string :=
  if c then errors ++ [msg] else errors.

Definition validateUser (user : UserRequest) : list string :=
  let errors := [] in
  let errors := append_if (bool_decide (TrimSpace (Name user) = []))
                          "Name is required" errors in
  let errors := append_if (Nat.ltb 100 (len (Name user)))
                          "Name must be less than 100 characters" errors in
  let errors := append_if (bool_decide (TrimSpace (Email user) = []))
                          "Email is required" errors in
  let errors := append_if (negb (isValidEmail (Email user)))
                          "Invalid email format" errors in
  let errors := append_if (Age user <? 0)
                          "Age must be non-negative" errors in
  let errors := append_if (150 <? Age user)
                          "Age must be less than 150" errors in
  errors.

(** ** The users table

    [createTable] declares [id INTEGER PRIMARY KEY AUTOINCREMENT] and
    [email TEXT NOT NULL UNIQUE]; the table is its rows and the last
    identifier handed out. *)
Record DB := {
  rows : list User;
  lastId : Z
}.

Inductive ExecError : Type :=
| UniqueConstraintFailed.

Definition emailTaken (email : gostring) (us : list User) : bool :=
  existsb (fun u => bool_decide (UEmail u = email)) us.

(** [INSERT INTO users (name, email, age) VALUES (?, ?, ?)] at time [now]:
    the new row, or the failure of the UNIQUE constraint, which leaves the
    table as it was. *)
Definition execInsert (now : Z) (req : UserRequest) (db : DB) : (ExecError + Z) * DB :=
  if emailTaken (Email req) (rows db) then (inl UniqueConstraintFailed, db)
  else
    let id := lastId db + 1 in
    let row := {| ID := id; UName := Name req; UEmail := Email req;
                  UAge := Age req; CreatedAt := now |} in
    (inr id, {| rows := rows db ++ [row]; lastId := id |}).

(** [UPDATE users SET name = ?, email = ?, age = ? WHERE id = ?]: the number
    of rows affected, or the failure of the UNIQUE constraint when another
    row holds the email. *)
Definition execUpdate (req : UserRequest) (id : Z) (db : DB) : (ExecError + Z) * DB :=
  if negb (existsb (fun u => ID u =? id) (rows db)) then (inr 0, db)
  else if emailTaken (Email req) (List.filter (fun u => negb (ID u =? id)) (rows db))
  then (inl UniqueConstraintFailed, db)
  else
    let set u := if ID u =? id
                 then {| ID := ID u; UName := Name req; UEmail := Email req;
                         UAge := Age req; CreatedAt := CreatedAt u |}
                 else u in
    (inr 1, {| rows := map set (rows db); lastId := lastId db |}).

(** [SELECT ... FROM users WHERE id = ?] *)
Definition queryById (id : Z) (db : DB) : option User :=
  List.find (fun u => ID u =? id) (rows db).

Inductive Response : Type :=
| RUser (status : Z) (user : User)
| RError (status : Z) (error : string) (details : list string).

(** The store phase of [createUserHandler] (from the INSERT to the end of
    the function): insert, map a failed UNIQUE constraint to 409, read the
    created row back. *)
Definition insertUser (now : Z) (userReq : UserRequest) (db : DB) : Response * DB :=
  match execInsert now userReq db with
  | (inl UniqueConstraintFailed, db') => (RError 409 "Email already exists" [], db')
  | (inr userID, db') =>
      match queryById userID db' with
      | Some createdUser => (RUser 201 createdUser, db')
      | None => (RError 500 "Failed to fetch created user" [], db')
      end
  end.

(** [createUserHandler]; [body] is [None] when the JSON does not decode. *)
Definition createUserHandler (now : Z) (body : option UserRequest) (db : DB)
  : Response * DB :=
  match body with
  | None => (RError 400 "Invalid JSON format" [], db)
  | Some userReq =>
      let errors := validateUser userReq in
      if Nat.ltb 0 (length errors) then (RError 400 "Validation failed" errors, db)
      else insertUser now userReq db
  end.

(** The store phase of [updateUserHandler] (from the UPDATE to the end of
    the function). *)
Definition updateUser (userReq : UserRequest) (userID : Z) (db : DB) : Response * DB :=
  match execUpdate userReq userID db with
  | (inl UniqueConstraintFailed, db') => (RError 409 "Email already exists" [], db')
  | (inr rowsAffected, db') =>
      if rowsAffected =? 0 then (RError 404 "User not found" [], db')
      else
        match queryById userID db' with
        | Some updatedUser => (RUser 200 updatedUser, db')
        | None => (RError 500 "Failed to fetch updated user" [], db')
        end
  end.

(** [updateUserHandler]; [idParam] is [None] when the path segment is not an
    integer. *)
Definition updateUserHandler (idParam : option Z) (body : option UserRequest) (db : DB)
  : Response * DB :=
  match idParam with
  | None => (RError 400 "Invalid user ID" [], db)
  | Some userID =>
      match body with
      | None => (RError 400 "Invalid JSON format" [], db)
      | Some userReq =>
          let errors := validateUser userReq in
          if Nat.ltb 0 (length errors) then (RError 400 "Validation failed" errors, db)
          else updateUser userReq userID db
      end
  end.

(** [DELETE FROM users WHERE id = ?]: the number of rows affected. *)
Definition execDelete (id : Z) (db : DB) : Z * DB :=
  (Z.of_nat (length (List.filter (fun u => ID u =? id) (rows db))),
   {| rows := List.filter (fun u => negb (ID u =? id)) (rows db);
      lastId := lastId db |}).

Inductive DeleteResponse : Type :=
| RDeleted (message : string)
| RDeleteError (status : Z) (error : string).

(** [deleteUserHandler]; [idParam] is [None] when the path segment is not an
    integer. *)
Definition deleteUserHandler (idParam : option Z) (db : DB) : DeleteResponse * DB :=
  match idParam with
  | None => (RDeleteError 400 "Invalid user ID", db)
  | Some userID =>
      let '(rowsAffected, db') := execDelete userID db in
      if rowsAffected =? 0 then (RDeleteError 404 "User not found", db')
      else (RDeleted "User deleted successfully", db')
  end.

(** One mutating request of the users API, with the clock reading it
    draws. *)
Inductive UserOp : Type :=
| OpCreate (now : Z) (body : option UserRequest)
| OpUpdate (idParam : option Z) (body : option UserRequest)
| OpDelete (idParam : option Z).

Definition applyOp (op : UserOp) (db : DB) : DB :=
  match op with
  | OpCreate now body => snd (createUserHandler now body db)
  | OpUpdate idParam body => snd (updateUserHandler idParam body db)
  | OpDelete idParam => snd (deleteUserHandler idParam db)
  end.

(** The table after a sequence of requests. *)
Definition runOps (ops : list UserOp) (db : DB) : DB :=
  fold_left (fun db op => applyOp op db) ops db.

(** The table that [createTable] creates. *)
Definition emptyDB : DB := {| rows := []; lastId := 0 |}.

End Users.

(** * Vocabulary of the statements and sample data *)

(** The message a rule contributes. *)
Definition rule_msg (fails : bool) (msg : string) : list string :=
  if fails then [msg] else [].

Section TaskVocabulary.

Import Tasks.

(** The candidate [{title: "", description: 0, completed: "false",
    priority: "urgent"}]. *)
Definition candidate_zero_description : JSObject :=
  <[K_title := VStr []]>
  (<[K_description := VNum (S754_zero false)]>
  (<[K_completed := VStr (u16 "false")]>
  (<[K_priority := VStr (u16 "urgent")]> ∅))).

(** The candidate of the unit test: [{title: "", description: 123,
    completed: "false", priority: "urgent"}]. *)
Definition candidate_unit_test : JSObject :=
  <[K_title := VStr []]>
  (<[K_description := VNum (S754_finite false 8655355533852672 (-46))]>
  (<[K_completed := VStr (u16 "false")]>
  (<[K_priority := VStr (u16 "urgent")]> ∅))).

(** A task as [createTask] stores it. *)
Definition stored_task : JSObject :=
  <[K_id := VStr (u16 "t1")]>
  (<[K_title := VStr (u16 "Original Task")]>
  (<[K_description := VStr []]>
  (<[K_completed := VBool false]>
  (<[K_priority := VStr S_medium]>
  (<[K_createdAt := VStr (u16 "2024-12-19T16:00:00.000Z")]>
  (<[K_updatedAt := VStr (u16 "2024-12-19T16:00:00.000Z")]> ∅)))))).

(** The payload [{createdAt: "1999-01-01T00:00:00.000Z"}]. *)
Definition payload_createdAt : JSObject :=
  <[K_createdAt := VStr (u16 "1999-01-01T00:00:00.000Z")]> ∅.

(** The payload [{completed: true}] of the partial-update test. *)
Definition payload_completed : JSObject :=
  <[K_completed := VBool true]> ∅.

(** The string is empty or starts with a character that [trim] keeps. *)
Definition starts_nonspace (s : jsstring) : Prop :=
  match s with
  | [] => True
  | c :: _ => isTrimSpace c = false
  end.

(** Every task of the store passes validation. *)
Definition valid_store (tasks : Store) : Prop :=
  Forall (fun task => validateTask task = []) tasks.

(** The decimal digits of [n], least significant first. *)
Fixpoint le_digits (fuel : nat) (n : Z) : list Z :=
  match fuel with
  | O => []
  | S fuel' => (n mod 10) :: (if n <? 10 then [] else le_digits fuel' (n / 10))
  end.

Definition digit_char (d : Z) : N := Z.to_N (48 + d).

Definition decimal_nat (n : Z) : jsstring :=
  map digit_char (rev (le_digits (S (Z.to_nat n)) n)).

(** The decimal numeral of an integer, as a client writes it in a query
    string. *)
Definition decimal (z : Z) : jsstring :=
  if z <? 0 then 45%N :: decimal_nat (- z) else decimal_nat z.

Definition digits_value (ds : list Z) : Z :=
  fold_left (fun a d => 10 * a + d) ds 0.

Definition is_digit (d : Z) : Prop := 0 <= d < 10.

(** A request with the given completed, sortBy, page and limit parameters
    and no other. *)
Definition query_of (completed sortBy page limit : option QVal) : Query :=
  {| q_completed := completed; q_priority := None; q_search := None;
     q_sortBy := sortBy; q_sortOrder := None; q_page := page; q_limit := limit |}.

(** A stand-in for the runtime tables: lower case on ASCII letters, and no
    information on numbers and built-in functions. *)
Definition ascii_runtime : Runtime :=
  {| toLowerCase := map (fun c => if (65 <=? c)%N && (c <=? 90)%N then (c + 32)%N else c);
     StringToNumber := fun _ => S754_nan;
     NumberToString := fun _ => [];
     inheritedToString := fun _ => [] |}.

(** The five tasks of the pagination tests. *)
Definition task_titled (id title : string) (completed : bool) : JSObject :=
  <[K_id := VStr (u16 id)]>
  (<[K_title := VStr (u16 title)]>
  (<[K_description := VStr []]>
  (<[K_completed := VBool completed]>
  (<[K_priority := VStr S_medium]>
  (<[K_createdAt := VStr (u16 "2024-12-19T16:00:00.000Z")]>
  (<[K_updatedAt := VStr (u16 "2024-12-19T16:00:00.000Z")]> ∅)))))).

Definition five_tasks : list JSObject :=
  [task_titled "t1" "Task 1" false; task_titled "t2" "Task 2" true;
   task_titled "t3" "Task 3" false; task_titled "t4" "Task 4" true;
   task_titled "t5" "Task 5" false].

(** The requests [?sortBy=nosuchfield] and [?completed=banana]. *)
Definition query_sort_unknown : Query :=
  query_of None (Some (QStr (u16 "nosuchfield"))) None None.

Definition query_completed_banana : Query :=
  query_of (Some (QStr (u16 "banana"))) None None None.

(** The requests of the edge-case tests: [?page=-5], and
    [?page=abc&limit=xyz]. *)
Definition query_page_minus5 : Query :=
  query_of None None (Some (QStr (u16 "-5"))) None.

Definition query_page_abc : Query :=
  query_of None None (Some (QStr (u16 "abc"))) (Some (QStr (u16 "xyz"))).

Definition query_page_999999 : Query :=
  query_of None None (Some (QStr (u16 "999999"))) None.

(** The requests [?page=p&limit=2]. *)
Definition query_page_limit2 (p : nat) : Query :=
  query_of None None (Some (QStr (decimal (Z.of_nat p)))) (Some (QStr (decimal 2))).

(** The request [?limit=0]. *)
Definition query_limit_zero : Query :=
  query_of None None None (Some (QStr (u16 "0"))).

(** The request of the integration test: [?page=1&limit=2&sortBy=title]. *)
Definition query_page1_limit2 : Query :=
  query_of None (Some (QStr (u16 "title"))) (Some (QStr (u16 "1")))
           (Some (QStr (u16 "2"))).

(** The identifiers of the stored tasks, in store order. *)
Definition task_ids (tasks : Store) : list JSVal :=
  map (fun task => js_get task K_id) tasks.

(** A request that keeps identifiers apart: a create draws an identifier
    that no stored task carries, an update payload carries no [id]. *)
Definition request_fresh (req : Request) (tasks : Store) : Prop :=
  match req with
  | ReqCreate uuid _ _ _ => ~ In (VStr uuid) (task_ids tasks)
  | ReqUpdate _ _ body => body !! K_id = None
  | _ => True
  end.

Fixpoint fresh_trace (rt : Runtime) (reqs : list Request) (tasks : Store) : Prop :=
  match reqs with
  | [] => True
  | req :: rest =>
      request_fresh req tasks /\ fresh_trace rt rest (snd (handle rt req tasks))
  end.

(** The request [?search=term]. *)
Definition query_search (term : jsstring) : Query :=
  {| q_completed := None; q_priority := None; q_search := Some (QStr term);
     q_sortBy := None; q_sortOrder := None; q_page := None; q_limit := None |}.

(** The request [?priority=v]. *)
Definition query_priority (v : QVal) : Query :=
  {| q_completed := None; q_priority := Some v; q_search := None;
     q_sortBy := None; q_sortOrder := None; q_page := None; q_limit := None |}.

(** The request [?sortBy=field&sortOrder=order]. *)
Definition query_sort (field order : string) : Query :=
  {| q_completed := None; q_priority := None; q_search := None;
     q_sortBy := Some (QStr (u16 field)); q_sortOrder := Some (QStr (u16 order));
     q_page := None; q_limit := None |}.

(** The payloads [{description: null}] and [{id: "t9"}]. *)
Definition payload_null_description : JSObject :=
  <[K_description := VNull]> ∅.

Definition payload_id : JSObject :=
  <[K_id := VStr (u16 "t9")]> ∅.

(** The body [{title: "  Task 1 ", extra: 1}]. *)
Definition body_padded_title : JSObject :=
  <[K_title := VStr (u16 "  Task 1 ")]>
  (<[u16 "extra" := VNum (S754_finite false 4503599627370496 (-52))]> ∅).

(** Two creates, an update and a delete. *)
Definition trace_create_update_delete : list Request :=
  [ReqCreate (u16 "t1") (u16 "T1") (u16 "T1") (<[K_title := VStr (u16 "Task 1")]> ∅);
   ReqCreate (u16 "t2") (u16 "T2") (u16 "T2") (<[K_title := VStr (u16 "Task 2")]> ∅);
   ReqUpdate (u16 "T3") (u16 "t1") payload_completed;
   ReqDelete (u16 "t2")].

(** The string under the sort field, the empty string standing for any
    other value. *)
Definition sort_key (k : jsstring) (task : JSObject) : jsstring :=
  match js_get task k with
  | VStr s => s
  | _ => []
  end.

(** The request [?limit=-2]. *)
Definition query_limit_minus2 : Query :=
  query_of None None None (Some (QStr (decimal (-2)))).

(** The number of integer value [z], the positive zero for 0. *)
Definition of_Z (z : Z) : JSNumber := if z =? 0 then Zero false else Finite z.

(** The integer value of a number that has one. *)
Definition int_value (x : JSNumber) : option Z :=
  match x with
  | Zero _ => Some 0
  | Finite z => Some z
  | _ => None
  end.

(** A binary64 value: an integer that rounding leaves as it is. *)
Definition is_binary64 (x : JSNumber) : Prop :=
  match x with
  | Finite z => round64 z = Finite z
  | _ => True
  end.

(** A number that no array index reaches: Infinity, or an integer from
    2^53 on. *)
Definition beyond_2_53 (x : JSNumber) : Prop :=
  x = Infinity false \/ exists z, x = Finite z /\ 2 ^ 53 <= z.

(** The numbers of the model in the Standard Library's specification of
    binary64 arithmetic, and back. *)
Definition to_binary64 (x : JSNumber) : spec_float :=
  match x with
  | NaN => S754_nan
  | Infinity s => S754_infinity s
  | Zero s => S754_zero s
  | Finite z => binary_normalize 53 1024 z 0 false
  end.

Definition of_binary64 (x : spec_float) : JSNumber :=
  match x with
  | S754_nan => NaN
  | S754_infinity s => Infinity s
  | S754_zero s => Zero s
  | S754_finite s m e =>
      let v := if 0 <=? e then Z.pos m * 2 ^ e else Z.pos m / 2 ^ (- e) in
      Finite (if s then - v else v)
  end.

(** [Math.ceil] of a binary64 number. *)
Definition SF_ceil (x : spec_float) : JSNumber :=
  match x with
  | S754_nan => NaN
  | S754_infinity s => Infinity s
  | S754_zero s => Zero s
  | S754_finite s m e =>
      let v := if 0 <=? e then Z.pos m * 2 ^ e
               else if s then Z.pos m / 2 ^ (- e)
               else - ((- Z.pos m) / 2 ^ (- e)) in
      if v =? 0 then Zero s else Finite (if s then - v else v)
  end.

Definition JSNumber_eqb (x y : JSNumber) : bool :=
  match x, y with
  | NaN, NaN => true
  | Infinity a, Infinity b => Bool.eqb a b
  | Zero a, Zero b => Bool.eqb a b
  | Finite a, Finite b => a =? b
  | _, _ => false
  end.

(** Integers around the limits of exact representation, of rounding to
    even and of overflow. *)
Definition sample_integers : list Z :=
  [1; 2; 3; 10; 2^52; 2^53 - 1; 2^53; 2^53 + 1; 2^53 + 2; 2^53 + 3; 2^54 + 1;
   2^54 + 2; 2^54 + 3; 2^54 + 5; 2^54 + 6; 2^54 + 7; 2^60 + 2^7; 2^60 + 2^7 + 1;
   2^60 + 3 * 2^7; 10^22; 10^23; 10^100; 10^308; 2^1023; 2^1024 - 2^971;
   2^1024 - 2^970 - 1; 2^1024 - 2^970; 2^1024 - 1; 2^1024; 10^400].

Definition sample_numbers : list JSNumber :=
  [Infinity false; Infinity true; Zero false; Zero true] ++
  map round64 [1; -1; 3; -7; 2^53 - 1; 2^53; - 2^53; 2^53 + 2; 2^60 + 2^8;
               2^1024 - 2^971].

Definition sample_limits : list JSNumber :=
  sample_numbers ++
  map round64 [2; -2; 4; 7; 10; -10; 4294967291; -4294967295; 2^32; 10^22;
               - 10^100; 10^308; 2^1023].

Definition sample_lengths : list Z :=
  [0; 1; 2; 3; 5; 7; 9; 10; 11; 99; 100; 101; 1000; 65535; 4294967290;
   4294967291; 4294967294; 4294967295].

Definition all_pairs {A B} (l : list A) (l' : list B) : list (A * B) :=
  flat_map (fun a => map (fun b => (a, b)) l') l.

(** Insertion sort with a comparator that does not raise. *)
Fixpoint insert_pure {A} (cmp : A -> A -> Z) (x : A) (l : list A) : list A :=
  match l with
  | [] => [x]
  | y :: l' => if cmp x y <=? 0 then x :: l else y :: insert_pure cmp x l'
  end.

Definition sort_pure {A} (cmp : A -> A -> Z) (l : list A) : list A :=
  fold_right (insert_pure cmp) [] l.

(** The comparator of the sort stage on tasks that hold strings under the
    sort field. *)
Definition compare_keys (k : jsstring) (o : Z) (a b : JSObject) : Z :=
  if string_lt (sort_key k a) (sort_key k b) then -1 * o
  else if string_lt (sort_key k b) (sort_key k a) then 1 * o
  else 0.

(** The requests [?page=9007199254740993] (2^53 + 1) and [?limit=1000...0],
    a one followed by 400 zeros. *)
Definition query_page_2_53_plus_1 : Query :=
  query_of None None (Some (QStr (u16 "9007199254740993"))) None.

Definition query_limit_400_digits : Query :=
  query_of None None None (Some (QStr (49%N :: repeat 48%N 400))).

(** The request [?sortBy=nosuchfield&search=a&search=b]. *)
Definition query_sort_unknown_search_array : Query :=
  {| q_completed := None; q_priority := None;
     q_search := Some (QArr [QStr (u16 "a"); QStr (u16 "b")]);
     q_sortBy := Some (QStr (u16 "nosuchfield")); q_sortOrder := None;
     q_page := None; q_limit := None |}.

(** The search stage has what it reads: no search parameter or an empty
    one, or a string, with a string under title and description in every
    task. *)
Definition search_safe (q : Query) (tasks : list JSObject) : Prop :=
  match q_search q with
  | None => True
  | Some v =>
      q_truthy v = false \/
      ((exists s, v = QStr s) /\
       Forall (fun t => (exists a, js_get t K_title = VStr a) /\
                        (exists b, js_get t K_description = VStr b)) tasks)
  end.

(** The request [?sortBy=meta], and two tasks of which the first has been
    given [meta: {toString: 1}]. *)
Definition query_sort_meta : Query :=
  query_of None (Some (QStr (u16 "meta"))) None None.

Definition tasks_with_meta : list JSObject :=
  [<[u16 "meta" := VObj true]> (task_titled "t1" "Task 1" false);
   task_titled "t2" "Task 2" true].

(** Text that ends a numeral: nothing, or a character that is neither a
    decimal digit nor the "x" of a hexadecimal prefix. *)
Definition ends_numeral (rest : jsstring) : Prop :=
  match rest with
  | [] => True
  | c :: _ => digit_value 10 c = None /\ c <> 120%N /\ c <> 88%N
  end.

End TaskVocabulary.

Section UserVocabulary.

Import Users.

(** The request [{name: "A", email: "", age: 30}]. *)
Definition request_empty_email : UserRequest :=
  {| Name := u16 "A"; Email := []; Age := 30 |}.

Definition R_conflict : Response := RError 409 "Email already exists" [].

(** The requests of the duplicate-email scenario. *)
Definition request_a : UserRequest :=
  {| Name := u16 "A"; Email := u16 "a@b.com"; Age := 30 |}.

Definition request_b : UserRequest :=
  {| Name := u16 "B"; Email := u16 "b@b.com"; Age := 41 |}.

(** The table after [POST request_a] and [POST request_b]. *)
Definition db_two_users : DB :=
  snd (createUserHandler 1001 (Some request_b)
         (snd (createUserHandler 1000 (Some request_a)
                 {| rows := []; lastId := 0 |}))).

Definition user_a : User :=
  {| ID := 1; UName := u16 "A"; UEmail := u16 "a@b.com"; UAge := 30;
     CreatedAt := 1000 |}.

Definition user_b : User :=
  {| ID := 2; UName := u16 "B"; UEmail := u16 "b@b.com"; UAge := 41;
     CreatedAt := 1001 |}.

(** The request that a row of the table answers to. *)
Definition row_request (u : User) : UserRequest :=
  {| Name := UName u; Email := UEmail u; Age := UAge u |}.

(** The state of the table that the handlers maintain: every row passes
    validation, emails are pairwise distinct, identifiers are pairwise
    distinct, positive and at most the last identifier handed out. *)
Definition db_ok (db : DB) : Prop :=
  Forall (fun u => validateUser (row_request u) = []) (rows db) /\
  NoDup (map UEmail (rows db)) /\
  NoDup (map ID (rows db)) /\
  Forall (fun u => 0 < ID u <= lastId db) (rows db) /\
  0 <= lastId db.

(** The row written for [req] under identifier [id] at time [now]. *)
Definition row_of (id : Z) (req : UserRequest) (created : Z) : User :=
  {| ID := id; UName := Name req; UEmail := Email req; UAge := Age req;
     CreatedAt := created |}.

(** A name of 51 Cyrillic letters. *)
Definition name_51_cyrillic : gostring := repeat 1040%N 51.

End UserVocabulary.

(** * Properties of the tasks service *)

Ltac unfold_rules :=
  unfold Tasks.title_required_fails, Tasks.title_long_fails,
    Tasks.description_string_fails, Tasks.description_long_fails,
    Tasks.completed_fails, Tasks.priority_fails in *.

Section RepositoryTests.

Import Tasks.

(** The model run on cases of the repository's test suites. *)

Example test_title_200_accepted :
  validateTask (<[K_title := VStr (repeat 97%N 200)]> ∅) = [].
Proof. vm_compute. reflexivity. Qed.

Example test_title_201_rejected :
  validateTask (<[K_title := VStr (repeat 97%N 201)]> ∅) = [MSG_title_long].
Proof. vm_compute. reflexivity. Qed.

Example test_blank_title_rejected :
  validateTask (<[K_title := VStr (u16 "   ")]> ∅) = [MSG_title_required].
Proof. vm_compute. reflexivity. Qed.

Example test_non_numeric_page_limit :
  page_of query_page_abc = Finite 1 /\ limit_of query_page_abc = Finite 10.
Proof. vm_compute. split; reflexivity. Qed.

Example test_page_zero_preserved :
  page_of (query_of None None (Some (QStr (u16 "0"))) None) = Zero false.
Proof. vm_compute. reflexivity. Qed.

Example test_parseInt_prefixes :
  parseInt (u16 "12abc") = Finite 12 /\ parseInt (u16 " -0x1F") = Finite (-31) /\
  parseInt (u16 "") = NaN /\ parseInt (u16 "abc") = NaN /\
  parseInt (u16 "-0") = Zero true.
Proof. vm_compute. repeat split; reflexivity. Qed.

Example test_parseInt_binary64 :
  parseInt (u16 "9007199254740992") = Finite 9007199254740992 /\
  parseInt (u16 "9007199254740993") = Finite 9007199254740992 /\
  parseInt (u16 "-9007199254740995") = Finite (-9007199254740996) /\
  parseInt (49%N :: repeat 48%N 400) = Infinity false /\
  parseInt (45%N :: 49%N :: repeat 48%N 400) = Infinity true.
Proof. vm_compute. repeat split; reflexivity. Qed.

(** [GET /tasks?limit=-0] on five tasks. *)
Example test_limit_negative_zero :
  let q := query_of None None None (Some (QStr (u16 "-0"))) in
  limit_of q = Zero true /\
  paginatedTasks q five_tasks = [] /\
  p_totalPages (pagination q five_tasks) = Infinity true.
Proof. vm_compute. repeat split; reflexivity. Qed.

(** [POST] of "Task 1" to "Task 5", then
    [GET /tasks?page=1&limit=2&sortBy=title]. *)
Example test_pagination_scenario :
  let post (n : string) :=
    ReqCreate (u16 n) (u16 "2024-12-19T16:00:00.000Z") (u16 "2024-12-19T16:00:00.000Z")
              (<[K_title := VStr (u16 ("Task " ++ n))]> ∅) in
  let tasks := run ascii_runtime [post "1"; post "2"; post "3"; post "4"; post "5"]%string [] in
  match getTasks ascii_runtime query_page1_limit2 tasks with
  | RList page p =>
      map (fun t => js_get t K_title) page = [VStr (u16 "Task 1"); VStr (u16 "Task 2")] /\
      p = {| p_page := Finite 1; p_limit := Finite 2; p_total := 5;
             p_totalPages := Finite 3 |}
  | _ => False
  end.
Proof. vm_compute. split; reflexivity. Qed.

End RepositoryTests.

Section TaskValidation.

Import Tasks.

(** Each of the six rules contributes on its own: the result is the
    concatenation of the six contributions, in the order of the checks. *)
Lemma validateTask_rules (task : JSObject) :
  validateTask task =
    rule_msg (title_required_fails task) MSG_title_required ++
    rule_msg (title_long_fails task) MSG_title_long ++
    rule_msg (description_string_fails task) MSG_description_string ++
    rule_msg (description_long_fails task) MSG_description_long ++
    rule_msg (completed_fails task) MSG_completed_boolean ++
    rule_msg (priority_fails task) MSG_priority.
Proof.
  unfold validateTask, push_if, rule_msg.
  destruct (title_required_fails task), (title_long_fails task),
    (description_string_fails task), (description_long_fails task),
    (completed_fails task), (priority_fails task); reflexivity.
Qed.

Lemma validateTask_nil (task : JSObject) :
  validateTask task = [] <->
  title_required_fails task = false /\ title_long_fails task = false /\
  description_string_fails task = false /\ description_long_fails task = false /\
  completed_fails task = false /\ priority_fails task = false.
Proof.
  rewrite validateTask_rules. unfold rule_msg.
  destruct (title_required_fails task), (title_long_fails task),
    (description_string_fails task), (description_long_fails task),
    (completed_fails task), (priority_fails task); simpl;
    intuition discriminate.
Qed.

(** C8, as stated, fails: a description that is present and not a string,
    but falsy (here the number 0), is not reported, so the candidate with
    an empty title, a non-string description, a non-boolean completed and a
    priority outside the set yields three messages. *)
Lemma validateTask_zero_description_three_messages :
  js_get candidate_zero_description K_title = VStr [] /\
  candidate_zero_description !! K_description = Some (VNum (S754_zero false)) /\
  typeof_string (js_get candidate_zero_description K_description) = false /\
  typeof_boolean (js_get candidate_zero_description K_completed) = false /\
  priority_includes (js_get candidate_zero_description K_priority) = false /\
  validateTask candidate_zero_description =
    [MSG_title_required; MSG_completed_boolean; MSG_priority] /\
  validateTask candidate_zero_description <>
    [MSG_title_required; MSG_description_string; MSG_completed_boolean; MSG_priority].
Proof. vm_compute. repeat split; discriminate. Qed.

(** C8 (amended): the rules are evaluated independently; a candidate with an
    empty title, a truthy non-string description whose length does not
    exceed 1000, a present non-boolean completed and a truthy priority
    outside low, medium, high yields exactly the four messages, in rule
    order. *)
Theorem validateTask_four_violations (task : JSObject) :
  js_get task K_title = VStr [] ->
  truthy (js_get task K_description) = true ->
  typeof_string (js_get task K_description) = false ->
  length_gt (js_get task K_description) 1000 = false ->
  is_undefined (js_get task K_completed) = false ->
  typeof_boolean (js_get task K_completed) = false ->
  truthy (js_get task K_priority) = true ->
  priority_includes (js_get task K_priority) = false ->
  validateTask task =
    [MSG_title_required; MSG_description_string; MSG_completed_boolean; MSG_priority].
Proof.
  intros Ht Hd1 Hd2 Hd3 Hc1 Hc2 Hp1 Hp2.
  rewrite validateTask_rules. unfold_rules.
  rewrite Ht, Hd1, Hd2, Hd3, Hc1, Hc2, Hp1, Hp2. reflexivity.
Qed.

Lemma validateTask_four_violations_witness :
  validateTask candidate_unit_test =
    [MSG_title_required; MSG_description_string; MSG_completed_boolean; MSG_priority].
Proof. apply validateTask_four_violations; vm_compute; reflexivity. Defined.

End TaskValidation.

Section TaskStore.

Import Tasks.

Lemma findIndex_Some {A} (p : A -> bool) (l : list A) (i : nat) :
  findIndex p l = Some i -> exists x, l !! i = Some x /\ p x = true.
Proof.
  revert i. induction l as [|y l IH]; intros i H; simpl in H.
  - discriminate.
  - destruct (p y) eqn:Hp.
    + injection H as <-. exists y. split; [reflexivity | exact Hp].
    + destruct (findIndex p l) as [j|] eqn:Hj; simpl in H; [|discriminate].
      injection H as <-. destruct (IH j eq_refl) as (x & Hx & Hpx).
      exists x. split; [exact Hx | exact Hpx].
Qed.

Lemma find_Some_findIndex {A} (p : A -> bool) (l : list A) (x : A) :
  List.find p l = Some x ->
  exists i, findIndex p l = Some i /\ l !! i = Some x.
Proof.
  induction l as [|y l IH]; simpl; intros H.
  - discriminate.
  - destruct (p y) eqn:Hp.
    + injection H as ->. exists O. split; reflexivity.
    + destruct (IH H) as (i & Hi & Hx). exists (S i).
      rewrite Hi. split; [reflexivity | exact Hx].
Qed.

(** What the merged record holds under each key. *)
Lemma merge_update_lookup (now : jsstring) (old updateData : JSObject) (k : jsstring) :
  merge_update now old updateData !! k =
    if decide (k = K_updatedAt) then Some (VStr now)
    else match updateData !! k with
         | Some v => Some v
         | None => old !! k
         end.
Proof.
  unfold merge_update. destruct (decide (k = K_updatedAt)) as [->|Hk].
  - apply lookup_insert_eq.
  - rewrite lookup_insert_ne by congruence.
    rewrite lookup_union. destruct (updateData !! k), (old !! k); reflexivity.
Qed.

(** C2, as stated, fails: a payload that carries [createdAt] replaces the
    stored creation timestamp. *)
Lemma updateTask_overwrites_createdAt :
  exists updated tasks',
    updateTask (u16 "2024-12-19T16:20:00.000Z") (u16 "t1") payload_createdAt
      [stored_task] = (Some updated, tasks') /\
    tasks' = [updated] /\
    stored_task !! K_createdAt = Some (VStr (u16 "2024-12-19T16:00:00.000Z")) /\
    updated !! K_createdAt = Some (VStr (u16 "1999-01-01T00:00:00.000Z")) /\
    updated !! K_createdAt <> stored_task !! K_createdAt.
Proof.
  eexists _, _. split; [reflexivity|].
  split; [reflexivity|]. vm_compute. repeat split; discriminate.
Qed.

(** C2 (amended): for an existing task, the record stored by [updateTask]
    keeps every field that the payload does not carry, [createdAt] among
    them, and sets [updatedAt] to the timestamp read at the update; the
    other records of the store are left as they were. *)
Theorem updateTask_frame (now id : jsstring) (updateData : JSObject)
    (tasks : Store) (taskIndex : nat) :
  findIndex (id_is id) tasks = Some taskIndex ->
  exists old updated,
    tasks !! taskIndex = Some old /\
    updateTask now id updateData tasks =
      (Some updated, <[taskIndex := updated]> tasks) /\
    (<[taskIndex := updated]> tasks) !! taskIndex = Some updated /\
    (forall j, j <> taskIndex ->
       (<[taskIndex := updated]> tasks) !! j = tasks !! j) /\
    (updateData !! K_createdAt = None ->
       updated !! K_createdAt = old !! K_createdAt) /\
    (forall k, k <> K_updatedAt -> updateData !! k = None ->
       updated !! k = old !! k) /\
    updated !! K_updatedAt = Some (VStr now).
Proof.
  intros Hi. destruct (findIndex_Some _ _ _ Hi) as (old & Hold & _).
  exists old, (merge_update now old updateData).
  split; [exact Hold|]. split.
  { unfold updateTask. rewrite Hi, Hold. reflexivity. }
  split.
  { apply list_lookup_insert_eq. eapply lookup_lt_Some. exact Hold. }
  split.
  { intros j Hj. apply list_lookup_insert_ne. congruence. }
  split.
  { intros Hc. rewrite merge_update_lookup, Hc.
    destruct (decide (K_createdAt = K_updatedAt)) as [E|_]; [discriminate E|].
    reflexivity. }
  split.
  { intros k Hk Hnone. rewrite merge_update_lookup, Hnone.
    destruct (decide (k = K_updatedAt)); [contradiction|reflexivity]. }
  rewrite merge_update_lookup.
  destruct (decide (K_updatedAt = K_updatedAt)); [reflexivity|contradiction].
Qed.

Lemma updateTask_frame_witness :
  exists old updated,
    [stored_task] !! O = Some old /\
    updateTask (u16 "2024-12-19T16:20:00.000Z") (u16 "t1") payload_completed
      [stored_task] = (Some updated, <[O := updated]> [stored_task]) /\
    (<[O := updated]> [stored_task]) !! O = Some updated /\
    (forall j, j <> O -> (<[O := updated]> [stored_task]) !! j = [stored_task] !! j) /\
    (payload_completed !! K_createdAt = None ->
       updated !! K_createdAt = old !! K_createdAt) /\
    (forall k, k <> K_updatedAt -> payload_completed !! k = None ->
       updated !! k = old !! k) /\
    updated !! K_updatedAt = Some (VStr (u16 "2024-12-19T16:20:00.000Z")).
Proof.
  apply (updateTask_frame (u16 "2024-12-19T16:20:00.000Z") (u16 "t1")
           payload_completed [stored_task] O).
  vm_compute. reflexivity.
Defined.

End TaskStore.

Section TaskInvariant.

Import Tasks.

(** *** Trimming *)

Lemma dropSpaces_starts (s : jsstring) : starts_nonspace (dropSpaces s).
Proof.
  induction s as [|c s IH]; simpl; [exact I|].
  destruct (isTrimSpace c) eqn:Hc; [exact IH | exact Hc].
Qed.

Lemma dropSpaces_fix (s : jsstring) : starts_nonspace s -> dropSpaces s = s.
Proof. destruct s as [|c s]; simpl; [reflexivity|]. intros ->. reflexivity. Qed.

Lemma dropSpaces_length (s : jsstring) : (length (dropSpaces s) <= length s)%nat.
Proof.
  induction s as [|c s IH]; simpl; [lia|].
  destruct (isTrimSpace c); simpl; lia.
Qed.

Lemma starts_nonspace_app (s t : jsstring) :
  starts_nonspace (s ++ t) -> starts_nonspace s.
Proof. destruct s; simpl; [intros _; exact I | tauto]. Qed.

Lemma dropSpaces_rev_starts (s : jsstring) :
  starts_nonspace (rev s) -> starts_nonspace (rev (dropSpaces s)).
Proof.
  induction s as [|c s IH]; simpl; [tauto|].
  intros H. destruct (isTrimSpace c); [|exact H].
  apply IH. eapply starts_nonspace_app. exact H.
Qed.

Lemma js_trim_idempotent (s : jsstring) : js_trim (js_trim s) = js_trim s.
Proof.
  unfold js_trim.
  set (u := dropSpaces s). set (w := dropSpaces (rev u)).
  assert (Hw : starts_nonspace (rev w)).
  { apply dropSpaces_rev_starts. rewrite rev_involutive. apply dropSpaces_starts. }
  rewrite (dropSpaces_fix (rev w) Hw), rev_involutive.
  rewrite (dropSpaces_fix w); [reflexivity | apply dropSpaces_starts].
Qed.

Lemma js_trim_length (s : jsstring) : (length (js_trim s) <= length s)%nat.
Proof.
  unfold js_trim. rewrite length_rev.
  etransitivity; [apply dropSpaces_length|].
  rewrite length_rev. apply dropSpaces_length.
Qed.

(** *** The record built by [createTask] *)

Lemma js_get_insert_eq (o : JSObject) (k : jsstring) (v : JSVal) :
  js_get (<[k := v]> o) k = v.
Proof. unfold js_get. rewrite lookup_insert_eq. reflexivity. Qed.

Lemma js_get_insert_ne (o : JSObject) (k k' : jsstring) (v : JSVal) :
  k <> k' -> js_get (<[k := v]> o) k' = js_get o k'.
Proof. intros H. unfold js_get. rewrite lookup_insert_ne by exact H. reflexivity. Qed.

(** The four fields that [validateTask] reads decide its result. *)
Lemma validateTask_ext (a b : JSObject) :
  js_get a K_title = js_get b K_title ->
  js_get a K_description = js_get b K_description ->
  js_get a K_completed = js_get b K_completed ->
  js_get a K_priority = js_get b K_priority ->
  validateTask a = validateTask b.
Proof.
  intros Ht Hd Hc Hp. rewrite !validateTask_rules. unfold_rules.
  rewrite Ht, Hd, Hc, Hp. reflexivity.
Qed.

Lemma title_valid_trim (s : jsstring) :
  let v := VStr s in
  negb (truthy v) || negb (typeof_string v) || trim_is_empty v = false ->
  truthy v && length_gt v 200 = false ->
  let v' := VStr (js_trim s) in
  negb (truthy v') || negb (typeof_string v') || trim_is_empty v' = false /\
  truthy v' && length_gt v' 200 = false.
Proof.
  intros v H1 H2 v'. subst v v'.
  assert (Hs : truthy (VStr s) = true) by (destruct s; [discriminate H1 | reflexivity]).
  rewrite Hs in H1, H2. cbn [negb orb andb typeof_string trim_is_empty length_gt] in H1, H2.
  apply Nat.eqb_neq in H1. apply Nat.ltb_ge in H2.
  assert (Ht : truthy (VStr (js_trim s)) = true).
  { destruct (js_trim s); [simpl in H1; lia | reflexivity]. }
  rewrite Ht. cbn [negb orb andb typeof_string trim_is_empty length_gt].
  rewrite js_trim_idempotent. split.
  - apply Nat.eqb_neq. exact H1.
  - apply Nat.ltb_ge. pose proof (js_trim_length s). lia.
Qed.

Lemma createTask_valid (uuid t1 t2 : jsstring) (body : JSObject) (tasks : Store)
    (task : JSObject) (tasks' : Store) :
  validateTask body = [] ->
  createTask uuid t1 t2 body tasks = Some (task, tasks') ->
  validateTask task = [] /\ tasks' = tasks ++ [task].
Proof.
  intros Hv Hc. apply validateTask_nil in Hv.
  destruct Hv as (H1 & H2 & H3 & H4 & H5 & H6).
  unfold createTask in Hc.
  unfold title_required_fails, title_long_fails in H1, H2.
  destruct (js_get body K_title) as [| | | |title| | |] eqn:Ht; try discriminate Hc.
  injection Hc as <- <-. split; [|reflexivity].
  apply validateTask_nil. unfold_rules.
  repeat (rewrite js_get_insert_ne by discriminate).
  rewrite !js_get_insert_eq.
  repeat (rewrite js_get_insert_ne by discriminate).
  rewrite !js_get_insert_eq.
  repeat (rewrite js_get_insert_ne by discriminate).
  rewrite !js_get_insert_eq.
  repeat (rewrite js_get_insert_ne by discriminate).
  rewrite !js_get_insert_eq.
  destruct (title_valid_trim title H1 H2) as [T1 T2].
  split; [exact T1|]. split; [exact T2|].
  unfold js_or.
  destruct (truthy (js_get body K_description)) eqn:Hd.
  - rewrite Hd. split; [exact H3|]. split; [exact H4|].
    split.
    + destruct (js_get body K_completed); simpl in *; try discriminate; try reflexivity.
      destruct b; reflexivity.
    + destruct (truthy (js_get body K_priority)) eqn:Hp; [rewrite Hp; exact H6|].
      reflexivity.
  - split; [reflexivity|]. split; [reflexivity|].
    split.
    + destruct (js_get body K_completed); simpl in *; try discriminate; try reflexivity.
      destruct b; reflexivity.
    + destruct (truthy (js_get body K_priority)) eqn:Hp; [rewrite Hp; exact H6|].
      reflexivity.
Qed.

(** *** The record stored by [updateTask] *)

Lemma validateTask_merge_update (now : jsstring) (old updateData : JSObject) :
  validateTask (merge_update now old updateData) = validateTask (updateData ∪ old).
Proof.
  unfold merge_update.
  apply validateTask_ext; apply js_get_insert_ne; discriminate.
Qed.

Lemma postTask_valid (uuid t1 t2 : jsstring) (body : JSObject) (tasks : Store) :
  valid_store tasks -> valid_store (snd (postTask uuid t1 t2 body tasks)).
Proof.
  intros Hs. unfold postTask.
  destruct (validateTask body) as [|e errs] eqn:Hv; simpl; [|exact Hs].
  destruct (createTask uuid t1 t2 body tasks) as [[task tasks']|] eqn:Hc;
    simpl; [|exact Hs].
  destruct (createTask_valid _ _ _ _ _ _ _ Hv Hc) as [Hvalid ->].
  apply Forall_app. split; [exact Hs|]. constructor; [exact Hvalid|constructor].
Qed.

Lemma putTask_valid (now id : jsstring) (body : JSObject) (tasks : Store) :
  valid_store tasks -> valid_store (snd (putTask now id body tasks)).
Proof.
  intros Hs. unfold putTask, findTaskById.
  destruct (List.find (id_is id) tasks) as [task|] eqn:Hf; simpl; [|exact Hs].
  destruct (find_Some_findIndex _ _ _ Hf) as (i & Hi & Hold).
  destruct (validateTask (body ∪ task)) as [|e errs] eqn:Hv; simpl; [|exact Hs].
  unfold updateTask. rewrite Hi, Hold. simpl.
  apply Forall_insert; [exact Hs|].
  rewrite validateTask_merge_update. exact Hv.
Qed.

Lemma deleteTaskHandler_valid (id : jsstring) (tasks : Store) :
  valid_store tasks -> valid_store (snd (deleteTaskHandler id tasks)).
Proof.
  intros Hs. unfold deleteTaskHandler, deleteTask.
  destruct (findIndex (id_is id) tasks) as [i|]; simpl; [|exact Hs].
  apply Forall_delete. exact Hs.
Qed.

Lemma handle_valid (rt : Runtime) (req : Request) (tasks : Store) :
  valid_store tasks -> valid_store (snd (handle rt req tasks)).
Proof.
  intros Hs. destruct req; simpl.
  - exact Hs.
  - exact Hs.
  - apply postTask_valid. exact Hs.
  - apply putTask_valid. exact Hs.
  - apply deleteTaskHandler_valid. exact Hs.
  - constructor.
Qed.

Lemma run_valid (rt : Runtime) (reqs : list Request) (tasks : Store) :
  valid_store tasks -> valid_store (run rt reqs tasks).
Proof.
  revert tasks. induction reqs as [|req reqs IH]; intros tasks Hs; simpl.
  - exact Hs.
  - apply IH. apply handle_valid. exact Hs.
Qed.

(** C10: whatever the sequence of API operations applied to the empty
    store, every task in the store passes [validateTask].  The create
    handler changes the store only by appending a record built from a
    candidate without violations, and the update handler only by replacing
    a record with a merged record without violations. *)
Theorem store_tasks_always_valid (rt : Runtime) (reqs : list Request) :
  Forall (fun task => validateTask task = []) (run rt reqs []) /\
  (forall uuid t1 t2 body tasks,
     snd (postTask uuid t1 t2 body tasks) = tasks \/
     (validateTask body = [] /\
      exists task, validateTask task = [] /\
        snd (postTask uuid t1 t2 body tasks) = tasks ++ [task])) /\
  (forall now id body tasks,
     snd (putTask now id body tasks) = tasks \/
     (exists i old, tasks !! i = Some old /\
        validateTask (body ∪ old) = [] /\
        validateTask (merge_update now old body) = [] /\
        snd (putTask now id body tasks) =
          <[i := merge_update now old body]> tasks)).
Proof.
  split; [apply run_valid; constructor|]. split.
  - intros uuid t1 t2 body tasks. unfold postTask.
    destruct (validateTask body) as [|e errs] eqn:Hv; simpl; [|left; reflexivity].
    destruct (createTask uuid t1 t2 body tasks) as [[task tasks']|] eqn:Hc;
      simpl; [|left; reflexivity].
    destruct (createTask_valid _ _ _ _ _ _ _ Hv Hc) as [Hvalid ->].
    right. split; [reflexivity|]. exists task. split; [exact Hvalid|reflexivity].
  - intros now id body tasks. unfold putTask, findTaskById.
    destruct (List.find (id_is id) tasks) as [task|] eqn:Hf; simpl;
      [|left; reflexivity].
    destruct (find_Some_findIndex _ _ _ Hf) as (i & Hi & Hold).
    destruct (validateTask (body ∪ task)) as [|e errs] eqn:Hv; simpl;
      [|left; reflexivity].
    unfold updateTask. rewrite Hi, Hold. simpl.
    right. exists i, task. split; [exact Hold|]. split; [exact Hv|].
    split; [|reflexivity].
    rewrite validateTask_merge_update. exact Hv.
Qed.

End TaskInvariant.

(** * Properties of the users service *)

Section UserValidation.

Import Users.

Lemma trimLeft_nil_spaces (s : gostring) :
  trimLeft s = [] -> forallb isSpace s = true.
Proof.
  induction s as [|r s IH]; simpl; [reflexivity|].
  destruct (isSpace r); [exact IH | discriminate].
Qed.

Lemma trimLeft_starts (s : gostring) :
  match trimLeft s with [] => True | r :: _ => isSpace r = false end.
Proof.
  induction s as [|r s IH]; simpl; [exact I|].
  destruct (isSpace r) eqn:Hr; [exact IH | exact Hr].
Qed.

(** A string that trims to nothing consists of white space. *)
Lemma TrimSpace_nil_spaces (s : gostring) :
  TrimSpace s = [] -> forallb isSpace s = true.
Proof.
  unfold TrimSpace. intros H.
  apply (f_equal (@rev N)) in H. rewrite rev_involutive in H. simpl in H.
  apply trimLeft_nil_spaces in H.
  pose proof (trimLeft_starts s) as Hs.
  destruct (trimLeft s) as [|r t] eqn:Ht.
  - apply trimLeft_nil_spaces. exact Ht.
  - rewrite forallb_forall in H. rewrite (H r) in Hs; [discriminate|].
    apply in_rev. rewrite rev_involutive. left. reflexivity.
Qed.

Lemma spaces_not_contain (s : gostring) (c : N) :
  isSpace c = false -> forallb isSpace s = true -> ContainsRune s c = false.
Proof.
  intros Hc. induction s as [|r s IH]; simpl; [reflexivity|].
  intros H. apply andb_prop in H as [Hr Hs]. rewrite (IH Hs).
  destruct (N.eqb_spec c r) as [->|_]; [congruence | reflexivity].
Qed.

Lemma blank_email_invalid (email : gostring) :
  TrimSpace email = [] -> isValidEmail email = false.
Proof.
  intros H. unfold isValidEmail.
  rewrite (spaces_not_contain email AT); [reflexivity | reflexivity |].
  apply TrimSpace_nil_spaces. exact H.
Qed.

(** C1, as stated, fails: with an empty email the list holds the separate
    message "Email is required", ahead of the format message. *)
Lemma validateUser_empty_email_reports_required :
  TrimSpace (Email request_empty_email) = [] /\
  validateUser request_empty_email =
    ["Email is required"; "Invalid email format"]%string /\
  In "Email is required"%string (validateUser request_empty_email).
Proof. vm_compute. split; [reflexivity|]. split; [reflexivity|]. left. reflexivity. Qed.

(** C1 (amended): for a candidate whose email is empty after trimming,
    [validateUser] reports both "Email is required" and "Invalid email
    format" for the email field, in this order, between the messages of the
    name and those of the age. *)
Theorem validateUser_empty_email (user : UserRequest) :
  TrimSpace (Email user) = [] ->
  validateUser user =
    rule_msg (bool_decide (TrimSpace (Name user) = [])) "Name is required" ++
    rule_msg (Nat.ltb 100 (len (Name user))) "Name must be less than 100 characters" ++
    ["Email is required"; "Invalid email format"]%string ++
    rule_msg (Age user <? 0) "Age must be non-negative" ++
    rule_msg (150 <? Age user) "Age must be less than 150".
Proof.
  intros H. unfold validateUser.
  rewrite (blank_email_invalid _ H), H.
  unfold append_if, rule_msg. simpl.
  destruct (bool_decide (TrimSpace (Name user) = [])),
    (Nat.ltb 100 (len (Name user))), (Age user <? 0), (150 <? Age user);
    reflexivity.
Qed.

Lemma validateUser_empty_email_witness :
  validateUser {| Name := u16 "A"; Email := [32%N; 9%N]; Age := 30 |} =
    ["Email is required"; "Invalid email format"]%string.
Proof.
  apply (validateUser_empty_email {| Name := u16 "A"; Email := [32%N; 9%N]; Age := 30 |}).
  vm_compute. reflexivity.
Defined.

End UserValidation.

Section UserStore.

Import Users.

Lemma emailTaken_In (email : gostring) (us : list User) (holder : User) :
  In holder us -> UEmail holder = email -> emailTaken email us = true.
Proof.
  intros Hin He. unfold emailTaken. apply existsb_exists.
  exists holder. split; [exact Hin|]. apply bool_decide_eq_true. exact He.
Qed.

(** The INSERT of a held email fails and leaves the table as it was. *)
Lemma execInsert_duplicate (now : Z) (req : UserRequest) (db : DB) (holder : User) :
  In holder (rows db) -> UEmail holder = Email req ->
  execInsert now req db = (inl UniqueConstraintFailed, db).
Proof.
  intros Hin He. unfold execInsert.
  rewrite (emailTaken_In _ _ _ Hin He). reflexivity.
Qed.

(** The UPDATE of an existing row to an email held by another row fails
    and leaves the table as it was. *)
Lemma execUpdate_duplicate (req : UserRequest) (id : Z) (db : DB) (holder target : User) :
  In holder (rows db) -> UEmail holder = Email req -> ID holder <> id ->
  In target (rows db) -> ID target = id ->
  execUpdate req id db = (inl UniqueConstraintFailed, db).
Proof.
  intros Hin He Hne Ht Hid. unfold execUpdate.
  assert (Hex : existsb (fun u => ID u =? id) (rows db) = true).
  { apply existsb_exists. exists target. split; [exact Ht|]. apply Z.eqb_eq. exact Hid. }
  rewrite Hex. simpl.
  rewrite (emailTaken_In (Email req) _ holder); [reflexivity| |exact He].
  apply filter_In. split; [exact Hin|].
  apply negb_true_iff. apply Z.eqb_neq. exact Hne.
Qed.

(** C6: creating a user whose email is held by a user of the table, or
    updating another existing user to that email, fails the UNIQUE
    constraint: the store phase of either handler answers 409 "Email
    already exists" and leaves the table, and with it the record that holds
    the email, as it was.  The handlers reach that phase for every request
    that passes validation, and leave the table unchanged also when it does
    not. *)
Theorem duplicate_email_conflict (now : Z) (req : UserRequest) (db : DB) (holder : User) :
  In holder (rows db) ->
  UEmail holder = Email req ->
  insertUser now req db = (R_conflict, db) /\
  (forall target, In target (rows db) -> ID target <> ID holder ->
     updateUser req (ID target) db = (R_conflict, db)) /\
  (validateUser req = [] ->
     createUserHandler now (Some req) db = (R_conflict, db) /\
     forall target, In target (rows db) -> ID target <> ID holder ->
       updateUserHandler (Some (ID target)) (Some req) db = (R_conflict, db)) /\
  snd (createUserHandler now (Some req) db) = db /\
  (forall target, In target (rows db) -> ID target <> ID holder ->
     snd (updateUserHandler (Some (ID target)) (Some req) db) = db) /\
  In holder (rows (snd (createUserHandler now (Some req) db))).
Proof.
  intros Hin He.
  assert (Hi : insertUser now req db = (R_conflict, db)).
  { unfold insertUser.
    rewrite (execInsert_duplicate now req db holder Hin He). reflexivity. }
  assert (Hu : forall target, In target (rows db) -> ID target <> ID holder ->
                 updateUser req (ID target) db = (R_conflict, db)).
  { intros target Ht Hne. unfold updateUser.
    rewrite (execUpdate_duplicate req (ID target) db holder target);
      [reflexivity|exact Hin|exact He|congruence|exact Ht|reflexivity]. }
  assert (Hc : snd (createUserHandler now (Some req) db) = db).
  { unfold createUserHandler.
    destruct (Nat.ltb 0 (length (validateUser req))); [reflexivity|].
    rewrite Hi. reflexivity. }
  split; [exact Hi|]. split; [exact Hu|]. split.
  { intros Hv. unfold createUserHandler, updateUserHandler. rewrite Hv. simpl.
    split; [exact Hi | exact Hu]. }
  split; [exact Hc|]. split.
  - intros target Ht Hne. unfold updateUserHandler.
    destruct (Nat.ltb 0 (length (validateUser req))); [reflexivity|].
    rewrite (Hu target Ht Hne). reflexivity.
  - rewrite Hc. exact Hin.
Qed.

Lemma duplicate_email_conflict_witness :
  createUserHandler 1002 (Some request_a) db_two_users = (R_conflict, db_two_users) /\
  updateUserHandler (Some 2) (Some request_a) db_two_users = (R_conflict, db_two_users) /\
  In user_a (rows db_two_users).
Proof.
  assert (Ha : In user_a (rows db_two_users)) by (left; reflexivity).
  destruct (duplicate_email_conflict 1002 request_a db_two_users user_a Ha eq_refl)
    as (_ & _ & Hh & _).
  destruct (Hh eq_refl) as [Hc Hu].
  split; [exact Hc|]. split; [|exact Ha].
  apply (Hu user_b).
  - right. left. reflexivity.
  - discriminate.
Defined.

End UserStore.

(** * Properties of the list endpoint *)

Section Numbers.

Import Tasks.

(** The number model run against the Standard Library's specification of
    binary64 arithmetic, on integers around the limits of exact
    representation, of rounding to even and of overflow. *)

Example round64_conforms :
  forallb (fun z =>
    JSNumber_eqb (of_binary64 (binary_normalize 53 1024 z 0 false)) (round64 z) &&
    JSNumber_eqb (of_binary64 (binary_normalize 53 1024 (- z) 0 false)) (round64 (- z)))
    sample_integers = true.
Proof. vm_compute. reflexivity. Qed.

Example js_add_conforms :
  forallb (fun '(x, y) =>
    JSNumber_eqb (of_binary64 (SFadd 53 1024 (to_binary64 x) (to_binary64 y)))
                 (js_add x y))
    (all_pairs sample_numbers sample_numbers) = true.
Proof. vm_compute. reflexivity. Qed.

Example js_sub_conforms :
  forallb (fun '(x, y) =>
    JSNumber_eqb (of_binary64 (SFsub 53 1024 (to_binary64 x) (to_binary64 y)))
                 (js_sub x y))
    (all_pairs sample_numbers sample_numbers) = true.
Proof. vm_compute. reflexivity. Qed.

Example js_mul_conforms :
  forallb (fun '(x, y) =>
    JSNumber_eqb (of_binary64 (SFmul 53 1024 (to_binary64 x) (to_binary64 y)))
                 (js_mul x y))
    (all_pairs sample_numbers sample_numbers) = true.
Proof. vm_compute. reflexivity. Qed.

Example ceil_div_conforms :
  forallb (fun '(n, l) =>
    JSNumber_eqb (SF_ceil (SFdiv 53 1024 (to_binary64 (of_Z n)) (to_binary64 l)))
                 (ceil_div n l))
    (all_pairs sample_lengths sample_limits) = true.
Proof. vm_compute. reflexivity. Qed.

(** *** Rounding *)

Lemma round64_pos_small (n : Z) : n < 2 ^ 53 -> round64_pos n = Finite n.
Proof.
  intros H. unfold round64_pos. destruct (Z.ltb_spec n (2 ^ 53)); [reflexivity | lia].
Qed.

Lemma round64_pos_2_53 : round64_pos (2 ^ 53) = Finite (2 ^ 53).
Proof. vm_compute. reflexivity. Qed.

(** Integers up to 2^53 in magnitude are binary64 values. *)
Lemma round64_exact (z : Z) : - 2 ^ 53 <= z <= 2 ^ 53 -> round64 z = of_Z z.
Proof.
  intros H. unfold round64, of_Z.
  destruct (Z.eqb_spec z 0); [reflexivity|].
  destruct (Z.ltb_spec 0 z).
  - destruct (Z.eq_dec z (2 ^ 53)) as [->|]; [apply round64_pos_2_53|].
    apply round64_pos_small. lia.
  - destruct (Z.eq_dec (- z) (2 ^ 53)) as [E|].
    + rewrite E, round64_pos_2_53. simpl. f_equal. lia.
    + rewrite round64_pos_small by lia. simpl. f_equal. lia.
Qed.

(** The parts of the rounding of an integer of 54 bits or more. *)
Lemma round64_pos_large (n : Z) :
  2 ^ 53 <= n ->
  exists e q', 1 <= e /\ 2 ^ 52 <= q' <= 2 ^ 53 /\
    round64_pos n = if 2 ^ 1024 <=? q' * 2 ^ e then Infinity false
                    else Finite (q' * 2 ^ e).
Proof.
  intros Hn. unfold round64_pos.
  destruct (Z.ltb_spec n (2 ^ 53)); [lia|].
  assert (Hpos : 0 < n) by lia.
  pose proof (Z.log2_spec n Hpos) as [Hlo Hhi].
  assert (Hl : 53 <= Z.log2 n).
  { apply Z.log2_le_pow2; lia. }
  set (e := Z.log2 n - 52) in *.
  assert (He : 1 <= e) by (subst e; lia).
  assert (Hpe : 0 < 2 ^ e) by (apply Z.pow_pos_nonneg; lia).
  assert (Hsplit : 2 ^ Z.log2 n = 2 ^ 52 * 2 ^ e).
  { rewrite <- Z.pow_add_r by lia. f_equal. subst e. lia. }
  assert (Hsplit' : 2 ^ Z.succ (Z.log2 n) = 2 ^ 53 * 2 ^ e).
  { rewrite <- Z.pow_add_r by lia. f_equal. subst e. lia. }
  assert (Hq : 2 ^ 52 <= n / 2 ^ e < 2 ^ 53).
  { split.
    - apply Z.div_le_lower_bound; lia.
    - apply Z.div_lt_upper_bound; lia. }
  set (q := n / 2 ^ e) in *.
  set (q' := if n mod 2 ^ e <? 2 ^ (e - 1) then q
             else if 2 ^ (e - 1) <? n mod 2 ^ e then q + 1
             else if Z.even q then q else q + 1).
  exists e, q'. split; [exact He|]. split; [|reflexivity].
  subst q'. destruct (_ <? _); [lia|]. destruct (_ <? _); [lia|].
  destruct (Z.even q); lia.
Qed.

(** From 2^53 on, the rounded value stays at 2^53 or beyond. *)
Lemma round64_beyond (z : Z) : 2 ^ 53 <= z -> beyond_2_53 (round64 z).
Proof.
  intros Hz. unfold round64.
  destruct (Z.eqb_spec z 0); [lia|]. destruct (Z.ltb_spec 0 z); [|lia].
  destruct (round64_pos_large z Hz) as (e & q' & He & Hq & ->).
  destruct (_ <=? _); [left; reflexivity|]. right. eexists. split; [reflexivity|].
  assert (2 ^ 1 <= 2 ^ e) by (apply Z.pow_le_mono_r; lia).
  change (2 ^ 1) with 2 in *. change (2 ^ 53) with (2 ^ 52 * 2). nia.
Qed.

Lemma round64_pos_idem (n z : Z) :
  0 < n -> round64_pos n = Finite z -> 0 < z /\ round64_pos z = Finite z.
Proof.
  intros Hn H.
  destruct (Z.lt_ge_cases n (2 ^ 53)) as [Hs|Hl].
  - rewrite round64_pos_small in H by exact Hs. injection H as <-.
    split; [exact Hn | apply round64_pos_small; exact Hs].
  - destruct (round64_pos_large n Hl) as (e & q' & He & Hq & Hr).
    rewrite Hr in H. destruct (Z.leb_spec (2 ^ 1024) (q' * 2 ^ e)) as [|Hov]; [discriminate|].
    injection H as <-.
    assert (Hpe : 0 < 2 ^ e) by (apply Z.pow_pos_nonneg; lia).
    split; [nia|].
    assert (Hbig : 2 ^ 53 <= q' * 2 ^ e).
    { assert (2 ^ 1 <= 2 ^ e) by (apply Z.pow_le_mono_r; lia).
      change (2 ^ 1) with 2 in *. change (2 ^ 53) with (2 ^ 52 * 2). nia. }
    unfold round64_pos. destruct (Z.ltb_spec (q' * 2 ^ e) (2 ^ 53)); [lia|].
    assert (Hcase : q' < 2 ^ 53 \/ q' = 2 ^ 53) by lia.
    destruct Hcase as [Hlt | ->].
    + assert (Hlog : Z.log2 (q' * 2 ^ e) = 52 + e).
      { apply Z.log2_unique; [lia|].
        rewrite Z.pow_succ_r by lia. rewrite !Z.pow_add_r by lia. nia. }
      rewrite Hlog. replace (52 + e - 52) with e by lia.
      rewrite Z.div_mul by lia. rewrite Z.mod_mul by lia.
      assert (0 < 2 ^ (e - 1)) by (apply Z.pow_pos_nonneg; lia).
      destruct (Z.ltb_spec 0 (2 ^ (e - 1))); [|lia].
      destruct (Z.leb_spec (2 ^ 1024) (q' * 2 ^ e)); [lia | reflexivity].
    + assert (Hlog : Z.log2 (2 ^ 53 * 2 ^ e) = 53 + e).
      { rewrite <- Z.pow_add_r by lia. apply Z.log2_pow2. lia. }
      rewrite Hlog. replace (53 + e - 52) with (e + 1) by lia.
      assert (Hv : 2 ^ 53 * 2 ^ e = 2 ^ 52 * 2 ^ (e + 1)).
      { rewrite <- !Z.pow_add_r by lia. f_equal. lia. }
      rewrite Hv.
      assert (0 < 2 ^ (e + 1)) by (apply Z.pow_pos_nonneg; lia).
      rewrite Z.div_mul by lia. rewrite Z.mod_mul by lia.
      replace (e + 1 - 1) with e by lia.
      destruct (Z.ltb_spec 0 (2 ^ e)); [|lia].
      rewrite <- Hv.
      destruct (Z.leb_spec (2 ^ 1024) (2 ^ 53 * 2 ^ e)); [lia | reflexivity].
Qed.

(** Rounding yields binary64 values. *)
Lemma round64_is_binary64 (z : Z) : is_binary64 (round64 z).
Proof.
  unfold round64.
  destruct (Z.eqb_spec z 0); [exact I|].
  destruct (Z.ltb_spec 0 z).
  - destruct (round64_pos z) as [| | |z'] eqn:E; try exact I.
    destruct (round64_pos_idem z z' ltac:(lia) E) as [Hz' Hr].
    simpl. unfold round64.
    destruct (Z.eqb_spec z' 0); [lia|].
    destruct (Z.ltb_spec 0 z'); [exact Hr | lia].
  - destruct (round64_pos (- z)) as [| | |z'] eqn:E; try exact I.
    destruct (round64_pos_idem (- z) z' ltac:(lia) E) as [Hz' Hr].
    simpl. unfold round64.
    destruct (Z.eqb_spec (- z') 0); [lia|].
    destruct (Z.ltb_spec 0 (- z')); [lia|].
    rewrite Z.opp_involutive, Hr. reflexivity.
Qed.

Lemma is_binary64_nonzero (z : Z) : is_binary64 (Finite z) -> z <> 0.
Proof. simpl. intros H ->. discriminate H. Qed.

Lemma round64_opp (z : Z) : z <> 0 -> round64 (- z) = js_neg (round64 z).
Proof.
  intros Hz. unfold round64.
  destruct (Z.eqb_spec z 0); [contradiction|].
  destruct (Z.eqb_spec (- z) 0); [lia|].
  destruct (Z.ltb_spec 0 z); destruct (Z.ltb_spec 0 (- z)); try lia.
  - rewrite Z.opp_involutive. reflexivity.
  - destruct (round64_pos (- z)) as [|[]|[]|]; simpl; try reflexivity.
    rewrite Z.opp_involutive. reflexivity.
Qed.

Lemma round64_not_NaN (z : Z) : round64 z <> NaN.
Proof.
  assert (Hp : forall n, round64_pos n <> NaN).
  { intros n. unfold round64_pos. destruct (_ <? _); [discriminate|].
    destruct (_ <=? _); discriminate. }
  unfold round64. destruct (_ =? _); [discriminate|].
  destruct (_ <? _); [apply Hp|].
  specialize (Hp (- z)). destruct (round64_pos (- z)); simpl; congruence.
Qed.

End Numbers.

Section QueryParameters.

Import Tasks.

Lemma le_digits_digits (fuel : nat) (n : Z) : Forall is_digit (le_digits fuel n).
Proof.
  revert n. induction fuel as [|fuel IH]; intros n; simpl; constructor.
  - unfold is_digit. apply Z.mod_pos_bound. lia.
  - destruct (n <? 10); [constructor | apply IH].
Qed.

Lemma le_digits_value (fuel : nat) (n : Z) :
  0 <= n -> (Z.to_nat n < fuel)%nat ->
  fold_right (fun d a => 10 * a + d) 0 (le_digits fuel n) = n.
Proof.
  revert n. induction fuel as [|fuel IH]; intros n Hn Hf; [lia|].
  simpl. destruct (Z.ltb_spec n 10) as [Hlt|Hge]; simpl.
  - rewrite Z.mod_small; lia.
  - rewrite IH.
    + pose proof (Z.div_mod n 10). lia.
    + apply Z.div_pos; lia.
    + assert (n / 10 < n) by (apply Z.div_lt; lia).
      assert (0 <= n / 10) by (apply Z.div_pos; lia). lia.
Qed.

Lemma le_digits_nonempty (n : Z) : le_digits (S (Z.to_nat n)) n <> [].
Proof. simpl. discriminate. Qed.

Lemma digits_value_rev (ds : list Z) :
  digits_value (rev ds) = fold_right (fun d a => 10 * a + d) 0 ds.
Proof. unfold digits_value. rewrite <- fold_left_rev_right, rev_involutive. reflexivity. Qed.

Lemma digit_value_char (d : Z) : is_digit d -> digit_value 10 (digit_char d) = Some d.
Proof.
  unfold is_digit, digit_value, digit_char. intros Hd.
  rewrite Z2N.id by lia.
  destruct (Z.leb_spec 48 (48 + d)); [|lia].
  destruct (Z.leb_spec (48 + d) 57); [|lia]. simpl.
  replace (48 + d - 48) with d by lia.
  destruct (Z.ltb_spec d 10); [reflexivity|lia].
Qed.

Lemma digit_char_cases (d : Z) :
  is_digit d -> In (digit_char d) [48; 49; 50; 51; 52; 53; 54; 55; 56; 57]%N.
Proof.
  unfold is_digit. intros Hd.
  assert (d = 0 \/ d = 1 \/ d = 2 \/ d = 3 \/ d = 4 \/ d = 5 \/ d = 6 \/
          d = 7 \/ d = 8 \/ d = 9) as Hc by lia.
  repeat (destruct Hc as [->|Hc]; [simpl; tauto|]). subst d. simpl. tauto.
Qed.

(** A property of the ten digit characters holds of every digit. *)
Lemma digit_char_forall (P : N -> bool) (d : Z) :
  forallb P [48; 49; 50; 51; 52; 53; 54; 55; 56; 57]%N = true ->
  is_digit d -> P (digit_char d) = true.
Proof.
  intros HP Hd. rewrite forallb_forall in HP. apply HP.
  apply digit_char_cases. exact Hd.
Qed.

Lemma parse_digits_stop (rest : jsstring) (v : Z) :
  ends_numeral rest -> parse_digits 10 rest (Some v) = Some v.
Proof.
  destruct rest as [|c rest]; simpl; [reflexivity|].
  intros (Hc & _). rewrite Hc. reflexivity.
Qed.

(** Reading a run of digits accumulates their value, and stops at the text
    that ends the numeral. *)
Lemma parse_digits_run_rest (ds : list Z) (rest : jsstring) (acc : option Z) :
  Forall is_digit ds -> ds <> [] -> ends_numeral rest ->
  parse_digits 10 (map digit_char ds ++ rest) acc =
    Some (fold_left (fun a d => 10 * a + d) ds (default 0 acc)).
Proof.
  revert acc. induction ds as [|d ds IH]; intros acc Hds Hne Hrest; [contradiction|].
  inversion Hds as [|? ? Hd Hds']; subst. simpl.
  rewrite (digit_value_char d Hd).
  destruct ds as [|d' ds'].
  - simpl. apply parse_digits_stop. exact Hrest.
  - rewrite IH; [reflexivity | exact Hds' | discriminate | exact Hrest].
Qed.

Lemma parseMagnitude_digits_rest (ds : list Z) (rest : jsstring) :
  Forall is_digit ds -> ds <> [] -> ends_numeral rest ->
  parseMagnitude (map digit_char ds ++ rest) =
    parse_digits 10 (map digit_char ds ++ rest) None.
Proof.
  intros Hds Hne Hrest. unfold parseMagnitude.
  destruct ds as [|d [|x ds]]; [contradiction| |].
  - destruct rest as [|c rest]; [reflexivity|]. cbn [map app].
    destruct Hrest as (_ & H1 & H2).
    rewrite (proj2 (N.eqb_neq c 120) H1), (proj2 (N.eqb_neq c 88) H2).
    rewrite andb_false_r. reflexivity.
  - inversion Hds as [|? ? _ Hds']; subst. inversion Hds' as [|? ? Hx _]; subst.
    cbn [map app].
    pose proof (digit_char_forall (fun c => negb ((c =? 120)%N || (c =? 88)%N))
                  x eq_refl Hx) as Hnx.
    apply negb_true_iff in Hnx. rewrite Hnx, andb_false_r. reflexivity.
Qed.

Lemma decimal_nat_digits_value (n : Z) :
  0 <= n ->
  exists ds, decimal_nat n = map digit_char ds /\ Forall is_digit ds /\ ds <> [] /\
             fold_left (fun a d => 10 * a + d) ds 0 = n.
Proof.
  intros Hn. exists (rev (le_digits (S (Z.to_nat n)) n)).
  split; [reflexivity|]. split; [apply Forall_rev, le_digits_digits|]. split.
  - intros H. apply (f_equal (@rev Z)) in H. rewrite rev_involutive in H.
    exact (le_digits_nonempty n H).
  - change (fold_left _ ?l 0) with (digits_value l).
    rewrite digits_value_rev, le_digits_value; [reflexivity | exact Hn | lia].
Qed.

(** [parseInt] reads a decimal numeral, followed by any text that ends it,
    as the binary64 number nearest to the integer written. *)
Lemma parseInt_decimal_prefix (z : Z) (rest : jsstring) :
  ends_numeral rest -> parseInt (decimal z ++ rest) = round64 z.
Proof.
  intros Hrest. unfold decimal. destruct (Z.ltb_spec z 0) as [Hneg|Hpos].
  - destruct (decimal_nat_digits_value (- z) ltac:(lia)) as (ds & Heq & Hds & Hne & Hval).
    unfold parseInt. cbn [app dropSpaces].
    change (isTrimSpace 45) with false. cbn iota.
    change (45 =? 45)%N with true. cbn iota.
    rewrite Heq, (parseMagnitude_digits_rest _ _ Hds Hne Hrest).
    rewrite (parse_digits_run_rest _ _ _ Hds Hne Hrest). simpl default.
    rewrite Hval. destruct (Z.eqb_spec (- z) 0); [lia|].
    rewrite Z.opp_involutive. reflexivity.
  - destruct (decimal_nat_digits_value z Hpos) as (ds & Heq & Hds & Hne & Hval).
    rewrite Heq. unfold parseInt.
    destruct ds as [|d ds]; [contradiction|].
    assert (Hd : is_digit d) by (inversion Hds; assumption).
    cbn [map app dropSpaces].
    rewrite (proj1 (negb_true_iff _)
               (digit_char_forall (fun c => negb (isTrimSpace c)) d eq_refl Hd)).
    rewrite (proj1 (negb_true_iff _)
               (digit_char_forall (fun c => negb (c =? 45)%N) d eq_refl Hd)).
    rewrite (proj1 (negb_true_iff _)
               (digit_char_forall (fun c => negb (c =? 43)%N) d eq_refl Hd)).
    change (digit_char d :: map digit_char ds ++ rest)
      with (map digit_char (d :: ds) ++ rest).
    rewrite (parseMagnitude_digits_rest _ _ Hds Hne Hrest).
    rewrite (parse_digits_run_rest _ _ _ Hds Hne Hrest). simpl default.
    rewrite Hval. unfold round64. destruct (z =? 0); reflexivity.
Qed.

Lemma parseInt_decimal (z : Z) : parseInt (decimal z) = round64 z.
Proof.
  rewrite <- (app_nil_r (decimal z)). apply parseInt_decimal_prefix. exact I.
Qed.

(** What [parseInt] returns is a binary64 value. *)
Lemma parseInt_is_binary64 (s : jsstring) : is_binary64 (parseInt s).
Proof.
  unfold parseInt. destruct (dropSpaces s) as [|c s']; [exact I|].
  set (sg := if (c =? 45)%N then (true, s')
             else if (c =? 43)%N then (false, s') else (false, c :: s')).
  destruct sg as [negative t].
  destruct (parseMagnitude t) as [m|]; [|exact I].
  destruct (m =? 0); [exact I|]. apply round64_is_binary64.
Qed.

(** A page or limit is a binary64 value, and never NaN. *)
Lemma param_or_is_binary64 (p : option QVal) (dflt : JSNumber) :
  is_binary64 dflt -> dflt <> NaN ->
  is_binary64 (param_or p dflt) /\ param_or p dflt <> NaN.
Proof.
  intros Hd Hn. unfold param_or. destruct p as [v|]; [|split; assumption].
  pose proof (parseInt_is_binary64 (qToString v)) as Hb. simpl parseParam.
  destruct (parseInt (qToString v)); simpl; split; try assumption; discriminate.
Qed.

Lemma page_of_is_binary64 (q : Query) : is_binary64 (page_of q) /\ page_of q <> NaN.
Proof. apply param_or_is_binary64; [reflexivity | discriminate]. Qed.

Lemma limit_of_is_binary64 (q : Query) : is_binary64 (limit_of q) /\ limit_of q <> NaN.
Proof. apply param_or_is_binary64; [reflexivity | discriminate]. Qed.

Lemma param_or_decimal_prefix (z : Z) (rest : jsstring) (dflt : JSNumber) :
  ends_numeral rest -> param_or (Some (QStr (decimal z ++ rest))) dflt = round64 z.
Proof.
  intros Hrest. unfold param_or, parseParam. cbn [qToString].
  rewrite (parseInt_decimal_prefix z rest Hrest).
  pose proof (round64_not_NaN z). destruct (round64 z); [contradiction| | |]; reflexivity.
Qed.

Lemma param_or_decimal (z : Z) (dflt : JSNumber) :
  param_or (Some (QStr (decimal z))) dflt = round64 z.
Proof.
  rewrite <- (app_nil_r (decimal z)). apply param_or_decimal_prefix. exact I.
Qed.

Lemma param_or_nan (v : QVal) (dflt : JSNumber) :
  parseInt (qToString v) = NaN -> param_or (Some v) dflt = dflt.
Proof. intros H. unfold param_or, parseParam. rewrite H. reflexivity. Qed.

Lemma param_or_parsed (v : QVal) (dflt : JSNumber) :
  parseInt (qToString v) <> NaN -> param_or (Some v) dflt = parseInt (qToString v).
Proof.
  intros H. unfold param_or, parseParam.
  destruct (parseInt (qToString v)); [contradiction| | |]; reflexivity.
Qed.

End QueryParameters.

Section Slices.

Import Tasks.

Context {A : Type}.

Lemma sliceIndex_bounds (len : Z) (n : JSNumber) :
  0 <= len -> 0 <= sliceIndex len n <= len.
Proof.
  intros Hl. destruct n as [|[]|s|z]; simpl; try lia.
  destruct (Z.ltb_spec z 0); lia.
Qed.

Lemma sliceIndex_int (len : Z) (n : JSNumber) (z : Z) :
  int_value n = Some z -> 0 <= z -> 0 <= len -> sliceIndex len n = Z.min z len.
Proof.
  intros Hn Hz Hl. destruct n as [| |s|z']; simpl in *; try discriminate;
    injection Hn as Hn; subst; [lia|].
  destruct (Z.ltb_spec z 0); lia.
Qed.

Lemma sliceIndex_beyond (len : Z) (n : JSNumber) :
  beyond_2_53 n -> 0 <= len < 2 ^ 53 -> sliceIndex len n = len.
Proof.
  intros [-> | (z & -> & Hz)] Hl; simpl; [reflexivity|].
  destruct (Z.ltb_spec z 0); lia.
Qed.

(** Between two indices that are not negative, in order. *)
Lemma js_slice_nonneg (l : list A) (a b : JSNumber) (s e : Z) :
  int_value a = Some s -> int_value b = Some e -> 0 <= s -> s <= e ->
  js_slice l a b = take (Z.to_nat (e - s)) (drop (Z.to_nat s) l).
Proof.
  intros Ha Hb Hs He. unfold js_slice.
  rewrite (sliceIndex_int _ a s Ha Hs) by lia.
  rewrite (sliceIndex_int _ b e Hb) by lia.
  destruct (Z.le_gt_cases (Z.of_nat (length l)) s) as [Hout|Hin].
  - rewrite (Z.min_r s) by lia.
    rewrite (drop_ge l (Z.to_nat s)) by lia.
    rewrite (drop_ge l (Z.to_nat (Z.of_nat (length l)))) by lia.
    rewrite !take_nil. reflexivity.
  - rewrite (Z.min_l s) by lia.
    destruct (Z.le_gt_cases e (Z.of_nat (length l))) as [He'|He'].
    + rewrite (Z.min_l e) by lia. reflexivity.
    + rewrite (Z.min_r e) by lia.
      rewrite !take_ge; [reflexivity| |]; rewrite length_drop; lia.
Qed.

(** From an index that is not negative to an end beyond every index. *)
Lemma js_slice_to_beyond (l : list A) (a b : JSNumber) (s : Z) :
  int_value a = Some s -> 0 <= s -> beyond_2_53 b ->
  Z.of_nat (length l) < 2 ^ 53 ->
  js_slice l a b = drop (Z.to_nat s) l.
Proof.
  intros Ha Hs Hb Hl. unfold js_slice.
  rewrite (sliceIndex_int _ a s Ha Hs) by lia.
  rewrite (sliceIndex_beyond _ b Hb) by lia.
  destruct (Z.le_gt_cases (Z.of_nat (length l)) s) as [Hout|Hin].
  - rewrite (Z.min_r s) by lia.
    rewrite (drop_ge l (Z.to_nat s)) by lia.
    rewrite (drop_ge l (Z.to_nat (Z.of_nat (length l)))) by lia.
    apply take_nil.
  - rewrite (Z.min_l s) by lia. apply take_ge. rewrite length_drop. lia.
Qed.

(** A start index at or past the end selects nothing. *)
Lemma js_slice_start_at_end (l : list A) (a b : JSNumber) :
  sliceIndex (Z.of_nat (length l)) a = Z.of_nat (length l) -> js_slice l a b = [].
Proof.
  intros Ha. unfold js_slice. rewrite Ha.
  rewrite drop_ge by lia. apply take_nil.
Qed.

Lemma js_slice_out_of_range (l : list A) (a b : JSNumber) (s : Z) :
  int_value a = Some s -> Z.of_nat (length l) <= s -> js_slice l a b = [].
Proof.
  intros Ha Hs. apply js_slice_start_at_end.
  rewrite (sliceIndex_int _ a s Ha) by lia. lia.
Qed.

(** An end index of 0 selects nothing. *)
Lemma js_slice_end_zero (l : list A) (a b : JSNumber) :
  sliceIndex (Z.of_nat (length l)) b = 0 -> js_slice l a b = [].
Proof.
  intros Hb. unfold js_slice. rewrite Hb.
  pose proof (sliceIndex_bounds (Z.of_nat (length l)) a ltac:(lia)).
  replace (Z.to_nat (0 - _)) with O by lia. apply take_0.
Qed.

Lemma js_slice_In (l : list A) (a b : JSNumber) (x : A) :
  In x (js_slice l a b) -> In x l.
Proof.
  unfold js_slice. intros H.
  apply list_elem_of_In in H. apply list_elem_of_In.
  apply subseteq_take in H. apply subseteq_drop in H. exact H.
Qed.

Lemma js_slice_length (l : list A) (a b : JSNumber) :
  (length (js_slice l a b) <= length l)%nat.
Proof. unfold js_slice. rewrite length_take, length_drop. lia. Qed.

End Slices.

Section Sorting.

Import Tasks.

Lemma insert_pure_In {A} (cmp : A -> A -> Z) (x y : A) (l : list A) :
  In y (insert_pure cmp x l) <-> y = x \/ In y l.
Proof.
  induction l as [|z l IH]; simpl.
  - intuition congruence.
  - destruct (cmp x z <=? 0); simpl; [intuition congruence|].
    rewrite IH. intuition congruence.
Qed.

Lemma sort_pure_In {A} (cmp : A -> A -> Z) (l : list A) (y : A) :
  In y (sort_pure cmp l) <-> In y l.
Proof.
  unfold sort_pure. induction l as [|x l IH]; simpl; [tauto|].
  rewrite insert_pure_In, IH. intuition congruence.
Qed.

(** With a comparator that does not raise on the elements at hand, the
    sort is the insertion sort with the values it returns. *)
Lemma insert_sorted_pure {A} (cmp : A -> A -> option Z) (c : A -> A -> Z)
    (x : A) (l : list A) :
  (forall y, In y l -> cmp x y = Some (c x y)) ->
  insert_sorted cmp x l = Some (insert_pure c x l).
Proof.
  induction l as [|y l IH]; intros H; simpl; [reflexivity|].
  rewrite (H y (or_introl eq_refl)).
  destruct (c x y <=? 0); [reflexivity|].
  rewrite IH by (intros z Hz; apply H; right; exact Hz). reflexivity.
Qed.

Lemma js_sort_pure {A} (cmp : A -> A -> option Z) (c : A -> A -> Z) (l : list A) :
  (forall x y, In x l -> In y l -> cmp x y = Some (c x y)) ->
  js_sort cmp l = Some (sort_pure c l).
Proof.
  induction l as [|x l IH]; intros H; simpl; [reflexivity|].
  rewrite IH by (intros a b Ha Hb; apply H; right; assumption).
  apply insert_sorted_pure. intros y Hy. apply sort_pure_In in Hy.
  apply H; [left; reflexivity | right; exact Hy].
Qed.

Lemma insert_sorted_perm {A} (cmp : A -> A -> option Z) (x : A) (l r : list A) :
  insert_sorted cmp x l = Some r -> Permutation r (x :: l).
Proof.
  revert r. induction l as [|y l IH]; simpl; intros r H.
  - injection H as <-. reflexivity.
  - destruct (cmp x y) as [c|]; [|discriminate].
    destruct (c <=? 0); [injection H as <-; reflexivity|].
    destruct (insert_sorted cmp x l) as [r'|]; [|discriminate].
    injection H as <-. rewrite (IH r' eq_refl). apply perm_swap.
Qed.

(** When it returns, the sort returns the elements it was given. *)
Lemma js_sort_perm {A} (cmp : A -> A -> option Z) (l r : list A) :
  js_sort cmp l = Some r -> Permutation r l.
Proof.
  revert r. induction l as [|x l IH]; simpl; intros r H.
  - injection H as <-. reflexivity.
  - destruct (js_sort cmp l) as [s|]; [|discriminate].
    rewrite (insert_sorted_perm _ _ _ _ H), (IH s eq_refl). reflexivity.
Qed.

Lemma js_sort_In {A} (cmp : A -> A -> option Z) (l r : list A) (y : A) :
  js_sort cmp l = Some r -> In y r -> In y l.
Proof.
  intros H Hy. apply js_sort_perm in H.
  eapply Permutation_in; eassumption.
Qed.

Lemma js_sort_length {A} (cmp : A -> A -> option Z) (l r : list A) :
  js_sort cmp l = Some r -> length r = length l.
Proof. intros H. apply js_sort_perm in H. apply Permutation_length. exact H. Qed.

(** A comparator that never orders an element after a later one leaves the
    list as it is. *)
Lemma js_sort_noop {A} (cmp : A -> A -> option Z) (l : list A) :
  (forall x y, In x l -> In y l -> exists c, cmp x y = Some c /\ c <= 0) ->
  js_sort cmp l = Some l.
Proof.
  induction l as [|x l IH]; intros H; simpl; [reflexivity|].
  rewrite IH by (intros; apply H; right; assumption).
  destruct l as [|y l]; [reflexivity|]. simpl.
  destruct (H x y (or_introl eq_refl) (or_intror (or_introl eq_refl)))
    as (c & -> & Hc).
  destruct (Z.leb_spec c 0); [reflexivity | lia].
Qed.

Lemma string_lt_irrefl (s : jsstring) : string_lt s s = false.
Proof.
  induction s as [|c s IH]; simpl; [reflexivity|].
  rewrite N.ltb_irrefl, N.eqb_refl, IH. reflexivity.
Qed.

(** A field that an object does not own reads as [undefined] or as the
    member inherited under that name; neither raises, and neither is below
    itself. *)
Lemma js_lt_absent (rt : Runtime) (a b : JSObject) (k : jsstring) :
  a !! k = None -> b !! k = None ->
  js_lt rt (js_get a k) (js_get b k) = Some false.
Proof.
  intros Ha Hb. unfold js_get. rewrite Ha, Hb.
  destruct (bool_decide (k ∈ objectPrototypeNames)).
  - unfold js_lt. simpl. rewrite string_lt_irrefl. reflexivity.
  - reflexivity.
Qed.

Lemma compareTasks_absent (rt : Runtime) (k : jsstring) (o : Z) (a b : JSObject) :
  a !! k = None -> b !! k = None -> compareTasks rt k o a b = Some 0.
Proof.
  intros Ha Hb. unfold compareTasks.
  rewrite (js_lt_absent rt a b k Ha Hb), (js_lt_absent rt b a k Hb Ha). reflexivity.
Qed.

End Sorting.

Section Filters.

Import Tasks.

Lemma filterM_In {A} (p : A -> option bool) (l r : list A) (x : A) :
  filterM p l = Some r -> In x r -> In x l.
Proof.
  revert r. induction l as [|y l IH]; simpl; intros r H Hx.
  - injection H as <-. exact Hx.
  - destruct (p y) as [b|]; [|discriminate].
    destruct (filterM p l) as [r'|]; [|discriminate].
    injection H as <-. destruct b; simpl in Hx.
    + destruct Hx as [->|Hx]; [left; reflexivity | right; apply (IH r' eq_refl Hx)].
    + right. apply (IH r' eq_refl Hx).
Qed.

Lemma filterM_None {A} (p : A -> option bool) (l : list A) (x : A) :
  In x l -> p x = None -> filterM p l = None.
Proof.
  intros Hin Hx. induction l as [|y l IH]; simpl; [contradiction|].
  destruct Hin as [->|Hin].
  - rewrite Hx. reflexivity.
  - destruct (p y); [|reflexivity]. rewrite (IH Hin). reflexivity.
Qed.

Lemma filterM_total {A} (p : A -> option bool) (f : A -> bool) (l : list A) :
  Forall (fun x => p x = Some (f x)) l -> filterM p l = Some (List.filter f l).
Proof.
  induction 1 as [|y l Hy _ IH]; simpl; [reflexivity|].
  rewrite Hy, IH. reflexivity.
Qed.

Lemma filterSearch_In (rt : Runtime) (q : Query) (l r : list JSObject) (x : JSObject) :
  filterSearch rt q l = Some r -> In x r -> In x l.
Proof.
  unfold filterSearch. intros H Hx.
  destruct (q_search q) as [v|]; [|injection H as <-; exact Hx].
  destruct (q_truthy v); [|injection H as <-; exact Hx].
  destruct v; try discriminate. eapply filterM_In; eassumption.
Qed.

Lemma filterPriority_In (q : Query) (l : list JSObject) (x : JSObject) :
  In x (filterPriority q l) -> In x l.
Proof.
  unfold filterPriority. intros Hx.
  destruct (q_priority q) as [v|]; [|exact Hx].
  destruct (q_truthy v); [|exact Hx].
  apply filter_In in Hx. tauto.
Qed.

Lemma filterCompleted_In (q : Query) (l : list JSObject) (x : JSObject) :
  In x (filterCompleted q l) -> In x l.
Proof.
  unfold filterCompleted. intros Hx.
  destruct (q_completed q) as [v|]; [|exact Hx].
  apply filter_In in Hx. tauto.
Qed.

(** The filter stages only remove tasks. *)
Lemma filterTasks_In (rt : Runtime) (q : Query) (tasks filtered : list JSObject)
    (x : JSObject) :
  filterTasks rt q tasks = Some filtered -> In x filtered ->
  In x (filterCompleted q tasks).
Proof.
  unfold filterTasks. intros H Hx.
  apply filterPriority_In with (q := q).
  eapply filterSearch_In; eassumption.
Qed.

(** The search stage raises nothing when it has what it needs. *)
Lemma filterTasks_safe (rt : Runtime) (q : Query) (tasks : Store) :
  search_safe q tasks -> exists filtered, filterTasks rt q tasks = Some filtered.
Proof.
  unfold search_safe, filterTasks, filterSearch. intros Hs.
  destruct (q_search q) as [v|]; [|eexists; reflexivity].
  destruct Hs as [-> | ((s & ->) & Hall)]; [eexists; reflexivity|].
  destruct (q_truthy (QStr s)); [|eexists; reflexivity].
  set (l := filterPriority q (filterCompleted q tasks)).
  exists (List.filter
            (fun t => js_includes (toLowerCase rt (sort_key K_title t)) (toLowerCase rt s)
                      || js_includes (toLowerCase rt (sort_key K_description t))
                                     (toLowerCase rt s)) l).
  apply filterM_total. apply Forall_forall. intros t Ht.
  apply list_elem_of_In in Ht. apply filterPriority_In, filterCompleted_In in Ht.
  rewrite Forall_forall in Hall.
  destruct (Hall t (proj2 (list_elem_of_In _ _) Ht)) as ((a & Ha) & (b & Hb)).
  unfold search_matches, lower_includes, sort_key. rewrite Ha, Hb.
  destruct (js_includes _ _); reflexivity.
Qed.

End Filters.

Section ListEndpoint.

Import Tasks.

(** *** Sorting by a field that no task has *)

(** C7, as stated, fails: the pipeline does raise on a request that sorts
    by a field no task has, when a stage other than the sort raises.  With
    a repeated search parameter the search term is an array, which has no
    [toLowerCase], and the request is answered with status 500. *)
Lemma sort_unknown_field_search_array_raises :
  (forall t, In t five_tasks ->
     t !! sortBy_of query_sort_unknown_search_array = None) /\
  getTasks ascii_runtime query_sort_unknown_search_array five_tasks = R_internal.
Proof.
  split; [|reflexivity].
  intros t Ht. simpl in Ht.
  repeat (destruct Ht as [<-|Ht]; [vm_compute; reflexivity|]). contradiction.
Qed.

(** C7 (amended): when no task owns the field named by sortBy, the sort
    stage raises nothing and returns the list in its prior order, so that
    the endpoint answers with the page and the metadata computed from the
    filtered list as it stood.  The pipeline as a whole raises nothing
    when the search stage has what it reads (no search parameter or an
    empty one, or a string, with a string under title and description in
    every task); when the search stage raises, the answer is status 500. *)
Theorem sort_unknown_field_noop (rt : Runtime) (q : Query) (tasks : Store) :
  (forall t, In t tasks -> t !! sortBy_of q = None) ->
  sortTasks rt q tasks = Some tasks /\
  (forall filtered, filterTasks rt q tasks = Some filtered ->
     sortTasks rt q filtered = Some filtered /\
     getTasks rt q tasks =
       RList (paginatedTasks q filtered) (pagination q filtered)) /\
  (search_safe q tasks ->
     exists filtered,
       filterTasks rt q tasks = Some filtered /\
       getTasks rt q tasks =
         RList (paginatedTasks q filtered) (pagination q filtered)) /\
  (filterTasks rt q tasks = None -> getTasks rt q tasks = R_internal).
Proof.
  intros Habs.
  assert (Hnoop : forall l, (forall t, In t l -> In t tasks) ->
                            sortTasks rt q l = Some l).
  { intros l Hl. unfold sortTasks. apply js_sort_noop. intros x y Hx Hy.
    exists 0. split; [|lia].
    apply compareTasks_absent; apply Habs, Hl; assumption. }
  assert (Hlist : forall filtered, filterTasks rt q tasks = Some filtered ->
            sortTasks rt q filtered = Some filtered /\
            getTasks rt q tasks =
              RList (paginatedTasks q filtered) (pagination q filtered)).
  { intros filtered Hf.
    assert (Hs : sortTasks rt q filtered = Some filtered).
    { apply Hnoop. intros t Ht. eapply filterCompleted_In.
      eapply filterTasks_In; eassumption. }
    split; [exact Hs|]. unfold getTasks. rewrite Hf, Hs. reflexivity. }
  split; [apply Hnoop; tauto|]. split; [exact Hlist|]. split.
  - intros Hsafe. destruct (filterTasks_safe rt q tasks Hsafe) as (filtered & Hf).
    exists filtered. split; [exact Hf | apply (Hlist filtered Hf)].
  - intros Hf. unfold getTasks. rewrite Hf. reflexivity.
Qed.

Lemma sort_unknown_field_noop_witness :
  sortTasks ascii_runtime query_sort_unknown five_tasks = Some five_tasks /\
  getTasks ascii_runtime query_sort_unknown five_tasks =
    RList (paginatedTasks query_sort_unknown five_tasks)
          (pagination query_sort_unknown five_tasks).
Proof.
  destruct (sort_unknown_field_noop ascii_runtime query_sort_unknown five_tasks)
    as (Hs & Hg & _).
  - intros t Ht. simpl in Ht.
    repeat (destruct Ht as [<-|Ht]; [vm_compute; reflexivity|]). contradiction.
  - split; [exact Hs|]. apply (Hg five_tasks). reflexivity.
Defined.

(** *** The completed filter *)

(** C9: when the completed parameter is present, the tasks that pass the
    filter are those whose completed field is [true] if the parameter is
    the string "true", and those whose completed field is [false] for
    every other value; the tasks of the response are among them. *)
Theorem completed_filter_only_true (rt : Runtime) (q : Query) (tasks : Store)
    (v : QVal) (b : bool) :
  q_completed q = Some v ->
  (b = true <-> v = QStr S_true) ->
  (forall t, In t (filterCompleted q tasks) <->
             In t tasks /\ js_get t K_completed = VBool b) /\
  (forall ts p, getTasks rt q tasks = RList ts p ->
     forall t, In t ts -> In t tasks /\ js_get t K_completed = VBool b).
Proof.
  intros Hq Hb.
  assert (Hstage : forall t, In t (filterCompleted q tasks) <->
                             In t tasks /\ js_get t K_completed = VBool b).
  { intros t. unfold filterCompleted. rewrite Hq.
    set (c := match v with QStr s => bool_decide (s = S_true) | _ => false end).
    assert (Hc : c = b).
    { subst c. destruct b.
      - rewrite (proj1 Hb eq_refl). reflexivity.
      - destruct v as [s| |]; try reflexivity.
        apply bool_decide_eq_false. intros ->.
        destruct Hb as [_ Hb]. discriminate (Hb eq_refl). }
    rewrite Hc, filter_In. unfold completed_is.
    destruct (js_get t K_completed) as [| |b'| | | | |]; try (intuition discriminate).
    destruct b', b; simpl; intuition congruence. }
  split; [exact Hstage|].
  intros ts p Hg t Ht. apply Hstage.
  unfold getTasks in Hg.
  destruct (filterTasks rt q tasks) as [filtered|] eqn:Hf; [|discriminate].
  destruct (sortTasks rt q filtered) as [sorted|] eqn:Hs; [|discriminate].
  injection Hg as <- _.
  apply js_slice_In in Ht. apply (js_sort_In _ _ _ _ Hs) in Ht.
  eapply filterTasks_In; eassumption.
Qed.

Lemma completed_filter_only_true_witness :
  (forall t, In t (filterCompleted query_completed_banana five_tasks) <->
             In t five_tasks /\ js_get t K_completed = VBool false) /\
  (forall ts p, getTasks ascii_runtime query_completed_banana five_tasks = RList ts p ->
     forall t, In t ts -> In t five_tasks /\ js_get t K_completed = VBool false).
Proof.
  apply (completed_filter_only_true ascii_runtime query_completed_banana five_tasks
           (QStr (u16 "banana")) false).
  - reflexivity.
  - split; discriminate.
Defined.

End ListEndpoint.

Section Pagination.

Import Tasks.

(** *** The arithmetic of the page *)

Lemma round64_exact_nonzero (z : Z) :
  z <> 0 -> - 2 ^ 53 <= z <= 2 ^ 53 -> round64 z = Finite z.
Proof.
  intros Hz Hb. rewrite round64_exact by exact Hb. unfold of_Z.
  destruct (Z.eqb_spec z 0); [contradiction | reflexivity].
Qed.

Lemma int_value_of_Z (z : Z) : int_value (of_Z z) = Some z.
Proof. unfold of_Z. destruct (Z.eqb_spec z 0); [subst|]; reflexivity. Qed.

Lemma of_Z_inj (a b : Z) : of_Z a = of_Z b -> a = b.
Proof.
  intros H. apply (f_equal int_value) in H. rewrite !int_value_of_Z in H.
  congruence.
Qed.

(** A limit of zero selects nothing, whatever the page. *)
Lemma pageSlice_limit_zero (page : JSNumber) (s : bool) (tasks : list JSObject) :
  pageSlice page (Zero s) tasks = [].
Proof.
  unfold pageSlice. apply js_slice_end_zero.
  destruct (js_sub page (Finite 1)) as [|[]|[]|z]; destruct s; reflexivity.
Qed.

(** Page zero selects nothing, whatever the limit. *)
Lemma pageSlice_page_zero (s : bool) (limit : JSNumber) (tasks : list JSObject) :
  is_binary64 limit -> pageSlice (Zero s) limit tasks = [].
Proof.
  intros Hb. unfold pageSlice. apply js_slice_end_zero.
  change (js_sub (Zero s) (Finite 1)) with (Finite (-1)).
  destruct limit as [|[]|[]|L]; try reflexivity.
  pose proof (is_binary64_nonzero L Hb) as HL. simpl in Hb.
  cbn [js_mul]. replace (-1 * L) with (- L) by lia.
  rewrite (round64_opp L HL), Hb. cbn [js_neg js_add].
  replace (- L + L) with 0 by lia. reflexivity.
Qed.

(** An infinite limit selects nothing, whatever the page. *)
Lemma pageSlice_limit_infinite (page : JSNumber) (tasks : list JSObject) :
  page <> NaN -> pageSlice page (Infinity false) tasks = [].
Proof.
  intros Hp. unfold pageSlice.
  assert (Hsub : js_sub page (Finite 1) <> NaN).
  { destruct page as [| | |p]; try contradiction; try discriminate.
    apply round64_not_NaN. }
  destruct (js_sub page (Finite 1)) as [|[]|[]|z]; try contradiction.
  - apply js_slice_end_zero. reflexivity.
  - apply js_slice_start_at_end. reflexivity.
  - apply js_slice_end_zero. reflexivity.
  - apply js_slice_end_zero. reflexivity.
  - cbn [js_mul]. destruct (z <? 0).
    + apply js_slice_end_zero. reflexivity.
    + apply js_slice_start_at_end. reflexivity.
Qed.

(** Page p of limit L, where the arithmetic is exact: the L tasks after
    the first (p-1)*L. *)
Lemma pageSlice_take_drop (tasks : list JSObject) (p L : Z) :
  1 <= p -> 0 < L -> p = 1 \/ p * L <= 2 ^ 53 ->
  pageSlice (Finite p) (Finite L) tasks =
    take (Z.to_nat L) (drop (Z.to_nat ((p - 1) * L)) tasks).
Proof.
  intros Hp HL Hex. unfold pageSlice, js_sub. cbn [js_neg js_add].
  destruct (Z.eq_dec p 1) as [->|Hp1].
  - change (round64 (1 + - (1))) with (Zero false). cbn [js_mul].
    destruct (Z.ltb_spec L 0); [lia|]. cbn [xorb js_add].
    rewrite (js_slice_nonneg tasks _ _ 0 L) by (try reflexivity; lia).
    f_equal. lia.
  - destruct Hex as [->|Hex]; [contradiction|].
    rewrite (round64_exact_nonzero (p + - (1))) by nia. cbn [js_mul].
    rewrite (round64_exact_nonzero ((p + - (1)) * L)) by nia. cbn [js_add].
    rewrite (round64_exact_nonzero ((p + - (1)) * L + L)) by nia.
    rewrite (js_slice_nonneg tasks _ _ ((p - 1) * L) (p * L))
      by (try (simpl; f_equal; lia); nia).
    f_equal. lia.
Qed.

Lemma pages_concat {A} (l : list A) (m n : nat) :
  concat (map (fun p => take m (drop ((p - 1) * m) l)) (seq 1 n)) = take (n * m) l.
Proof.
  induction n as [|n IH].
  - simpl. rewrite take_0. reflexivity.
  - rewrite seq_S, map_app, concat_app, IH. simpl.
    rewrite app_nil_r. replace (n - 0)%nat with n by lia.
    rewrite take_take_drop. f_equal. lia.
Qed.

(** *** Page and limit *)

(** C5, as stated, fails for integers beyond 2^53: the page of
    [?page=9007199254740993] is 9007199254740992, and the limit written as
    a one followed by 400 zeros is Infinity, with which every page is
    empty. *)
Lemma page_beyond_2_53_is_rounded :
  q_page query_page_2_53_plus_1 = Some (QStr (u16 "9007199254740993")) /\
  page_of query_page_2_53_plus_1 = Finite 9007199254740992 /\
  q_limit query_limit_400_digits = Some (QStr (49%N :: repeat 48%N 400)) /\
  limit_of query_limit_400_digits = Infinity false /\
  paginatedTasks query_limit_400_digits five_tasks = [].
Proof. vm_compute. repeat split; reflexivity. Qed.

(** C5 (amended): page is the binary64 number nearest to the integer
    written in the parameter, which is that integer, zero and negative
    values included, whenever its magnitude is at most 2^53, and 1 when the
    parameter is absent or does not parse; limit likewise, with default 10.
    The page is the slice from (page-1)*limit to that plus limit: for
    page >= 1 and limit >= 0 with page*limit within 2^53, the limit tasks
    that follow the first (page-1)*limit; and a start at or past the end of
    the list gives the empty page. *)
Theorem pagination_parameters (q : Query) (tasks : list JSObject) :
  (q_page q = None -> page_of q = Finite 1) /\
  (forall v, q_page q = Some v -> parseInt (qToString v) = NaN ->
     page_of q = Finite 1) /\
  (forall v, q_page q = Some v -> parseInt (qToString v) <> NaN ->
     page_of q = parseInt (qToString v)) /\
  (forall z, q_page q = Some (QStr (decimal z)) ->
     page_of q = round64 z /\
     (- 2 ^ 53 <= z <= 2 ^ 53 -> page_of q = of_Z z)) /\
  (q_limit q = None -> limit_of q = Finite 10) /\
  (forall v, q_limit q = Some v -> parseInt (qToString v) = NaN ->
     limit_of q = Finite 10) /\
  (forall v, q_limit q = Some v -> parseInt (qToString v) <> NaN ->
     limit_of q = parseInt (qToString v)) /\
  (forall z, q_limit q = Some (QStr (decimal z)) ->
     limit_of q = round64 z /\
     (- 2 ^ 53 <= z <= 2 ^ 53 -> limit_of q = of_Z z)) /\
  (forall p L, int_value (page_of q) = Some p -> int_value (limit_of q) = Some L ->
     1 <= p -> 0 <= L -> p * L <= 2 ^ 53 ->
     paginatedTasks q tasks =
       take (Z.to_nat L) (drop (Z.to_nat ((p - 1) * L)) tasks)) /\
  (forall start,
     int_value (js_mul (js_sub (page_of q) (Finite 1)) (limit_of q)) = Some start ->
     Z.of_nat (length tasks) <= start ->
     paginatedTasks q tasks = []).
Proof.
  unfold page_of, limit_of.
  split; [intros ->; reflexivity|].
  split; [intros v -> Hv; apply param_or_nan; exact Hv|].
  split; [intros v -> Hv; apply param_or_parsed; exact Hv|].
  split; [intros z ->; rewrite param_or_decimal; split;
          [reflexivity | apply round64_exact]|].
  split; [intros ->; reflexivity|].
  split; [intros v -> Hv; apply param_or_nan; exact Hv|].
  split; [intros v -> Hv; apply param_or_parsed; exact Hv|].
  split; [intros z ->; rewrite param_or_decimal; split;
          [reflexivity | apply round64_exact]|].
  fold (page_of q). fold (limit_of q). split.
  - intros p L Hp HL Hp1 HL0 Hex. unfold paginatedTasks.
    destruct (page_of q) as [| |s|p']; simpl in Hp; try discriminate;
      injection Hp as Hp; subst; [lia|].
    pose proof (proj1 (limit_of_is_binary64 q)) as Hb.
    destruct (limit_of q) as [| |s|L']; simpl in HL; try discriminate;
      injection HL as HL; subst.
    + rewrite pageSlice_limit_zero. rewrite take_0. reflexivity.
    + pose proof (is_binary64_nonzero L Hb).
      apply pageSlice_take_drop; lia.
  - intros start Hs Hout. unfold paginatedTasks, pageSlice.
    apply (js_slice_out_of_range _ _ _ start Hs Hout).
Qed.

Lemma pagination_parameters_witness :
  page_of query_page_minus5 = of_Z (-5) /\ limit_of query_page_minus5 = Finite 10 /\
  page_of query_page_abc = Finite 1 /\ limit_of query_page_abc = Finite 10 /\
  paginatedTasks query_page1_limit2 five_tasks =
    take (Z.to_nat 2) (drop (Z.to_nat ((1 - 1) * 2)) five_tasks) /\
  paginatedTasks query_page_999999 five_tasks = [].
Proof.
  destruct (pagination_parameters query_page_minus5 five_tasks)
    as (_ & _ & _ & Hp & Hl & _).
  destruct (pagination_parameters query_page_abc five_tasks)
    as (_ & Hp' & _ & _ & _ & Hl' & _).
  destruct (pagination_parameters query_page1_limit2 five_tasks)
    as (_ & _ & _ & _ & _ & _ & _ & _ & Ht & _).
  destruct (pagination_parameters query_page_999999 five_tasks)
    as (_ & _ & _ & _ & _ & _ & _ & _ & _ & He).
  split; [apply (Hp (-5)); [reflexivity | lia]|].
  split; [apply Hl; reflexivity|].
  split; [apply (Hp' (QStr (u16 "abc"))); reflexivity|].
  split; [apply (Hl' (QStr (u16 "xyz"))); reflexivity|].
  split; [apply (Ht 1 2); [reflexivity | reflexivity | lia | lia | lia]|].
  apply (He 9999980); [reflexivity | simpl; lia].
Defined.

(** *** The pagination law *)

Lemma ceil_div_positive (total L : Z) :
  0 <= total -> 0 < L ->
  exists k, ceil_div total (Finite L) = of_Z k /\
            0 <= k /\ (k - 1) * L < total <= k * L.
Proof.
  intros HT HL. exists (- (- total / L)). unfold ceil_div, of_Z.
  pose proof (Z.div_mod (- total) L ltac:(lia)).
  pose proof (Z.mod_pos_bound (- total) L HL).
  split; [|nia].
  destruct (Z.eqb_spec (- (- total / L)) 0); [|reflexivity].
  destruct (Z.ltb_spec L 0); [lia | reflexivity].
Qed.

Lemma ceil_div_negative (total L : Z) :
  0 <= total -> L < 0 ->
  exists k, int_value (ceil_div total (Finite L)) = Some k /\ k <= 0 /\
            k * L <= total < (k - 1) * L.
Proof.
  intros HT HL. exists (- (- total / L)). unfold ceil_div.
  pose proof (Z.div_mod (- total) L ltac:(lia)).
  pose proof (Z.mod_neg_bound (- total) L HL).
  split; [|nia].
  destruct (Z.eqb_spec (- (- total / L)) 0) as [E|]; [|reflexivity].
  simpl. f_equal. lia.
Qed.

(** C4, as stated, fails for a positive limit beyond the binary64 range:
    with the limit written as a one followed by 400 zeros, the limit is
    Infinity, page 1 of five tasks is empty, and zero pages are
    reported. *)
Lemma pagination_law_fails_for_huge_limit :
  page_of query_limit_400_digits = Finite 1 /\
  limit_of query_limit_400_digits = Infinity false /\
  paginatedTasks query_limit_400_digits five_tasks = [] /\
  p_totalPages (pagination query_limit_400_digits five_tasks) = Zero false /\
  (forall q, limit_of q = Infinity false -> paginatedTasks q five_tasks = []).
Proof.
  split; [vm_compute; reflexivity|]. split; [vm_compute; reflexivity|].
  split; [vm_compute; reflexivity|]. split; [vm_compute; reflexivity|].
  intros q Hq. unfold paginatedTasks. rewrite Hq.
  apply pageSlice_limit_infinite. apply page_of_is_binary64.
Qed.

(** C4 (amended): for a limit L > 0 that is a finite binary64 number, the
    pages 1 to ceil(N/L) of a list of N tasks, one after the other, are
    the list itself: every record once, in order. *)
Theorem pagination_law (tasks : list JSObject) (L : Z) (k : nat) (qs : nat -> Query) :
  Z.of_nat (length tasks) < 2 ^ 32 ->
  0 < L ->
  ceil_div (Z.of_nat (length tasks)) (Finite L) = of_Z (Z.of_nat k) ->
  (forall p, (1 <= p <= k)%nat ->
     page_of (qs p) = Finite (Z.of_nat p) /\ limit_of (qs p) = Finite L) ->
  concat (map (fun p => paginatedTasks (qs p) tasks) (seq 1 k)) = tasks.
Proof.
  intros HN HL Hk Hqs.
  destruct (ceil_div_positive (Z.of_nat (length tasks)) L ltac:(lia) HL)
    as (k' & Hk' & Hk0 & Hb).
  rewrite Hk in Hk'. apply of_Z_inj in Hk'. subst k'.
  transitivity (concat (map (fun p => take (Z.to_nat L)
                                        (drop ((p - 1) * Z.to_nat L) tasks))
                            (seq 1 k))).
  - f_equal. apply map_ext_in. intros p Hp. apply in_seq in Hp.
    unfold paginatedTasks. destruct (Hqs p ltac:(lia)) as [-> ->].
    rewrite pageSlice_take_drop; [|lia|lia|].
    + f_equal. f_equal. nia.
    + destruct (Nat.eq_dec p 1%nat) as [->|]; [left; reflexivity|].
      right. change (2 ^ 32) with 4294967296 in HN.
      change (2 ^ 53) with 9007199254740992. nia.
  - rewrite pages_concat. apply take_ge. nia.
Qed.

Lemma pagination_law_witness :
  concat (map (fun p => paginatedTasks (query_page_limit2 p) five_tasks) (seq 1 3))
    = five_tasks.
Proof.
  apply (pagination_law five_tasks 2 3 query_page_limit2).
  - reflexivity.
  - lia.
  - reflexivity.
  - intros p Hp. unfold page_of, limit_of.
    cbn [query_page_limit2 query_of q_page q_limit].
    rewrite !param_or_decimal. split.
    + apply round64_exact_nonzero; [lia|]. change (2 ^ 53) with 9007199254740992. lia.
    + reflexivity.
Defined.

(** *** Response metadata *)

(** C3, as stated, fails for limit <= 0: nothing handles that case, and
    with limit 0 the division yields Infinity (NaN for an empty list),
    which is no page count. *)
Lemma totalPages_limit_zero_not_a_number :
  limit_of query_limit_zero = Zero false /\
  p_totalPages (pagination query_limit_zero five_tasks) = Infinity false /\
  p_totalPages (pagination query_limit_zero []) = NaN /\
  int_value (p_totalPages (pagination query_limit_zero five_tasks)) = None.
Proof. vm_compute. repeat split; reflexivity. Qed.

(** C3 (amended): when the filter and sort stages return, the endpoint
    answers with metadata that reports total as the number of tasks left
    by the filters, before pagination, and totalPages as
    Math.ceil(total / limit), computed with no branch on limit: it is
    ceil(total/limit) when limit is a finite number above zero, and 0 when
    limit is Infinity (a limit parameter beyond the binary64 range).  When
    limit is zero, totalPages is Infinity with the sign of that zero, or
    NaN for an empty list; when limit is below zero, it is
    ceil(total/limit), which is not positive, and a zero for -Infinity.
    No case raises. *)
Theorem pagination_metadata (rt : Runtime) (q : Query) (tasks : Store)
    (filtered sorted : list JSObject) :
  filterTasks rt q tasks = Some filtered ->
  sortTasks rt q filtered = Some sorted ->
  let total := Z.of_nat (length filtered) in
  let limit := limit_of q in
  exists page p,
    getTasks rt q tasks = RList page p /\
    p_page p = page_of q /\ p_limit p = limit /\ p_total p = total /\
    (forall L, limit = Finite L -> 0 < L ->
       exists k, p_totalPages p = of_Z k /\
                 (k - 1) * L < total <= k * L) /\
    (limit = Infinity false -> p_totalPages p = Zero false) /\
    (forall s, limit = Zero s ->
       p_totalPages p = if total =? 0 then NaN else Infinity s) /\
    (forall L, limit = Finite L -> L < 0 ->
       exists k, int_value (p_totalPages p) = Some k /\ k <= 0 /\
                 k * L <= total < (k - 1) * L) /\
    (limit = Infinity true -> p_totalPages p = Zero true).
Proof.
  intros Hf Hs total limit.
  exists (paginatedTasks q sorted), (pagination q sorted).
  split; [unfold getTasks; rewrite Hf, Hs; reflexivity|].
  unfold pagination. cbn [p_page p_limit p_total p_totalPages].
  unfold sortTasks in Hs. rewrite (js_sort_length _ _ _ Hs).
  fold total. fold limit.
  split; [reflexivity|]. split; [reflexivity|]. split; [reflexivity|].
  split; [|split; [|split; [|split]]].
  - intros L -> HL.
    destruct (ceil_div_positive total L ltac:(subst total; lia) HL) as (k & Hk & _ & Hb).
    exists k. split; assumption.
  - intros ->. reflexivity.
  - intros s ->. reflexivity.
  - intros L -> HL. apply ceil_div_negative; [subst total; lia | exact HL].
  - intros ->. reflexivity.
Qed.

Lemma pagination_metadata_witness :
  exists page p,
    getTasks ascii_runtime query_page1_limit2 five_tasks = RList page p /\
    p_page p = Finite 1 /\ p_limit p = Finite 2 /\ p_total p = 5 /\
    p_totalPages p = Finite 3.
Proof.
  destruct (pagination_metadata ascii_runtime query_page1_limit2 five_tasks
              five_tasks five_tasks eq_refl eq_refl)
    as (page & p & Hg & Hp & Hl & Ht & Hpos & _).
  exists page, p. split; [exact Hg|]. split; [exact Hp|]. split; [exact Hl|].
  split; [exact Ht|].
  destruct (Hpos 2 eq_refl ltac:(lia)) as (k & Hk & Hb).
  rewrite Hk. assert (k = 3) as -> by (simpl in Hb; lia). reflexivity.
Defined.

End Pagination.

(** * Further properties of the tasks service *)

Section TaskRecords.

Import Tasks.

Lemma js_get_delete_ne (o : JSObject) (k k' : jsstring) :
  k <> k' -> js_get (delete k o) k' = js_get o k'.
Proof. intros H. unfold js_get. rewrite lookup_delete_ne by exact H. reflexivity. Qed.

(** [validateTask] reads the title, the description, the completed flag and
    the priority, and nothing else: adding, replacing or removing any other
    field of a candidate leaves the list of violations as it was. *)
Theorem validateTask_ignores_other_fields (task : JSObject) (k : jsstring) (v : JSVal) :
  k <> K_title -> k <> K_description -> k <> K_completed -> k <> K_priority ->
  validateTask (<[k := v]> task) = validateTask task /\
  validateTask (delete k task) = validateTask task.
Proof.
  intros H1 H2 H3 H4. split.
  - apply validateTask_ext; apply js_get_insert_ne; assumption.
  - apply validateTask_ext; apply js_get_delete_ne; assumption.
Qed.

Lemma validateTask_ignores_other_fields_witness :
  validateTask (<[K_id := VNum (S754_zero false)]> candidate_unit_test) =
    validateTask candidate_unit_test /\
  validateTask (delete K_id candidate_unit_test) = validateTask candidate_unit_test.
Proof.
  apply (validateTask_ignores_other_fields candidate_unit_test K_id
           (VNum (S754_zero false))); discriminate.
Defined.

(** The two title rules are not exclusive: a title of more than 200
    characters that is blank after trimming is reported by both, in rule
    order. *)
Theorem validateTask_blank_long_title (task : JSObject) (s : jsstring) :
  js_get task K_title = VStr s ->
  js_trim s = [] ->
  (200 < length s)%nat ->
  exists rest, validateTask task = MSG_title_required :: MSG_title_long :: rest.
Proof.
  intros Ht Hb Hl. rewrite validateTask_rules.
  assert (H1 : title_required_fails task = true).
  { unfold title_required_fails. rewrite Ht. simpl. rewrite Hb.
    destruct s; reflexivity. }
  assert (H2 : title_long_fails task = true).
  { unfold title_long_fails. rewrite Ht.
    destruct s as [|c s]; [simpl in Hl; lia|].
    cbn [truthy andb length_gt]. apply Nat.ltb_lt. exact Hl. }
  rewrite H1, H2. simpl. eexists. reflexivity.
Qed.

Lemma validateTask_blank_long_title_witness :
  exists rest,
    validateTask (<[K_title := VStr (repeat 32%N 201)]> ∅) =
      MSG_title_required :: MSG_title_long :: rest.
Proof.
  apply (validateTask_blank_long_title _ (repeat 32%N 201)).
  - reflexivity.
  - vm_compute. reflexivity.
  - vm_compute. lia.
Defined.

Lemma valid_title_string (task : JSObject) :
  title_required_fails task = false ->
  exists title, js_get task K_title = VStr title.
Proof.
  unfold title_required_fails. intros H.
  destruct (js_get task K_title) as [| | | |title| | |] eqn:Ht;
    try (destruct (truthy _) in H; simpl in H; discriminate H).
  exists title. reflexivity.
Qed.

(** A candidate without violations is stored at the end, under the
    identifier drawn for it. *)
Lemma postTask_valid_appends (uuid t1 t2 : jsstring) (body : JSObject) (tasks : Store) :
  validateTask body = [] ->
  exists task,
    postTask uuid t1 t2 body tasks = (RTask 201 task, tasks ++ [task]) /\
    js_get task K_id = VStr uuid.
Proof.
  intros Hv. pose proof (proj1 (validateTask_nil body) Hv) as (H1 & _).
  destruct (valid_title_string body H1) as [title Ht].
  unfold postTask. rewrite Hv. simpl. unfold createTask. rewrite Ht.
  eexists. split; [reflexivity|].
  repeat (rewrite js_get_insert_ne by discriminate). apply js_get_insert_eq.
Qed.

(** The record that [POST /tasks] stores for a candidate without
    violations: the seven fields of a task and no other, with the title
    trimmed, a string description (empty by default), a boolean completed
    (false by default) and a priority among low, medium and high (medium by
    default); it is appended to the store and returned with status 201. *)
Theorem postTask_created_record (uuid t1 t2 : jsstring) (body : JSObject) (tasks : Store) :
  validateTask body = [] ->
  exists title d b p,
    js_get body K_title = VStr title /\
    d = match js_get body K_description with VStr s => s | _ => [] end /\
    b = match js_get body K_completed with VBool c => c | _ => false end /\
    In p [S_low; S_medium; S_high] /\
    (truthy (js_get body K_priority) = true -> js_get body K_priority = VStr p) /\
    (truthy (js_get body K_priority) = false -> p = S_medium) /\
    let task : JSObject :=
      <[K_updatedAt := VStr t2]>
      (<[K_createdAt := VStr t1]>
      (<[K_priority := VStr p]>
      (<[K_completed := VBool b]>
      (<[K_description := VStr d]>
      (<[K_title := VStr (js_trim title)]>
      (<[K_id := VStr uuid]> ∅)))))) in
    postTask uuid t1 t2 body tasks = (RTask 201 task, tasks ++ [task]).
Proof.
  intros Hv. pose proof Hv as Hv'. apply validateTask_nil in Hv'.
  destruct Hv' as (H1 & _ & H3 & _ & H5 & H6).
  destruct (valid_title_string body H1) as [title Ht]. unfold_rules.
  set (dv := js_get body K_description) in *.
  set (cv := js_get body K_completed) in *.
  set (pv := js_get body K_priority) in *.
  assert (Hd : js_or dv (VStr []) =
               VStr (match dv with VStr s => s | _ => [] end)).
  { unfold js_or. destruct dv as [| |[]|[]| [|]| | |]; simpl in *;
      try reflexivity; discriminate H3. }
  assert (Hc : js_or cv (VBool false) =
               VBool (match cv with VBool c => c | _ => false end)).
  { unfold js_or. destruct cv as [| |[]| | | | |]; simpl in *;
      try reflexivity; discriminate H5. }
  assert (Hp : exists p, js_or pv (VStr S_medium) = VStr p /\
                 In p [S_low; S_medium; S_high] /\
                 (truthy pv = true -> pv = VStr p) /\
                 (truthy pv = false -> p = S_medium)).
  { unfold js_or. destruct (truthy pv) eqn:Htp.
    - simpl in H6. apply negb_false_iff in H6.
      destruct pv as [| | | |s| | |]; simpl in H6; try discriminate H6.
      apply bool_decide_eq_true in H6. exists s.
      split; [reflexivity|]. split; [apply list_elem_of_In; exact H6|].
      split; [reflexivity | discriminate].
    - exists S_medium. split; [reflexivity|].
      split; [right; left; reflexivity|]. split; [discriminate | reflexivity]. }
  destruct Hp as (p & Hp & Hin & Hp1 & Hp2).
  exists title, (match dv with VStr s => s | _ => [] end),
         (match cv with VBool c => c | _ => false end), p.
  split; [exact Ht|]. split; [reflexivity|]. split; [reflexivity|].
  split; [exact Hin|]. split; [exact Hp1|]. split; [exact Hp2|].
  unfold postTask. rewrite Hv. simpl.
  unfold createTask. rewrite Ht. fold dv cv pv. rewrite Hd, Hc, Hp. reflexivity.
Qed.

Lemma postTask_created_record_witness :
  exists title d b p,
    js_get body_padded_title K_title = VStr title /\
    d = match js_get body_padded_title K_description with VStr s => s | _ => [] end /\
    b = match js_get body_padded_title K_completed with VBool c => c | _ => false end /\
    In p [S_low; S_medium; S_high] /\
    (truthy (js_get body_padded_title K_priority) = true ->
       js_get body_padded_title K_priority = VStr p) /\
    (truthy (js_get body_padded_title K_priority) = false -> p = S_medium) /\
    let task : JSObject :=
      <[K_updatedAt := VStr (u16 "T2")]>
      (<[K_createdAt := VStr (u16 "T1")]>
      (<[K_priority := VStr p]>
      (<[K_completed := VBool b]>
      (<[K_description := VStr d]>
      (<[K_title := VStr (js_trim title)]>
      (<[K_id := VStr (u16 "t6")]> ∅)))))) in
    postTask (u16 "t6") (u16 "T1") (u16 "T2") body_padded_title five_tasks =
      (RTask 201 task, five_tasks ++ [task]).
Proof.
  apply (postTask_created_record (u16 "t6") (u16 "T1") (u16 "T2")
           body_padded_title five_tasks).
  vm_compute. reflexivity.
Defined.

End TaskRecords.

Section TaskLookup.

Import Tasks.

(** *** Searching the store *)

Lemma findIndex_split {A} (p : A -> bool) (l : list A) (i : nat) :
  findIndex p l = Some i ->
  exists pre t post,
    l = pre ++ t :: post /\ length pre = i /\ p t = true /\
    Forall (fun x => p x = false) pre.
Proof.
  revert i. induction l as [|y l IH]; intros i H; simpl in H; [discriminate|].
  destruct (p y) eqn:Hp.
  - injection H as <-. exists [], y, l. repeat split; [exact Hp | constructor].
  - destruct (findIndex p l) as [j|] eqn:Hj; simpl in H; [|discriminate].
    injection H as <-.
    destruct (IH j eq_refl) as (pre & t & post & -> & Hlen & Ht & Hpre).
    exists (y :: pre), t, post. simpl.
    repeat split; [congruence | exact Ht | constructor; assumption].
Qed.

Lemma find_misses {A} (p : A -> bool) (pre tail : list A) :
  Forall (fun x => p x = false) pre ->
  List.find p (pre ++ tail) = List.find p tail /\
  findIndex p (pre ++ tail) = option_map (Nat.add (length pre)) (findIndex p tail).
Proof.
  induction 1 as [|y pre Hy _ IH]; simpl.
  - split; [reflexivity|]. destruct (findIndex p tail); reflexivity.
  - rewrite Hy. destruct IH as [-> ->]. split; [reflexivity|].
    destruct (findIndex p tail); reflexivity.
Qed.

Lemma find_None_findIndex {A} (p : A -> bool) (l : list A) :
  List.find p l = None <-> findIndex p l = None.
Proof.
  induction l as [|y l IH]; simpl; [tauto|].
  destruct (p y); [split; discriminate|].
  rewrite IH. destruct (findIndex p l); simpl; split; congruence.
Qed.

Lemma find_None_Forall {A} (p : A -> bool) (l : list A) :
  List.find p l = None <-> Forall (fun x => p x = false) l.
Proof.
  induction l as [|y l IH]; simpl.
  - split; [constructor | reflexivity].
  - destruct (p y) eqn:Hp.
    + split; [discriminate|]. intros H. inversion H; congruence.
    + rewrite IH. split; [constructor; assumption | intros H; inversion H; assumption].
Qed.

Lemma id_is_spec (id : jsstring) (task : JSObject) :
  id_is id task = true <-> js_get task K_id = VStr id.
Proof.
  unfold id_is. destruct (js_get task K_id); try (split; discriminate).
  rewrite bool_decide_eq_true. split; congruence.
Qed.

(** *** Unknown identifiers *)

Lemma find_unknown_id (id : jsstring) (tasks : Store) :
  Forall (fun task => js_get task K_id <> VStr id) tasks ->
  List.find (id_is id) tasks = None /\ findIndex (id_is id) tasks = None.
Proof.
  intros Hno.
  assert (Hf : List.find (id_is id) tasks = None).
  { apply find_None_Forall. eapply Forall_impl; [exact Hno|].
    intros t Ht. simpl in Ht. destruct (id_is id t) eqn:E; [|reflexivity].
    apply id_is_spec in E. contradiction. }
  split; [exact Hf | apply find_None_findIndex; exact Hf].
Qed.

Lemma getTask_unknown (id : jsstring) (tasks : Store) :
  Forall (fun task => js_get task K_id <> VStr id) tasks ->
  getTask id tasks = R_not_found.
Proof.
  intros Hno. unfold getTask, findTaskById.
  rewrite (proj1 (find_unknown_id id tasks Hno)). reflexivity.
Qed.

Lemma deleteTaskHandler_unknown (id : jsstring) (tasks : Store) :
  Forall (fun task => js_get task K_id <> VStr id) tasks ->
  deleteTaskHandler id tasks = (R_not_found, tasks).
Proof.
  intros Hno. unfold deleteTaskHandler, deleteTask.
  rewrite (proj2 (find_unknown_id id tasks Hno)). reflexivity.
Qed.

(** An identifier that no stored task carries is answered 404 by the read,
    update and delete endpoints, whatever the payload, and none of them
    touches the store. *)
Theorem unknown_id_not_found (now id : jsstring) (body : JSObject) (tasks : Store) :
  Forall (fun task => js_get task K_id <> VStr id) tasks ->
  getTask id tasks = R_not_found /\
  putTask now id body tasks = (R_not_found, tasks) /\
  deleteTaskHandler id tasks = (R_not_found, tasks).
Proof.
  intros Hno. destruct (find_unknown_id id tasks Hno) as [Hf Hi].
  split; [apply getTask_unknown; exact Hno|].
  split; [|apply deleteTaskHandler_unknown; exact Hno].
  unfold putTask, findTaskById. rewrite Hf. reflexivity.
Qed.

Lemma unknown_id_not_found_witness :
  getTask (u16 "t9") five_tasks = R_not_found /\
  putTask (u16 "T") (u16 "t9") payload_completed five_tasks = (R_not_found, five_tasks) /\
  deleteTaskHandler (u16 "t9") five_tasks = (R_not_found, five_tasks).
Proof.
  apply (unknown_id_not_found (u16 "T") (u16 "t9") payload_completed five_tasks).
  repeat constructor; vm_compute; discriminate.
Defined.

(** *** Create, then read *)

(** After a successful [POST /tasks] that drew an identifier no stored task
    carries, [GET /tasks/:id] with that identifier answers the created
    record, and the answer for every other identifier is what it was. *)
Theorem postTask_then_getTask (uuid t1 t2 : jsstring) (body : JSObject) (tasks : Store) :
  validateTask body = [] ->
  Forall (fun task => js_get task K_id <> VStr uuid) tasks ->
  exists task,
    postTask uuid t1 t2 body tasks = (RTask 201 task, tasks ++ [task]) /\
    getTask uuid (tasks ++ [task]) = RTask 200 task /\
    (forall id, id <> uuid -> getTask id (tasks ++ [task]) = getTask id tasks).
Proof.
  intros Hv Hfresh.
  destruct (postTask_valid_appends uuid t1 t2 body tasks Hv) as (task & Hpost & Hid).
  exists task. split; [exact Hpost|].
  split.
  - unfold getTask, findTaskById.
    assert (Hm : Forall (fun x => id_is uuid x = false) tasks).
    { eapply Forall_impl; [exact Hfresh|]. intros t Ht. simpl in Ht.
      destruct (id_is uuid t) eqn:E; [|reflexivity].
      apply id_is_spec in E. contradiction. }
    rewrite (proj1 (find_misses _ tasks [task] Hm)). simpl.
    rewrite (proj2 (id_is_spec uuid task) Hid). reflexivity.
  - intros id Hne. unfold getTask, findTaskById.
    assert (Hn : id_is id task = false).
    { destruct (id_is id task) eqn:E; [|reflexivity].
      apply id_is_spec in E. congruence. }
    clear Hpost. induction tasks as [|y l IH]; simpl.
    + rewrite Hn. reflexivity.
    + destruct (id_is id y); [reflexivity|].
      apply IH. inversion Hfresh; assumption.
Qed.

Lemma postTask_then_getTask_witness :
  exists task,
    postTask (u16 "t6") (u16 "T1") (u16 "T2") body_padded_title five_tasks =
      (RTask 201 task, five_tasks ++ [task]) /\
    getTask (u16 "t6") (five_tasks ++ [task]) = RTask 200 task /\
    (forall id, id <> u16 "t6" ->
       getTask id (five_tasks ++ [task]) = getTask id five_tasks).
Proof.
  apply (postTask_then_getTask (u16 "t6") (u16 "T1") (u16 "T2")
           body_padded_title five_tasks).
  - vm_compute. reflexivity.
  - repeat constructor; vm_compute; discriminate.
Defined.

End TaskLookup.

Section TaskDeleteUpdate.

Import Tasks.

(** *** Delete *)

(** The record that [findTaskById] returns is the first that carries the
    identifier. *)
Lemma found_split (id : jsstring) (tasks : Store) (found : JSObject) :
  findTaskById tasks id = Some found ->
  exists pre post,
    tasks = pre ++ found :: post /\
    id_is id found = true /\
    Forall (fun x => id_is id x = false) pre /\
    findIndex (id_is id) (pre ++ found :: post) = Some (length pre).
Proof.
  intros Hf. unfold findTaskById in Hf.
  destruct (find_Some_findIndex _ _ _ Hf) as (i & Hi & Hx).
  destruct (findIndex_split _ _ _ Hi) as (pre & t & post & -> & Hlen & Ht & Hpre).
  assert (t = found) as ->.
  { rewrite (proj1 (find_misses _ pre (t :: post) Hpre)) in Hf.
    simpl in Hf. rewrite Ht in Hf. congruence. }
  exists pre, post. rewrite Hlen. tauto.
Qed.

Lemma deleteTaskHandler_found (id : jsstring) (pre post : Store) (found : JSObject) :
  id_is id found = true ->
  Forall (fun x => id_is id x = false) pre ->
  findIndex (id_is id) (pre ++ found :: post) = Some (length pre) ->
  deleteTaskHandler id (pre ++ found :: post) = (RNoContent, pre ++ post).
Proof.
  intros _ _ Hi. unfold deleteTaskHandler, deleteTask.
  rewrite Hi, delete_middle. reflexivity.
Qed.

(** [DELETE /tasks/:id] of an identifier that is in the store removes one
    record, the first that carries the identifier, and keeps the others in
    their order. *)
Theorem deleteTask_removes_first (id : jsstring) (tasks : Store) (found : JSObject) :
  findTaskById tasks id = Some found ->
  exists pre post,
    tasks = pre ++ found :: post /\
    js_get found K_id = VStr id /\
    Forall (fun task => js_get task K_id <> VStr id) pre /\
    deleteTaskHandler id tasks = (RNoContent, pre ++ post).
Proof.
  intros Hf.
  destruct (found_split id tasks found Hf) as (pre & post & -> & Ht & Hpre & Hi).
  exists pre, post. split; [reflexivity|].
  split; [apply id_is_spec; exact Ht|]. split.
  - eapply Forall_impl; [exact Hpre|]. intros x Hx' E. simpl in Hx'.
    apply id_is_spec in E. congruence.
  - apply deleteTaskHandler_found; assumption.
Qed.

Lemma deleteTask_removes_first_witness :
  exists pre post,
    five_tasks = pre ++ task_titled "t2" "Task 2" true :: post /\
    js_get (task_titled "t2" "Task 2" true) K_id = VStr (u16 "t2") /\
    Forall (fun task => js_get task K_id <> VStr (u16 "t2")) pre /\
    deleteTaskHandler (u16 "t2") five_tasks = (RNoContent, pre ++ post).
Proof.
  apply (deleteTask_removes_first (u16 "t2") five_tasks
           (task_titled "t2" "Task 2" true)).
  vm_compute. reflexivity.
Defined.

Lemma NoDup_ids_middle (pre post : Store) (t : JSObject) :
  NoDup (task_ids (pre ++ t :: post)) ->
  Forall (fun x => js_get x K_id <> js_get t K_id) (pre ++ post).
Proof.
  unfold task_ids. rewrite map_app. simpl. intros H.
  apply NoDup_app in H as (_ & Hdisj & Hk).
  apply NoDup_cons in Hk as [Hk _].
  apply Forall_forall. intros x Hx E.
  apply elem_of_app in Hx as [Hx|Hx].
  - apply (Hdisj (js_get x K_id)).
    + apply list_elem_of_In.
      apply (in_map (fun task => js_get task K_id)). apply list_elem_of_In. exact Hx.
    + rewrite E. left.
  - apply Hk. rewrite <- E. apply list_elem_of_In.
    apply (in_map (fun task => js_get task K_id)). apply list_elem_of_In. exact Hx.
Qed.

(** When identifiers are distinct, a deleted task is gone: after a
    successful delete, reading or deleting the same identifier answers 404,
    and every other identifier finds what it found before. *)
Theorem deleteTask_then_not_found (id : jsstring) (tasks : Store) (found : JSObject) :
  NoDup (task_ids tasks) ->
  findTaskById tasks id = Some found ->
  let tasks' := snd (deleteTaskHandler id tasks) in
  fst (deleteTaskHandler id tasks) = RNoContent /\
  getTask id tasks' = R_not_found /\
  deleteTaskHandler id tasks' = (R_not_found, tasks') /\
  (forall id', id' <> id -> getTask id' tasks' = getTask id' tasks).
Proof.
  intros Hnd Hf tasks'.
  destruct (found_split id tasks found Hf) as (pre & post & -> & Ht & Hpre & Hi).
  pose proof (proj1 (id_is_spec id found) Ht) as Hid.
  pose proof (deleteTaskHandler_found id pre post found Ht Hpre Hi) as Hdel.
  subst tasks'. rewrite Hdel. simpl.
  pose proof (NoDup_ids_middle pre post found Hnd) as Hrest. rewrite Hid in Hrest.
  pose proof (getTask_unknown id (pre ++ post) Hrest) as Hg.
  pose proof (deleteTaskHandler_unknown id (pre ++ post) Hrest) as Hd.
  split; [reflexivity|]. split; [exact Hg|]. split; [exact Hd|].
  intros id' Hne. unfold getTask, findTaskById.
  assert (Hn : id_is id' found = false).
  { destruct (id_is id' found) eqn:E; [|reflexivity].
    apply id_is_spec in E. congruence. }
  clear -Hn. induction pre as [|y l IH]; simpl.
  - rewrite Hn. reflexivity.
  - destruct (id_is id' y); [reflexivity | exact IH].
Qed.

Lemma five_tasks_ids_distinct : NoDup (task_ids five_tasks).
Proof.
  assert (E : task_ids five_tasks =
              ltac:(let v := eval vm_compute in (task_ids five_tasks) in exact v))
    by (vm_compute; reflexivity).
  rewrite E.
  repeat (apply NoDup_cons_2;
          [rewrite ?not_elem_of_cons; repeat split;
           try discriminate; apply not_elem_of_nil|]).
  apply NoDup_nil_2.
Qed.

Lemma deleteTask_then_not_found_witness :
  let tasks' := snd (deleteTaskHandler (u16 "t2") five_tasks) in
  fst (deleteTaskHandler (u16 "t2") five_tasks) = RNoContent /\
  getTask (u16 "t2") tasks' = R_not_found /\
  deleteTaskHandler (u16 "t2") tasks' = (R_not_found, tasks') /\
  (forall id', id' <> u16 "t2" -> getTask id' tasks' = getTask id' five_tasks).
Proof.
  apply (deleteTask_then_not_found (u16 "t2") five_tasks
           (task_titled "t2" "Task 2" true)).
  - exact five_tasks_ids_distinct.
  - vm_compute. reflexivity.
Defined.

(** *** Update, then read *)

Lemma putTask_accepted (now id : jsstring) (body : JSObject) (tasks : Store)
    (old : JSObject) :
  findTaskById tasks id = Some old ->
  validateTask (body ∪ old) = [] ->
  exists pre post,
    tasks = pre ++ old :: post /\
    Forall (fun x => id_is id x = false) pre /\
    putTask now id body tasks =
      (RTask 200 (merge_update now old body),
       pre ++ merge_update now old body :: post).
Proof.
  intros Hf Hv. unfold findTaskById in Hf.
  destruct (find_Some_findIndex _ _ _ Hf) as (i & Hi & Hx).
  destruct (findIndex_split _ _ _ Hi) as (pre & t & post & -> & Hlen & Ht & Hpre).
  assert (t = old) as ->.
  { rewrite (proj1 (find_misses _ pre (t :: post) Hpre)) in Hf.
    simpl in Hf. rewrite Ht in Hf. congruence. }
  exists pre, post. split; [reflexivity|]. split; [exact Hpre|].
  unfold putTask, findTaskById. rewrite Hf, Hv. simpl.
  unfold updateTask. rewrite Hi, Hx. f_equal.
  rewrite <- Hlen. rewrite insert_app_r_alt by lia.
  rewrite Nat.sub_diag. reflexivity.
Qed.

Lemma merge_update_id (now : jsstring) (old body : JSObject) :
  body !! K_id = None ->
  js_get (merge_update now old body) K_id = js_get old K_id.
Proof.
  intros Hb. unfold js_get. rewrite merge_update_lookup, Hb.
  destruct (decide (K_id = K_updatedAt)) as [E|_]; [discriminate E | reflexivity].
Qed.

(** After a successful [PUT /tasks/:id] whose payload carries no [id],
    [GET /tasks/:id] answers the record that the update returned; the store
    keeps its length. *)
Theorem putTask_then_getTask (now id : jsstring) (body : JSObject) (tasks : Store)
    (old : JSObject) :
  findTaskById tasks id = Some old ->
  validateTask (body ∪ old) = [] ->
  body !! K_id = None ->
  exists updated tasks',
    putTask now id body tasks = (RTask 200 updated, tasks') /\
    getTask id tasks' = RTask 200 updated /\
    length tasks' = length tasks /\
    task_ids tasks' = task_ids tasks.
Proof.
  intros Hf Hv Hb.
  destruct (putTask_accepted now id body tasks old Hf Hv)
    as (pre & post & -> & Hpre & Hput).
  exists (merge_update now old body), (pre ++ merge_update now old body :: post).
  split; [exact Hput|].
  pose proof (merge_update_id now old body Hb) as Hid.
  assert (Hold : id_is id old = true).
  { unfold findTaskById in Hf. apply find_some in Hf. tauto. }
  split.
  - unfold getTask, findTaskById.
    rewrite (proj1 (find_misses _ pre _ Hpre)). simpl.
    unfold id_is at 1. rewrite Hid. fold (id_is id old). rewrite Hold. reflexivity.
  - split; [rewrite !length_app; reflexivity|].
    unfold task_ids. rewrite !map_app. simpl. rewrite Hid. reflexivity.
Qed.

Lemma putTask_then_getTask_witness :
  exists updated tasks',
    putTask (u16 "T") (u16 "t2") payload_completed five_tasks =
      (RTask 200 updated, tasks') /\
    getTask (u16 "t2") tasks' = RTask 200 updated /\
    length tasks' = length five_tasks /\
    task_ids tasks' = task_ids five_tasks.
Proof.
  apply (putTask_then_getTask (u16 "T") (u16 "t2") payload_completed five_tasks
           (task_titled "t2" "Task 2" true)).
  - vm_compute. reflexivity.
  - vm_compute. reflexivity.
  - reflexivity.
Defined.

End TaskDeleteUpdate.

Section TaskIdentifiers.

Import Tasks.

Lemma NoDup_ids_remove (pre post : Store) (t : JSObject) :
  NoDup (task_ids (pre ++ t :: post)) -> NoDup (task_ids (pre ++ post)).
Proof.
  unfold task_ids. rewrite !map_app. simpl. intros H.
  apply NoDup_app in H as (Hpre & Hdisj & Hk).
  apply NoDup_cons in Hk as [_ Hpost].
  apply NoDup_app. split; [exact Hpre|]. split; [|exact Hpost].
  intros x Hx Hx'. apply (Hdisj x Hx). right. exact Hx'.
Qed.

Lemma handle_ids_distinct (rt : Runtime) (req : Request) (tasks : Store) :
  NoDup (task_ids tasks) -> request_fresh req tasks ->
  NoDup (task_ids (snd (handle rt req tasks))).
Proof.
  intros Hnd Hfresh. destruct req as [q|id|uuid t1 t2 body|now id body|id|]; simpl.
  - exact Hnd.
  - exact Hnd.
  - destruct (validateTask body) as [|e errs] eqn:Hv.
    + destruct (postTask_valid_appends uuid t1 t2 body tasks Hv) as (task & Hpost & Hid).
      rewrite Hpost. simpl.
      unfold task_ids. rewrite map_app. simpl. rewrite Hid.
      apply NoDup_app. split; [exact Hnd|]. split.
      * intros x Hx Hx'. apply list_elem_of_singleton in Hx'. subst x.
        apply Hfresh. apply list_elem_of_In. exact Hx.
      * apply NoDup_singleton.
    + unfold postTask. rewrite Hv. exact Hnd.
  - simpl in Hfresh.
    destruct (findTaskById tasks id) as [old|] eqn:Hf.
    + destruct (validateTask (body ∪ old)) as [|e errs] eqn:Hv.
      * destruct (putTask_accepted now id body tasks old Hf Hv)
          as (pre & post & -> & _ & Hput).
        rewrite Hput. simpl. unfold task_ids in *. rewrite map_app in *. simpl in *.
        rewrite (merge_update_id now old body Hfresh). exact Hnd.
      * unfold putTask. rewrite Hf, Hv. exact Hnd.
    + unfold putTask. rewrite Hf. exact Hnd.
  - destruct (findTaskById tasks id) as [found|] eqn:Hf.
    + destruct (found_split id tasks found Hf) as (pre & post & -> & Ht & Hpre & Hi).
      rewrite (deleteTaskHandler_found id pre post found Ht Hpre Hi). simpl.
      eapply NoDup_ids_remove. exact Hnd.
    + unfold deleteTaskHandler, deleteTask.
      rewrite (proj1 (find_None_findIndex _ _) Hf). exact Hnd.
  - apply NoDup_nil_2.
Qed.

(** As long as [uuidv4] never draws an identifier that a stored task
    carries and no update payload carries an [id], the identifiers of the
    stored tasks are pairwise distinct after every sequence of
    operations. *)
Theorem task_ids_stay_distinct (rt : Runtime) (reqs : list Request) :
  fresh_trace rt reqs [] -> NoDup (task_ids (run rt reqs [])).
Proof.
  assert (H : forall tasks, NoDup (task_ids tasks) -> fresh_trace rt reqs tasks ->
                            NoDup (task_ids (run rt reqs tasks))).
  { induction reqs as [|req reqs IH]; intros tasks Hnd Hfr; simpl.
    - exact Hnd.
    - destruct Hfr as [Hreq Hrest]. apply IH; [|exact Hrest].
      apply handle_ids_distinct; assumption. }
  apply H. apply NoDup_nil_2.
Qed.

Lemma task_ids_stay_distinct_witness :
  NoDup (task_ids (run ascii_runtime trace_create_update_delete [])).
Proof.
  apply (task_ids_stay_distinct ascii_runtime trace_create_update_delete).
  vm_compute. repeat split; intuition discriminate.
Defined.

(** No field is protected from an update: a payload that carries another
    [id] gives the record that identifier, and (identifiers being distinct)
    the identifier it had no longer finds anything. *)
Theorem putTask_payload_id_rekeys (now id id' : jsstring) (body : JSObject)
    (tasks : Store) (old : JSObject) :
  findTaskById tasks id = Some old ->
  validateTask (body ∪ old) = [] ->
  body !! K_id = Some (VStr id') ->
  id' <> id ->
  NoDup (task_ids tasks) ->
  exists updated tasks',
    putTask now id body tasks = (RTask 200 updated, tasks') /\
    js_get updated K_id = VStr id' /\
    In updated tasks' /\
    getTask id tasks' = R_not_found.
Proof.
  intros Hf Hv Hb Hne Hnd.
  destruct (putTask_accepted now id body tasks old Hf Hv)
    as (pre & post & -> & Hpre & Hput).
  exists (merge_update now old body), (pre ++ merge_update now old body :: post).
  split; [exact Hput|].
  assert (Hid : js_get (merge_update now old body) K_id = VStr id').
  { unfold js_get. rewrite merge_update_lookup, Hb.
    destruct (decide (K_id = K_updatedAt)) as [E|_]; [discriminate E | reflexivity]. }
  split; [exact Hid|]. split; [apply in_elt|].
  assert (Hold : js_get old K_id = VStr id).
  { unfold findTaskById in Hf. apply find_some in Hf. apply id_is_spec. tauto. }
  pose proof (NoDup_ids_middle pre post old Hnd) as Hrest. rewrite Hold in Hrest.
  apply Forall_app in Hrest as [Hpre' Hpost'].
  apply getTask_unknown.
  apply Forall_app. split; [exact Hpre'|].
  constructor; [|exact Hpost']. rewrite Hid. congruence.
Qed.

Lemma putTask_payload_id_rekeys_witness :
  exists updated tasks',
    putTask (u16 "T") (u16 "t2") payload_id five_tasks = (RTask 200 updated, tasks') /\
    js_get updated K_id = VStr (u16 "t9") /\
    In updated tasks' /\
    getTask (u16 "t2") tasks' = R_not_found.
Proof.
  apply (putTask_payload_id_rekeys (u16 "T") (u16 "t2") (u16 "t9") payload_id
           five_tasks (task_titled "t2" "Task 2" true)).
  - vm_compute. reflexivity.
  - vm_compute. reflexivity.
  - reflexivity.
  - discriminate.
  - exact five_tasks_ids_distinct.
Defined.

End TaskIdentifiers.

Section TaskSearch.

Import Tasks.

Lemma filter_sublist {A} (f : A -> bool) (l : list A) :
  sublist (List.filter f l) l.
Proof.
  induction l as [|y l IH]; simpl; [constructor|].
  destruct (f y); [apply sublist_skip | apply sublist_cons]; exact IH.
Qed.

Lemma payload_null_description_union (old : JSObject) :
  payload_null_description ∪ old = <[K_description := VNull]> old.
Proof.
  unfold payload_null_description.
  rewrite <- insert_union_l, (left_id ∅ (∪)). reflexivity.
Qed.

(** The description rules skip every falsy value, so [PUT] accepts
    [{description: null}] on any stored task and stores the null; from then
    on, a search whose term does not occur in the title of that task makes
    [GET /tasks] answer 500, because the search stage calls [toLowerCase]
    on the description. *)
Theorem search_fails_after_null_description (rt : Runtime) (now id term : jsstring)
    (tasks : Store) (old : JSObject) :
  findTaskById tasks id = Some old ->
  validateTask old = [] ->
  term <> [] ->
  (forall title, js_get old K_title = VStr title ->
     js_includes (toLowerCase rt title) (toLowerCase rt term) = false) ->
  exists updated tasks',
    putTask now id payload_null_description tasks = (RTask 200 updated, tasks') /\
    js_get updated K_description = VNull /\
    validateTask updated = [] /\
    getTasks rt (query_search term) tasks' = R_internal.
Proof.
  intros Hf Hvalid Hterm Hmiss.
  assert (Hv : validateTask (payload_null_description ∪ old) = []).
  { rewrite payload_null_description_union.
    apply validateTask_nil in Hvalid. apply validateTask_nil.
    destruct Hvalid as (H1 & H2 & _ & _ & H5 & H6). unfold_rules.
    rewrite js_get_insert_eq.
    repeat (rewrite js_get_insert_ne by discriminate).
    repeat split; assumption. }
  destruct (putTask_accepted now id _ tasks old Hf Hv)
    as (pre & post & -> & _ & Hput).
  set (updated := merge_update now old payload_null_description) in *.
  exists updated, (pre ++ updated :: post).
  split; [exact Hput|].
  assert (Hd : js_get updated K_description = VNull).
  { subst updated. unfold js_get. rewrite merge_update_lookup.
    destruct (decide (K_description = K_updatedAt)) as [E|_]; [discriminate E|].
    reflexivity. }
  assert (Ht : js_get updated K_title = js_get old K_title).
  { subst updated. unfold merge_update. rewrite payload_null_description_union.
    repeat (rewrite js_get_insert_ne by discriminate). reflexivity. }
  split; [exact Hd|]. split.
  { subst updated. rewrite validateTask_merge_update. exact Hv. }
  unfold getTasks, filterTasks, filterSearch, filterPriority, filterCompleted. simpl.
  destruct term as [|c term]; [contradiction|]. simpl.
  rewrite (filterM_None _ _ updated); [reflexivity | apply in_elt |].
  unfold search_matches. rewrite Ht, Hd.
  apply validateTask_nil in Hvalid. destruct Hvalid as (H1 & _).
  destruct (valid_title_string old H1) as [title Htitle].
  rewrite Htitle. simpl. rewrite (Hmiss title Htitle). reflexivity.
Qed.

Lemma search_fails_after_null_description_witness :
  exists updated tasks',
    putTask (u16 "T") (u16 "t2") payload_null_description five_tasks =
      (RTask 200 updated, tasks') /\
    js_get updated K_description = VNull /\
    validateTask updated = [] /\
    getTasks ascii_runtime (query_search (u16 "meeting")) tasks' = R_internal.
Proof.
  apply (search_fails_after_null_description ascii_runtime (u16 "T") (u16 "t2")
           (u16 "meeting") five_tasks (task_titled "t2" "Task 2" true)).
  - vm_compute. reflexivity.
  - vm_compute. reflexivity.
  - discriminate.
  - intros title Ht. vm_compute in Ht. injection Ht as <-. vm_compute. reflexivity.
Defined.

(** *** The search stage on well-typed tasks *)

Lemma isPrefixOf_spec (t s : jsstring) :
  isPrefixOf t s = true <-> exists post, s = t ++ post.
Proof.
  revert s. induction t as [|c t IH]; intros s; simpl.
  - split; [intros _; exists s; reflexivity | reflexivity].
  - destruct s as [|d s].
    + split; [discriminate | intros [post H]; discriminate H].
    + rewrite andb_true_iff, N.eqb_eq, IH. split.
      * intros [-> [post ->]]. exists post. reflexivity.
      * intros [post H]. injection H as -> ->. split; [reflexivity|].
        exists post. reflexivity.
Qed.

(** [includes] holds exactly of the strings that contain the term. *)
Lemma js_includes_spec (s t : jsstring) :
  js_includes s t = true <-> exists pre post, s = pre ++ t ++ post.
Proof.
  induction s as [|c s IH].
  - simpl. rewrite orb_false_r, isPrefixOf_spec. split.
    + intros [post H]. exists [], post. exact H.
    + intros (pre & post & H). destruct pre; [|discriminate H].
      exists post. exact H.
  - cbn [js_includes]. rewrite orb_true_iff, isPrefixOf_spec, IH. split.
    + intros [[post H]|(pre & post & H)].
      * exists [], post. exact H.
      * exists (c :: pre), post. simpl. rewrite H. reflexivity.
    + intros (pre & post & H). destruct pre as [|d pre].
      * left. exists post. exact H.
      * right. injection H as -> H. exists pre, post. exact H.
Qed.

(** On tasks whose title and description are strings, the search stage
    raises nothing and keeps, in order, the tasks whose lower-cased title or
    lower-cased description contains the lower-cased term; an absent or
    empty search parameter keeps every task. *)
Theorem search_keeps_matching_tasks (rt : Runtime) (q : Query) (tasks : list JSObject) :
  Forall (fun task => exists title d,
            js_get task K_title = VStr title /\
            js_get task K_description = VStr d) tasks ->
  (q_search q = None \/ q_search q = Some (QStr []) ->
     filterSearch rt q tasks = Some tasks) /\
  (forall term, q_search q = Some (QStr term) -> term <> [] ->
     exists kept,
       filterSearch rt q tasks = Some kept /\
       sublist kept tasks /\
       forall task, In task kept <->
         In task tasks /\
         exists title d pre post,
           js_get task K_title = VStr title /\
           js_get task K_description = VStr d /\
           (toLowerCase rt title = pre ++ toLowerCase rt term ++ post \/
            toLowerCase rt d = pre ++ toLowerCase rt term ++ post)).
Proof.
  intros Htyped. split.
  { intros [H|H]; unfold filterSearch; rewrite H; reflexivity. }
  intros term Hq Hterm.
  set (lt := toLowerCase rt term).
  set (f := fun task : JSObject =>
              match js_get task K_title, js_get task K_description with
              | VStr title, VStr d =>
                  js_includes (toLowerCase rt title) lt ||
                  js_includes (toLowerCase rt d) lt
              | _, _ => false
              end).
  exists (List.filter f tasks). split.
  { unfold filterSearch. rewrite Hq.
    destruct term as [|c term]; [contradiction|]. simpl.
    apply filterM_total. eapply Forall_impl; [exact Htyped|].
    intros task (title & d & Ht & Hd). simpl.
    unfold search_matches, f. rewrite Ht, Hd. simpl. fold lt.
    destruct (js_includes (toLowerCase rt title) lt); reflexivity. }
  split; [apply filter_sublist|].
  intros task. rewrite filter_In. split.
  - intros [Hin Hf]. split; [exact Hin|].
    rewrite Forall_forall in Htyped.
    destruct (Htyped task (proj2 (list_elem_of_In _ _) Hin)) as (title & d & Ht & Hd).
    unfold f in Hf. rewrite Ht, Hd in Hf. apply orb_true_iff in Hf.
    destruct Hf as [Hf|Hf]; apply js_includes_spec in Hf as (pre & post & Hf);
      exists title, d, pre, post; tauto.
  - intros (Hin & title & d & pre & post & Ht & Hd & Hm). split; [exact Hin|].
    unfold f. rewrite Ht, Hd. apply orb_true_iff.
    destruct Hm as [Hm|Hm]; [left|right]; apply js_includes_spec; eauto.
Qed.

Lemma search_keeps_matching_tasks_witness :
  exists kept,
    filterSearch ascii_runtime (query_search (u16 "TASK 2")) five_tasks = Some kept /\
    sublist kept five_tasks /\
    forall task, In task kept <->
      In task five_tasks /\
      exists title d pre post,
        js_get task K_title = VStr title /\
        js_get task K_description = VStr d /\
        (toLowerCase ascii_runtime title =
           pre ++ toLowerCase ascii_runtime (u16 "TASK 2") ++ post \/
         toLowerCase ascii_runtime d =
           pre ++ toLowerCase ascii_runtime (u16 "TASK 2") ++ post).
Proof.
  apply (proj2 (search_keeps_matching_tasks ascii_runtime
                  (query_search (u16 "TASK 2")) five_tasks
                  ltac:(repeat constructor; eexists _, _; split; vm_compute; reflexivity))
           (u16 "TASK 2")).
  - reflexivity.
  - discriminate.
Defined.

End TaskSearch.

Section TaskPriorityFilter.

Import Tasks.

Lemma filter_none {A} (f : A -> bool) (l : list A) :
  (forall x, f x = false) -> List.filter f l = [].
Proof.
  intros H. induction l as [|y l IH]; simpl; [reflexivity|].
  rewrite H. exact IH.
Qed.

(** The priority filter: an empty parameter filters nothing; a string
    keeps, in order, the tasks whose priority is that string; a repeated or
    bracketed parameter (an array or an object) matches no task at all. *)
Theorem priority_filter_cases (q : Query) (tasks : list JSObject) (v : QVal) :
  q_priority q = Some v ->
  (v = QStr [] -> filterPriority q tasks = tasks) /\
  (forall s, v = QStr s -> s <> [] ->
     sublist (filterPriority q tasks) tasks /\
     forall task, In task (filterPriority q tasks) <->
                  In task tasks /\ js_get task K_priority = VStr s) /\
  ((forall s, v <> QStr s) -> filterPriority q tasks = []).
Proof.
  intros Hq. unfold filterPriority. rewrite Hq. split; [intros ->; reflexivity|].
  split.
  - intros s -> Hs. destruct s as [|c s]; [contradiction|]. simpl.
    split; [apply filter_sublist|].
    intros task. rewrite filter_In. unfold priority_is.
    destruct (js_get task K_priority); try (intuition discriminate).
    rewrite bool_decide_eq_true. intuition congruence.
  - intros Hv. destruct v as [s|items|]; [destruct (Hv s eq_refl)| |];
      simpl; apply filter_none; intros x; reflexivity.
Qed.

Lemma priority_filter_cases_witness :
  filterPriority (query_priority (QArr [QStr S_high])) five_tasks = [].
Proof.
  apply (priority_filter_cases (query_priority (QArr [QStr S_high])) five_tasks
           (QArr [QStr S_high]) eq_refl).
  discriminate.
Defined.

End TaskPriorityFilter.

Section TaskSorting.

Import Tasks.

(** *** When the sort stage raises *)

(** A comparison raises as soon as one of the two values cannot be
    converted to a primitive. *)
Lemma compareTasks_unconvertible (rt : Runtime) (k : jsstring) (o : Z) (a b : JSObject) :
  toPrimitive rt (js_get a k) = None \/ toPrimitive rt (js_get b k) = None ->
  compareTasks rt k o a b = None.
Proof.
  intros H. unfold compareTasks, js_lt.
  destruct (toPrimitive rt (js_get a k)) as [pa|];
    destruct (toPrimitive rt (js_get b k)) as [pb|];
    try reflexivity.
  destruct H; discriminate.
Qed.

Lemma compareTasks_convertible (rt : Runtime) (k : jsstring) (o : Z) (a b : JSObject) :
  toPrimitive rt (js_get a k) <> None -> toPrimitive rt (js_get b k) <> None ->
  exists c, compareTasks rt k o a b = Some c.
Proof.
  intros Ha Hb. unfold compareTasks, js_lt.
  destruct (toPrimitive rt (js_get a k)) as [pa|]; [|contradiction].
  destruct (toPrimitive rt (js_get b k)) as [pb|]; [|contradiction].
  destruct (match pa, pb with
            | VStr s, VStr t => string_lt s t
            | _, _ => SFltb (toNumber rt pa) (toNumber rt pb)
            end); [eexists; reflexivity|].
  destruct (match pb, pa with
            | VStr s, VStr t => string_lt s t
            | _, _ => SFltb (toNumber rt pb) (toNumber rt pa)
            end); eexists; reflexivity.
Qed.

Lemma none_or_all_some {A B} (f : A -> option B) (l : list A) :
  (exists x, In x l /\ f x = None) \/ (forall x, In x l -> f x <> None).
Proof.
  induction l as [|y l [(x & Hx & Hn) | Hall]].
  - right. intros x [].
  - left. exists x. split; [right; exact Hx | exact Hn].
  - destruct (f y) eqn:E.
    + right. intros x [<-|Hx]; [congruence | apply Hall; exact Hx].
    + left. exists y. split; [left; reflexivity | exact E].
Qed.

(** A sort of two elements or more brings every element into a
    comparison: it raises when the comparator raises on every pair that
    has a given element of the list. *)
Lemma js_sort_raises {A} (cmp : A -> A -> option Z) (l : list A) (bad : A) :
  (2 <= length l)%nat -> In bad l ->
  (forall y, cmp bad y = None /\ cmp y bad = None) ->
  js_sort cmp l = None.
Proof.
  intros Hlen Hin Hbad. induction l as [|x l IH]; [simpl in Hlen; lia|].
  simpl. destruct (js_sort cmp l) as [sorted|] eqn:Hs; [|reflexivity].
  pose proof (js_sort_length _ _ _ Hs) as Hl.
  destruct sorted as [|y sorted]; [destruct l; simpl in *; lia|].
  simpl. destruct Hin as [->|Hin].
  - rewrite (proj1 (Hbad y)). reflexivity.
  - destruct l as [|z [|z' l]]; [contradiction| |].
    + destruct Hin as [->|[]]. simpl in Hs. inversion Hs; subst.
      rewrite (proj2 (Hbad x)). reflexivity.
    + discriminate (IH ltac:(simpl; lia) Hin).
Qed.

(** The sort stage raises exactly when it has two tasks or more to sort
    and one of them holds, under the sort field, a value that cannot be
    converted to a primitive, as a nested object with an own toString
    property; the request is then answered with status 500.  When the
    stage returns, it returns the tasks it was given, each as many times
    as it came in. *)
Theorem sortTasks_permutation (rt : Runtime) (q : Query) (tasks : list JSObject) :
  (sortTasks rt q tasks = None <->
     (2 <= length tasks)%nat /\
     exists task, In task tasks /\
                  toPrimitive rt (js_get task (sortBy_of q)) = None) /\
  (forall sorted, sortTasks rt q tasks = Some sorted -> Permutation sorted tasks) /\
  (forall store, filterTasks rt q store = Some tasks ->
     sortTasks rt q tasks = None -> getTasks rt q store = R_internal) /\
  toPrimitive rt (VObj true) = None /\
  toPrimitive rt (VArr [VObj true]) = None.
Proof.
  unfold sortTasks. set (cmp := compareTasks rt (sortBy_of q) (sortOrder_of q)).
  split; [|split; [|split; [|split]]].
  - split.
    + intros Hnone.
      assert (Hlen : (2 <= length tasks)%nat).
      { destruct tasks as [|x [|y l]]; simpl in *; try discriminate; lia. }
      split; [exact Hlen|].
      destruct (none_or_all_some
                  (fun task => toPrimitive rt (js_get task (sortBy_of q))) tasks)
        as [Hex|Hconv]; [exact Hex|].
      * exfalso.
        rewrite (js_sort_pure cmp (fun a b => default 0 (cmp a b))) in Hnone;
          [discriminate|].
        intros x y Hx Hy.
        destruct (compareTasks_convertible rt (sortBy_of q) (sortOrder_of q) x y
                    (Hconv x Hx) (Hconv y Hy)) as (c & Hc).
        subst cmp. cbv beta. rewrite Hc. reflexivity.
    + intros (Hlen & task & Hin & Ht).
      apply (js_sort_raises cmp tasks task Hlen Hin).
      intros y. split; apply compareTasks_unconvertible; [left | right]; exact Ht.
  - intros sorted Hs. apply (js_sort_perm _ _ _ Hs).
  - intros store Hf Hs. unfold getTasks, sortTasks. fold cmp. rewrite Hf, Hs.
    reflexivity.
  - reflexivity.
  - reflexivity.
Qed.

Example sort_by_unconvertible_field_raises :
  getTasks ascii_runtime query_sort_meta tasks_with_meta = R_internal /\
  (exists page p, getTasks ascii_runtime query_sort_meta [hd ∅ tasks_with_meta]
                  = RList page p).
Proof. split; [reflexivity | eexists _, _; reflexivity]. Qed.

(** *** Sorted output on string fields *)

Lemma string_lt_asym (s t : jsstring) :
  string_lt s t = true -> string_lt t s = false.
Proof.
  revert t. induction s as [|c s IH]; intros [|d t]; simpl; try reflexivity;
    try discriminate.
  intros H. apply orb_true_iff in H as [H|H].
  - apply N.ltb_lt in H.
    rewrite (proj2 (N.ltb_ge d c)) by lia.
    rewrite (proj2 (N.eqb_neq d c)) by lia. reflexivity.
  - apply andb_true_iff in H as [E H]. apply N.eqb_eq in E. subst d.
    rewrite N.ltb_irrefl, N.eqb_refl. simpl. apply IH. exact H.
Qed.

(** If [u] is below [s], every [t] is above [u] or below [s]. *)
Lemma string_lt_cotrans (u s t : jsstring) :
  string_lt u s = true -> string_lt u t = true \/ string_lt t s = true.
Proof.
  revert s t. induction u as [|a u IH]; intros [|b s] [|c t]; simpl;
    try discriminate; try tauto.
  intros H. apply orb_true_iff in H as [H|H].
  - apply N.ltb_lt in H.
    destruct (N.lt_trichotomy a c) as [Hac|[Hac|Hac]].
    + left. apply orb_true_iff. left. apply N.ltb_lt. exact Hac.
    + subst c. right. apply orb_true_iff. left. apply N.ltb_lt. exact H.
    + right. apply orb_true_iff. left. apply N.ltb_lt. lia.
  - apply andb_true_iff in H as [E H]. apply N.eqb_eq in E. subst b.
    destruct (N.lt_trichotomy a c) as [Hac|[Hac|Hac]].
    + left. apply orb_true_iff. left. apply N.ltb_lt. exact Hac.
    + subst c. destruct (IH s t H) as [H'|H'].
      * left. rewrite N.eqb_refl, H'. apply orb_true_r.
      * right. rewrite N.eqb_refl, H'. apply orb_true_r.
    + right. apply orb_true_iff. left. apply N.ltb_lt. exact Hac.
Qed.

Lemma insert_pure_Forall {A} (cmp : A -> A -> Z) (P : A -> Prop) (x : A) (l : list A) :
  P x -> Forall P l -> Forall P (insert_pure cmp x l).
Proof.
  intros Hx Hl. induction Hl as [|y l Hy Hl IH]; simpl.
  - constructor; [exact Hx | constructor].
  - destruct (cmp x y <=? 0); constructor; try assumption.
    constructor; assumption.
Qed.

(** Insertion into a sorted list keeps it sorted, for a comparator that
    answers, on the elements that satisfy [T], a transitive order [R]
    relating every two of them one way or the other. *)
Lemma insert_pure_sorted {A} (cmp : A -> A -> Z) (R : A -> A -> Prop)
    (T : A -> Prop) (x : A) (l : list A) :
  (forall a b c, T a -> T b -> T c -> R a b -> R b c -> R a c) ->
  (forall a b, T a -> T b -> cmp a b <= 0 -> R a b) ->
  (forall a b, T a -> T b -> 0 < cmp a b -> R b a) ->
  T x -> Forall T l ->
  StronglySorted R l -> StronglySorted R (insert_pure cmp x l).
Proof.
  intros Htrans Hle Hgt Hx HT Hs. induction Hs as [|y l Hs IH Hy]; simpl.
  - constructor; constructor.
  - inversion HT as [|? ? HTy HTl]; subst.
    destruct (Z.leb_spec (cmp x y) 0) as [Hc|Hc].
    + constructor; [constructor; assumption|].
      constructor; [apply Hle; assumption|].
      rewrite Forall_forall in Hy, HTl. apply Forall_forall.
      intros z Hz. apply (Htrans x y z); auto.
    + constructor; [apply IH; exact HTl|].
      apply insert_pure_Forall; [apply Hgt; assumption | exact Hy].
Qed.

Lemma sort_pure_sorted {A} (cmp : A -> A -> Z) (R : A -> A -> Prop)
    (T : A -> Prop) (l : list A) :
  (forall a b c, T a -> T b -> T c -> R a b -> R b c -> R a c) ->
  (forall a b, T a -> T b -> cmp a b <= 0 -> R a b) ->
  (forall a b, T a -> T b -> 0 < cmp a b -> R b a) ->
  Forall T l -> StronglySorted R (sort_pure cmp l).
Proof.
  intros Htrans Hle Hgt HT. unfold sort_pure.
  assert (Hboth : StronglySorted R (fold_right (insert_pure cmp) [] l) /\
                  Forall T (fold_right (insert_pure cmp) [] l)).
  { induction HT as [|x l Hx HT IH]; simpl; [split; constructor|].
    destruct IH as [IHs IHT]. split.
    - apply (insert_pure_sorted cmp R T); assumption.
    - apply insert_pure_Forall; assumption. }
  exact (proj1 Hboth).
Qed.

(** When every task holds a string under the sort field, as the tasks
    built by [createTask] do under title, createdAt and updatedAt, the sort
    stage raises nothing and orders the tasks it was given by that string
    in code-unit order: ascending unless sortOrder is "desc", descending
    when it is. *)
Theorem sortTasks_sorted_on_strings (rt : Runtime) (q : Query) (tasks : list JSObject) :
  Forall (fun task => exists s, js_get task (sortBy_of q) = VStr s) tasks ->
  exists sorted,
    sortTasks rt q tasks = Some sorted /\
    Permutation sorted tasks /\
    (sortOrder_of q = 1 ->
       StronglySorted
         (fun a b => string_lt (sort_key (sortBy_of q) b) (sort_key (sortBy_of q) a) = false)
         sorted) /\
    (sortOrder_of q = -1 ->
       StronglySorted
         (fun a b => string_lt (sort_key (sortBy_of q) a) (sort_key (sortBy_of q) b) = false)
         sorted).
Proof.
  intros Htyped. set (k := sortBy_of q).
  set (T := fun task : JSObject => exists s, js_get task k = VStr s).
  assert (Hcmp : forall o a b, T a -> T b ->
            compareTasks rt k o a b = Some (compare_keys k o a b)).
  { intros o a b [sa Ha] [sb Hb]. unfold compareTasks, compare_keys, sort_key, js_lt.
    rewrite Ha, Hb. simpl.
    destruct (string_lt sa sb); [reflexivity|].
    destruct (string_lt sb sa); reflexivity. }
  assert (Hsort : sortTasks rt q tasks =
                  Some (sort_pure (compare_keys k (sortOrder_of q)) tasks)).
  { unfold sortTasks. apply js_sort_pure. intros x y Hx Hy.
    rewrite Forall_forall in Htyped.
    apply Hcmp; apply Htyped; apply list_elem_of_In; assumption. }
  exists (sort_pure (compare_keys k (sortOrder_of q)) tasks).
  split; [exact Hsort|]. split; [exact (js_sort_perm _ _ _ Hsort)|].
  set (key := sort_key k).
  split; intros Ho; rewrite Ho.
  - apply (sort_pure_sorted _ (fun a b => string_lt (key b) (key a) = false) T);
      [| | |exact Htyped].
    + intros a b c _ _ _ Hab Hbc.
      destruct (string_lt (key c) (key a)) eqn:E; [|reflexivity].
      destruct (string_lt_cotrans _ _ (key b) E); congruence.
    + intros a b Ta Tb Hc. unfold compare_keys in Hc. fold key in Hc.
      destruct (string_lt (key a) (key b)) eqn:E1;
        [apply string_lt_asym; exact E1|].
      destruct (string_lt (key b) (key a)); [lia | reflexivity].
    + intros a b Ta Tb Hc. unfold compare_keys in Hc. fold key in Hc.
      destruct (string_lt (key a) (key b)) eqn:E1; [lia | reflexivity].
  - apply (sort_pure_sorted _ (fun a b => string_lt (key a) (key b) = false) T);
      [| | |exact Htyped].
    + intros a b c _ _ _ Hab Hbc.
      destruct (string_lt (key a) (key c)) eqn:E; [|reflexivity].
      destruct (string_lt_cotrans _ _ (key b) E); congruence.
    + intros a b Ta Tb Hc. unfold compare_keys in Hc. fold key in Hc.
      destruct (string_lt (key a) (key b)) eqn:E1; [lia | reflexivity].
    + intros a b Ta Tb Hc. unfold compare_keys in Hc. fold key in Hc.
      destruct (string_lt (key a) (key b)) eqn:E1;
        [apply string_lt_asym; exact E1|].
      destruct (string_lt (key b) (key a)); [lia | reflexivity].
Qed.

Lemma sortTasks_sorted_on_strings_witness :
  exists sorted,
    sortTasks ascii_runtime (query_sort "title" "desc") five_tasks = Some sorted /\
    Permutation sorted five_tasks /\
    StronglySorted
      (fun a b => string_lt (sort_key K_title a) (sort_key K_title b) = false)
      sorted.
Proof.
  destruct (sortTasks_sorted_on_strings ascii_runtime (query_sort "title" "desc")
              five_tasks
              ltac:(repeat constructor; eexists; vm_compute; reflexivity))
    as (sorted & Hs & Hp & _ & Hd).
  exists sorted. split; [exact Hs|]. split; [exact Hp|]. apply Hd. reflexivity.
Defined.

End TaskSorting.

Section TaskPages.

Import Tasks.

(** Page 0 and limit 0 are taken as given and select nothing: the page is
    empty whatever the other parameter and the list. *)
Theorem page_or_limit_zero_empty (q : Query) (tasks : list JSObject) :
  int_value (page_of q) = Some 0 \/ int_value (limit_of q) = Some 0 ->
  paginatedTasks q tasks = [].
Proof.
  unfold paginatedTasks.
  pose proof (proj1 (page_of_is_binary64 q)) as Hp.
  pose proof (proj1 (limit_of_is_binary64 q)) as Hl.
  intros [H | H].
  - destruct (page_of q) as [| |s|p]; simpl in H; try discriminate.
    + apply pageSlice_page_zero. exact Hl.
    + injection H as ->. discriminate Hp.
  - destruct (limit_of q) as [| |s|L]; simpl in H; try discriminate.
    + apply pageSlice_limit_zero.
    + injection H as ->. discriminate Hl.
Qed.

Lemma page_or_limit_zero_empty_witness :
  paginatedTasks query_limit_zero five_tasks = [].
Proof.
  apply (page_or_limit_zero_empty query_limit_zero five_tasks).
  right. reflexivity.
Defined.

(** A negative limit is not rejected: on page 1, limit -k selects the whole
    list but its last k tasks. *)
Theorem negative_limit_drops_tail (q : Query) (tasks : list JSObject) (k : nat) :
  page_of q = Finite 1 ->
  limit_of q = Finite (- Z.of_nat (S k)) ->
  paginatedTasks q tasks = take (length tasks - S k) tasks.
Proof.
  intros Hp Hl. unfold paginatedTasks, pageSlice. rewrite Hp, Hl.
  change (js_sub (Finite 1) (Finite 1)) with (Zero false).
  cbn [js_mul js_add]. unfold js_slice. cbn [sliceIndex].
  destruct (Z.ltb_spec (- Z.of_nat (S k)) 0) as [_|H]; [|lia].
  rewrite drop_0. f_equal. lia.
Qed.

Lemma negative_limit_drops_tail_witness :
  paginatedTasks query_limit_minus2 five_tasks = take (5 - 2) five_tasks.
Proof.
  apply (negative_limit_drops_tail query_limit_minus2 five_tasks 1).
  - reflexivity.
  - reflexivity.
Defined.

Lemma js_mul_beyond (x : JSNumber) (L : Z) :
  beyond_2_53 x -> 0 < L -> beyond_2_53 (js_mul x (Finite L)).
Proof.
  intros [-> | (z & -> & Hz)] HL; cbn [js_mul].
  - destruct (Z.ltb_spec L 0); [lia|]. left. reflexivity.
  - apply round64_beyond. nia.
Qed.

Lemma js_add_beyond (x : JSNumber) (L : Z) :
  beyond_2_53 x -> 0 < L -> beyond_2_53 (js_add x (Finite L)).
Proof.
  intros [-> | (z & -> & Hz)] HL; cbn [js_add].
  - left. reflexivity.
  - apply round64_beyond. lia.
Qed.

(** The number of an integer that is not negative: itself up to 2^53, and
    a number beyond every index from there on. *)
Lemma round64_nonneg (z : Z) :
  0 <= z -> (z <= 2 ^ 53 /\ round64 z = of_Z z) \/ (2 ^ 53 < z /\ beyond_2_53 (round64 z)).
Proof.
  intros Hz. destruct (Z.le_gt_cases z (2 ^ 53)).
  - left. split; [assumption|]. apply round64_exact. lia.
  - right. split; [lia|]. apply round64_beyond. lia.
Qed.

(** The size of page p with limit L, for every finite page and limit from
    1 on. *)
Lemma pageSlice_length (tasks : list JSObject) (p L : Z) :
  Z.of_nat (length tasks) < 2 ^ 32 -> 1 <= p -> 0 < L ->
  length (pageSlice (Finite p) (Finite L) tasks) =
    Nat.min (Z.to_nat L) (length tasks - Z.to_nat ((p - 1) * L)).
Proof.
  intros HN Hp HL. change (2 ^ 32) with 4294967296 in HN.
  assert (H53 : 2 ^ 53 = 9007199254740992) by reflexivity.
  unfold pageSlice, js_sub. cbn [js_neg js_add].
  replace (p + - (1)) with (p - 1) by lia.
  destruct (round64_nonneg (p - 1) ltac:(lia)) as [[Hb ->] | [Hb Hbig]].
  - unfold of_Z. destruct (Z.eqb_spec (p - 1) 0) as [E|E].
    + cbn [js_mul]. destruct (Z.ltb_spec L 0); [lia|]. cbn [xorb js_add].
      rewrite (js_slice_nonneg tasks _ _ 0 L) by (try reflexivity; lia).
      rewrite length_take, length_drop. rewrite E. simpl. lia.
    + cbn [js_mul].
      destruct (round64_nonneg ((p - 1) * L) ltac:(nia)) as [[Hs ->] | [Hs Hsbig]].
      * unfold of_Z. destruct (Z.eqb_spec ((p - 1) * L) 0); [nia|].
        cbn [js_add].
        destruct (round64_nonneg ((p - 1) * L + L) ltac:(nia)) as [[He ->] | [He Hebig]].
        -- rewrite (js_slice_nonneg tasks _ _ ((p - 1) * L) ((p - 1) * L + L));
             [|reflexivity|apply int_value_of_Z|nia|lia].
           rewrite length_take, length_drop. lia.
        -- rewrite (js_slice_to_beyond tasks _ _ ((p - 1) * L));
             [|reflexivity|nia|exact Hebig|lia].
           rewrite length_drop. lia.
      * rewrite js_slice_start_at_end.
        -- simpl. lia.
        -- apply sliceIndex_beyond; [exact Hsbig | lia].
  - rewrite js_slice_start_at_end.
    + simpl. nia.
    + apply sliceIndex_beyond; [|lia]. apply js_mul_beyond; assumption.
Qed.

(** For a finite page >= 1 and a finite limit > 0 the page holds
    min(limit, N - start) tasks, none when the start is past the end: never
    more than limit, and exactly limit on every page that the list fills.
    With a limit parameter beyond the binary64 range the limit is Infinity
    and every page is empty. *)
Theorem page_length (q : Query) (tasks : list JSObject) :
  (forall p L,
     Z.of_nat (length tasks) < 2 ^ 32 ->
     page_of q = Finite p -> limit_of q = Finite L -> 1 <= p -> 0 < L ->
     length (paginatedTasks q tasks) =
       Nat.min (Z.to_nat L) (length tasks - Z.to_nat ((p - 1) * L)) /\
     Z.of_nat (length (paginatedTasks q tasks)) <= L /\
     (p * L <= Z.of_nat (length tasks) ->
      Z.of_nat (length (paginatedTasks q tasks)) = L)) /\
  (limit_of q = Infinity false -> paginatedTasks q tasks = []).
Proof.
  split.
  - intros p L HN Hq HqL Hp HL. unfold paginatedTasks. rewrite Hq, HqL.
    rewrite (pageSlice_length tasks p L HN Hp HL).
    split; [reflexivity|]. split; [lia|]. intros Hfull. nia.
  - intros Hq. unfold paginatedTasks. rewrite Hq.
    apply pageSlice_limit_infinite. apply page_of_is_binary64.
Qed.

Lemma page_length_witness :
  length (paginatedTasks query_page1_limit2 five_tasks) =
    Nat.min (Z.to_nat 2) (length five_tasks - Z.to_nat ((1 - 1) * 2)) /\
  Z.of_nat (length (paginatedTasks query_page1_limit2 five_tasks)) <= 2 /\
  (1 * 2 <= Z.of_nat (length five_tasks) ->
   Z.of_nat (length (paginatedTasks query_page1_limit2 five_tasks)) = 2) /\
  paginatedTasks query_limit_400_digits five_tasks = [].
Proof.
  destruct (page_length query_page1_limit2 five_tasks) as [Hfin _].
  destruct (page_length query_limit_400_digits five_tasks) as [_ Hinf].
  destruct (Hfin 1 2 ltac:(reflexivity) eq_refl eq_refl ltac:(lia) ltac:(lia))
    as (H1 & H2 & H3).
  split; [exact H1|]. split; [exact H2|]. split; [exact H3|].
  apply Hinf. vm_compute. reflexivity.
Defined.

(** What [GET /tasks] returns is taken from the store: the tasks of the
    page are tasks of the store, at most as many as the filters kept, and
    the reported total never exceeds the size of the store. *)
Theorem getTasks_from_store (rt : Runtime) (q : Query) (tasks : Store)
    (page : list JSObject) (p : Pagination) :
  getTasks rt q tasks = RList page p ->
  (forall task, In task page -> In task tasks) /\
  Z.of_nat (length page) <= p_total p /\
  p_total p <= Z.of_nat (length tasks).
Proof.
  unfold getTasks. intros H.
  destruct (filterTasks rt q tasks) as [filtered|] eqn:Hf; [|discriminate].
  destruct (sortTasks rt q filtered) as [sorted|] eqn:Hs; [|discriminate].
  injection H as <- <-. split.
  - intros task Hin. apply js_slice_In in Hin. apply (js_sort_In _ _ _ _ Hs) in Hin.
    eapply filterCompleted_In. eapply filterTasks_In; eassumption.
  - assert (Hsub : (length filtered <= length tasks)%nat).
    { unfold filterTasks, filterSearch, filterPriority, filterCompleted in Hf.
      assert (Hfl : forall (f : JSObject -> bool) l,
                (length (List.filter f l) <= length l)%nat).
      { intros f l. induction l as [|y l IH]; simpl; [lia|].
        destruct (f y); simpl; lia. }
      assert (HfM : forall (g : JSObject -> option bool) l r,
                filterM g l = Some r -> (length r <= length l)%nat).
      { intros g l. induction l as [|y l IH]; simpl; intros r Hr.
        - injection Hr as <-. simpl. lia.
        - destruct (g y) as [b|]; [|discriminate].
          destruct (filterM g l) as [r'|]; [|discriminate].
          injection Hr as <-. specialize (IH r' eq_refl).
          destruct b; simpl; lia. }
      set (l1 := match q_completed q with
                 | Some v => List.filter _ tasks | None => tasks end) in *.
      assert (H1 : (length l1 <= length tasks)%nat).
      { subst l1. destruct (q_completed q); [apply Hfl | lia]. }
      set (l2 := match q_priority q with
                 | Some v => if q_truthy v then List.filter _ l1 else l1
                 | None => l1 end) in *.
      assert (H2 : (length l2 <= length l1)%nat).
      { subst l2. destruct (q_priority q) as [v|]; [|lia].
        destruct (q_truthy v); [apply Hfl | lia]. }
      destruct (q_search q) as [v|]; [|injection Hf as <-; lia].
      destruct (q_truthy v); [|injection Hf as <-; lia].
      destruct v; try discriminate. apply HfM in Hf. lia. }
    unfold pagination, sortTasks in *. cbn [p_total].
    pose proof (js_sort_length _ _ _ Hs) as Hlen.
    pose proof (js_slice_length sorted
                  (js_mul (js_sub (page_of q) (Finite 1)) (limit_of q))
                  (js_add (js_mul (js_sub (page_of q) (Finite 1)) (limit_of q))
                          (limit_of q))) as Hpage.
    unfold paginatedTasks, pageSlice. lia.
Qed.

Lemma getTasks_from_store_witness :
  exists page p,
    getTasks ascii_runtime query_page1_limit2 five_tasks = RList page p /\
    (forall task, In task page -> In task five_tasks) /\
    Z.of_nat (length page) <= p_total p /\
    p_total p <= Z.of_nat (length five_tasks).
Proof.
  eexists _, _. split; [reflexivity|].
  apply (getTasks_from_store ascii_runtime query_page1_limit2 five_tasks).
  reflexivity.
Defined.

End TaskPages.

(** * Further properties of the users service *)

Section UserRules.

Import Users.

Lemma validateUser_rules (user : UserRequest) :
  validateUser user =
    rule_msg (bool_decide (TrimSpace (Name user) = [])) "Name is required" ++
    rule_msg (Nat.ltb 100 (len (Name user))) "Name must be less than 100 characters" ++
    rule_msg (bool_decide (TrimSpace (Email user) = [])) "Email is required" ++
    rule_msg (negb (isValidEmail (Email user))) "Invalid email format" ++
    rule_msg (Age user <? 0) "Age must be non-negative" ++
    rule_msg (150 <? Age user) "Age must be less than 150".
Proof.
  unfold validateUser, append_if, rule_msg.
  destruct (bool_decide (TrimSpace (Name user) = [])),
    (Nat.ltb 100 (len (Name user))),
    (bool_decide (TrimSpace (Email user) = [])),
    (negb (isValidEmail (Email user))), (Age user <? 0), (150 <? Age user);
    reflexivity.
Qed.

(** A request is accepted exactly when its name is not blank and takes at
    most 100 bytes, its email contains an at sign and a dot (in any order
    and position), and its age lies between 0 and 150, both included. *)
Theorem validateUser_accepts_iff (user : UserRequest) :
  validateUser user = [] <->
    TrimSpace (Name user) <> [] /\
    (len (Name user) <= 100)%nat /\
    ContainsRune (Email user) AT = true /\
    ContainsRune (Email user) DOT = true /\
    0 <= Age user <= 150.
Proof.
  rewrite validateUser_rules. unfold rule_msg. split.
  - intros H.
    destruct (bool_decide (TrimSpace (Name user) = [])) eqn:E1; [discriminate H|].
    destruct (Nat.ltb 100 (len (Name user))) eqn:E2; [discriminate H|].
    destruct (bool_decide (TrimSpace (Email user) = [])) eqn:E3; [discriminate H|].
    destruct (negb (isValidEmail (Email user))) eqn:E4; [discriminate H|].
    destruct (Age user <? 0) eqn:E5; [discriminate H|].
    destruct (150 <? Age user) eqn:E6; [discriminate H|].
    apply bool_decide_eq_false in E1. apply Nat.ltb_ge in E2.
    apply negb_false_iff in E4. unfold isValidEmail in E4.
    apply andb_true_iff in E4 as [E4 E4'].
    apply Z.ltb_ge in E5. apply Z.ltb_ge in E6. tauto.
  - intros (H1 & H2 & H3 & H4 & H5 & H6).
    rewrite (proj2 (bool_decide_eq_false _) H1).
    rewrite (proj2 (Nat.ltb_ge _ _) H2).
    assert (Hv : isValidEmail (Email user) = true)
      by (unfold isValidEmail; rewrite H3, H4; reflexivity).
    assert (He : TrimSpace (Email user) <> []).
    { intros E. apply blank_email_invalid in E. congruence. }
    rewrite (proj2 (bool_decide_eq_false _) He), Hv.
    rewrite (proj2 (Z.ltb_ge _ _) H5), (proj2 (Z.ltb_ge _ _) H6). reflexivity.
Qed.

Lemma len_bounds (s : gostring) :
  (length s <= len s <= 4 * length s)%nat.
Proof.
  induction s as [|r s IH]; simpl; [lia|].
  unfold runeLen. destruct (r <? 128)%N, (r <? 2048)%N, (r <? 65536)%N; lia.
Qed.

Lemma len_two_byte (s : gostring) :
  Forall (fun r => (128 <= r < 2048)%N) s -> len s = (2 * length s)%nat.
Proof.
  induction 1 as [|r s Hr _ IH]; simpl; [reflexivity|].
  unfold runeLen.
  destruct (N.ltb_spec r 128); [lia|]. destruct (N.ltb_spec r 2048); [|lia]. lia.
Qed.

(** The limit on the name counts the bytes of its UTF-8 encoding, not its
    characters: the length message is given exactly when the name takes
    more than 100 bytes, so never for a name of at most 25 characters,
    always for one of more than 100, and for a name in a two-byte alphabet
    (Cyrillic, Greek) from 51 characters on. *)
Theorem name_limit_counts_bytes (user : UserRequest) :
  let msg := "Name must be less than 100 characters"%string in
  (In msg (validateUser user) <-> (100 < len (Name user))%nat) /\
  ((length (Name user) <= 25)%nat -> ~ In msg (validateUser user)) /\
  ((100 < length (Name user))%nat -> In msg (validateUser user)) /\
  (Forall (fun r => (128 <= r < 2048)%N) (Name user) ->
     (In msg (validateUser user) <-> (50 < length (Name user))%nat)).
Proof.
  intros msg.
  assert (Hiff : In msg (validateUser user) <-> (100 < len (Name user))%nat).
  { rewrite validateUser_rules. unfold rule_msg, msg.
    rewrite !in_app_iff.
    destruct (Nat.ltb_spec 100 (len (Name user))) as [Hlt|Hge].
    - split; [intros _; exact Hlt|]. intros _. right. left. left. reflexivity.
    - split; [|lia]. intros H.
      destruct (bool_decide (TrimSpace (Name user) = [])),
        (bool_decide (TrimSpace (Email user) = [])),
        (negb (isValidEmail (Email user))), (Age user <? 0), (150 <? Age user);
        simpl in H; repeat (destruct H as [H|H]; try discriminate H);
        contradiction. }
  pose proof (len_bounds (Name user)) as Hb.
  split; [exact Hiff|]. split; [rewrite Hiff; lia|]. split; [rewrite Hiff; lia|].
  intros H2. rewrite Hiff, (len_two_byte _ H2). lia.
Qed.

Lemma name_limit_counts_bytes_witness :
  In "Name must be less than 100 characters"%string
     (validateUser {| Name := name_51_cyrillic; Email := u16 "a@b.com"; Age := 30 |}).
Proof.
  apply (proj2 (proj2 (proj2 (name_limit_counts_bytes
           {| Name := name_51_cyrillic; Email := u16 "a@b.com"; Age := 30 |})))).
  - repeat constructor; vm_compute; try discriminate; reflexivity.
  - vm_compute. lia.
Defined.

End UserRules.

Section UserTable.

Import Users.

Lemma emailTaken_false (email : gostring) (us : list User) :
  emailTaken email us = false <-> Forall (fun u => UEmail u <> email) us.
Proof.
  unfold emailTaken. induction us as [|u us IH]; simpl.
  - split; [constructor | reflexivity].
  - rewrite orb_false_iff, IH, bool_decide_eq_false. split.
    + intros [H1 H2]. constructor; assumption.
    + intros H. inversion H; subst. split; assumption.
Qed.

Lemma find_id_misses (id : Z) (pre tail : list User) :
  Forall (fun u => ID u <> id) pre ->
  List.find (fun u => ID u =? id) (pre ++ tail) = List.find (fun u => ID u =? id) tail.
Proof.
  induction 1 as [|u pre Hu _ IH]; simpl; [reflexivity|].
  rewrite (proj2 (Z.eqb_neq _ _) Hu). exact IH.
Qed.

(** *** Create *)

(** The store phase of a create whose email is free. *)
Lemma insertUser_success (now : Z) (req : UserRequest) (db : DB) :
  Forall (fun u => UEmail u <> Email req) (rows db) ->
  Forall (fun u => ID u <= lastId db) (rows db) ->
  insertUser now req db =
    (RUser 201 (row_of (lastId db + 1) req now),
     {| rows := rows db ++ [row_of (lastId db + 1) req now];
        lastId := lastId db + 1 |}).
Proof.
  intros Hfree Hids. unfold insertUser, execInsert.
  rewrite (proj2 (emailTaken_false _ _) Hfree).
  unfold queryById. cbn [rows]. fold (row_of (lastId db + 1) req now).
  rewrite find_id_misses.
  - simpl. rewrite Z.eqb_refl. reflexivity.
  - eapply Forall_impl; [exact Hids|]. intros u Hu. simpl in Hu. lia.
Qed.

(** A valid request whose email no row holds is answered 201 with the new
    user: the next identifier, the fields of the request, the creation
    time; the row is appended and the others are left as they were. *)
Theorem createUser_success (now : Z) (req : UserRequest) (db : DB) :
  validateUser req = [] ->
  Forall (fun u => UEmail u <> Email req) (rows db) ->
  Forall (fun u => ID u <= lastId db) (rows db) ->
  createUserHandler now (Some req) db =
    (RUser 201 (row_of (lastId db + 1) req now),
     {| rows := rows db ++ [row_of (lastId db + 1) req now];
        lastId := lastId db + 1 |}).
Proof.
  intros Hv Hfree Hids.
  unfold createUserHandler. rewrite Hv. simpl.
  apply insertUser_success; assumption.
Qed.

Lemma createUser_success_witness :
  createUserHandler 1002 (Some {| Name := u16 "C"; Email := u16 "c@b.com"; Age := 0 |})
      db_two_users =
    (RUser 201 (row_of 3 {| Name := u16 "C"; Email := u16 "c@b.com"; Age := 0 |} 1002),
     {| rows := rows db_two_users ++
                [row_of 3 {| Name := u16 "C"; Email := u16 "c@b.com"; Age := 0 |} 1002];
        lastId := 3 |}).
Proof.
  apply (createUser_success 1002 {| Name := u16 "C"; Email := u16 "c@b.com"; Age := 0 |}
           db_two_users).
  - vm_compute. reflexivity.
  - repeat constructor; vm_compute; discriminate.
  - repeat constructor; vm_compute; discriminate.
Defined.

(** *** Unknown identifiers *)

Lemma filter_all {A} (f : A -> bool) (l : list A) :
  Forall (fun x => f x = true) l -> List.filter f l = l.
Proof.
  induction 1 as [|x l Hx _ IH]; simpl; [reflexivity|].
  rewrite Hx, IH. reflexivity.
Qed.

Lemma filter_none_on {A} (f : A -> bool) (l : list A) :
  Forall (fun x => f x = false) l -> List.filter f l = [].
Proof.
  induction 1 as [|x l Hx _ IH]; simpl; [reflexivity|].
  rewrite Hx. exact IH.
Qed.

Lemma execDelete_unknown (id : Z) (db : DB) :
  Forall (fun u => ID u <> id) (rows db) -> execDelete id db = (0, db).
Proof.
  intros Hno. unfold execDelete.
  rewrite filter_none_on, filter_all.
  - destruct db. reflexivity.
  - eapply Forall_impl; [exact Hno|]. intros u Hu. simpl in Hu.
    apply negb_true_iff, Z.eqb_neq. exact Hu.
  - eapply Forall_impl; [exact Hno|]. intros u Hu. simpl in Hu.
    apply Z.eqb_neq. exact Hu.
Qed.

(** An identifier that no row carries is answered 404 by the update
    handler (for a valid request) and by the delete handler, and the table
    is left as it was. *)
Theorem user_unknown_id_not_found (req : UserRequest) (id : Z) (db : DB) :
  validateUser req = [] ->
  Forall (fun u => ID u <> id) (rows db) ->
  updateUserHandler (Some id) (Some req) db = (RError 404 "User not found" [], db) /\
  deleteUserHandler (Some id) db = (RDeleteError 404 "User not found", db).
Proof.
  intros Hv Hno.
  assert (Hex : existsb (fun u => ID u =? id) (rows db) = false).
  { induction Hno as [|u us Hu _ IH]; simpl; [reflexivity|].
    rewrite (proj2 (Z.eqb_neq _ _) Hu). exact IH. }
  split.
  - unfold updateUserHandler. rewrite Hv. simpl.
    unfold updateUser, execUpdate. rewrite Hex. reflexivity.
  - unfold deleteUserHandler. rewrite (execDelete_unknown id db Hno). reflexivity.
Qed.

Lemma user_unknown_id_not_found_witness :
  updateUserHandler (Some 7) (Some request_a) db_two_users =
    (RError 404 "User not found" [], db_two_users) /\
  deleteUserHandler (Some 7) db_two_users =
    (RDeleteError 404 "User not found", db_two_users).
Proof.
  apply (user_unknown_id_not_found request_a 7 db_two_users).
  - vm_compute. reflexivity.
  - repeat constructor; vm_compute; discriminate.
Defined.

(** *** Delete *)

Lemma filter_In_bool {A} (f : A -> bool) (l : list A) :
  Forall (fun x => f x = true) (List.filter f l).
Proof.
  induction l as [|y l IH]; simpl; [constructor|].
  destruct (f y) eqn:E; [constructor; assumption | exact IH].
Qed.

(** Deleting an identifier that a row carries is answered with the success
    message; no row with the identifier is left, every other row stays, the
    last identifier handed out is kept, and a second delete of the same
    identifier is answered 404 without touching the table. *)
Theorem deleteUser_removes (id : Z) (db : DB) (target : User) :
  In target (rows db) ->
  ID target = id ->
  exists db',
    deleteUserHandler (Some id) db = (RDeleted "User deleted successfully", db') /\
    Forall (fun u => ID u <> id) (rows db') /\
    (forall u, ID u <> id -> (In u (rows db') <-> In u (rows db))) /\
    lastId db' = lastId db /\
    deleteUserHandler (Some id) db' = (RDeleteError 404 "User not found", db').
Proof.
  intros Hin Hid.
  set (db' := {| rows := List.filter (fun u => negb (ID u =? id)) (rows db);
                 lastId := lastId db |}).
  exists db'.
  assert (Hno : Forall (fun u => ID u <> id) (rows db')).
  { eapply Forall_impl; [apply filter_In_bool|]. intros u Hu. simpl in Hu.
    apply negb_true_iff, Z.eqb_neq in Hu. exact Hu. }
  split.
  - unfold deleteUserHandler, execDelete. fold db'.
    assert (Hpos : (Z.of_nat (length (List.filter (fun u => ID u =? id) (rows db)))
                    =? 0) = false).
    { apply Z.eqb_neq.
      assert (Hm : In target (List.filter (fun u => ID u =? id) (rows db))).
      { apply filter_In. split; [exact Hin|]. apply Z.eqb_eq. exact Hid. }
      destruct (List.filter (fun u => ID u =? id) (rows db)); [contradiction|].
      simpl. lia. }
    rewrite Hpos. reflexivity.
  - split; [exact Hno|]. split.
    + intros u Hu. simpl. rewrite filter_In.
      rewrite (proj2 (Z.eqb_neq _ _) Hu). simpl. tauto.
    + split; [reflexivity|].
      unfold deleteUserHandler. rewrite (execDelete_unknown id db' Hno). reflexivity.
Qed.

Lemma deleteUser_removes_witness :
  exists db',
    deleteUserHandler (Some 1) db_two_users =
      (RDeleted "User deleted successfully", db') /\
    Forall (fun u => ID u <> 1) (rows db') /\
    (forall u, ID u <> 1 -> (In u (rows db') <-> In u (rows db_two_users))) /\
    lastId db' = lastId db_two_users /\
    deleteUserHandler (Some 1) db' = (RDeleteError 404 "User not found", db').
Proof.
  apply (deleteUser_removes 1 db_two_users user_a).
  - left. reflexivity.
  - reflexivity.
Defined.

End UserTable.

Section UserUpdate.

Import Users.

(** The rewrite that the UPDATE applies to each row. *)
Lemma execUpdate_rows (req : UserRequest) (id : Z) (db : DB) :
  existsb (fun u => ID u =? id) (rows db) = true ->
  emailTaken (Email req) (List.filter (fun u => negb (ID u =? id)) (rows db)) = false ->
  execUpdate req id db =
    (inr 1, {| rows := map (fun u => if ID u =? id
                                     then row_of (ID u) req (CreatedAt u) else u)
                           (rows db);
               lastId := lastId db |}).
Proof. intros Hex Hfree. unfold execUpdate. rewrite Hex, Hfree. reflexivity. Qed.

Lemma NoDup_ids_In_eq (us : list User) (u v : User) :
  NoDup (map ID us) -> In u us -> In v us -> ID u = ID v -> u = v.
Proof.
  induction us as [|w us IH]; simpl; intros Hnd Hu Hv E; [contradiction|].
  apply NoDup_cons in Hnd as [Hw Hnd].
  assert (Hnot : forall x, In x us -> ID x <> ID w).
  { intros x Hx Ex. apply Hw. rewrite <- Ex. apply list_elem_of_In.
    apply in_map. exact Hx. }
  destruct Hu as [->|Hu], Hv as [->|Hv].
  - reflexivity.
  - destruct (Hnot v Hv). congruence.
  - destruct (Hnot u Hu). congruence.
  - apply IH; assumption.
Qed.

(** A valid update of an existing user to an email that no other user
    holds (its own current email included) is answered 200 with the user as
    updated: identifier and creation time kept, name, email and age
    replaced.  The other rows, their number and order, and the last
    identifier are left as they were. *)
Theorem updateUser_success (req : UserRequest) (db : DB) (target : User) :
  validateUser req = [] ->
  In target (rows db) ->
  NoDup (map ID (rows db)) ->
  Forall (fun u => ID u <> ID target -> UEmail u <> Email req) (rows db) ->
  exists db',
    updateUserHandler (Some (ID target)) (Some req) db =
      (RUser 200 (row_of (ID target) req (CreatedAt target)), db') /\
    rows db' = map (fun u => if ID u =? ID target
                             then row_of (ID target) req (CreatedAt target) else u)
                   (rows db) /\
    lastId db' = lastId db /\
    In (row_of (ID target) req (CreatedAt target)) (rows db') /\
    (forall u, ID u <> ID target -> (In u (rows db') <-> In u (rows db))).
Proof.
  intros Hv Hin Hnd Hfree.
  set (id := ID target) in *.
  set (updated := row_of id req (CreatedAt target)).
  assert (Hex : existsb (fun u => ID u =? id) (rows db) = true).
  { apply existsb_exists. exists target. split; [exact Hin | apply Z.eqb_refl]. }
  assert (Hemail : emailTaken (Email req)
                     (List.filter (fun u => negb (ID u =? id)) (rows db)) = false).
  { apply emailTaken_false. apply Forall_forall. intros u Hu.
    apply list_elem_of_In, filter_In in Hu as [Hu Hne].
    apply negb_true_iff, Z.eqb_neq in Hne.
    rewrite Forall_forall in Hfree. apply Hfree; [|exact Hne].
    apply list_elem_of_In. exact Hu. }
  assert (Hmap : map (fun u => if ID u =? id then row_of (ID u) req (CreatedAt u) else u)
                     (rows db) =
                 map (fun u => if ID u =? id then updated else u) (rows db)).
  { apply map_ext_in. intros u Hu. destruct (Z.eqb_spec (ID u) id) as [E|_];
      [|reflexivity].
    assert (u = target) as -> by (eapply NoDup_ids_In_eq; eassumption).
    reflexivity. }
  eexists. split.
  - unfold updateUserHandler. rewrite Hv. simpl. unfold updateUser.
    rewrite (execUpdate_rows req id db Hex Hemail), Hmap. simpl.
    unfold queryById. cbn [rows].
    assert (Hfind : List.find (fun u => ID u =? id)
                      (map (fun u => if ID u =? id then updated else u) (rows db)) =
                    Some updated).
    { clear -Hex. induction (rows db) as [|u us IH]; simpl in *; [discriminate|].
      destruct (Z.eqb_spec (ID u) id) as [E|E].
      - simpl. rewrite Z.eqb_refl. reflexivity.
      - simpl in Hex. rewrite (proj2 (Z.eqb_neq _ _) E). apply IH. exact Hex. }
    rewrite Hfind. reflexivity.
  - cbn [rows lastId]. split; [reflexivity|]. split; [reflexivity|]. split.
    + apply in_map_iff. exists target. split; [|exact Hin].
      fold id. rewrite Z.eqb_refl. reflexivity.
    + intros u Hu. rewrite in_map_iff. split.
      * intros (w & Hw & Hwin). destruct (Z.eqb_spec (ID w) id) as [E|E].
        -- subst u. simpl in Hu. contradiction.
        -- subst w. exact Hwin.
      * intros Huin. exists u. split; [|exact Huin].
        rewrite (proj2 (Z.eqb_neq _ _) Hu). reflexivity.
Qed.

(** Updating user 2 of the two-user table, keeping its email. *)
Lemma updateUser_success_witness :
  exists db',
    updateUserHandler (Some 2) (Some {| Name := u16 "Bea"; Email := u16 "b@b.com"; Age := 42 |})
        db_two_users =
      (RUser 200 (row_of 2 {| Name := u16 "Bea"; Email := u16 "b@b.com"; Age := 42 |} 1001),
       db') /\
    rows db' = map (fun u => if ID u =? 2
                             then row_of 2 {| Name := u16 "Bea"; Email := u16 "b@b.com";
                                              Age := 42 |} 1001
                             else u)
                   (rows db_two_users) /\
    lastId db' = lastId db_two_users /\
    In (row_of 2 {| Name := u16 "Bea"; Email := u16 "b@b.com"; Age := 42 |} 1001)
       (rows db') /\
    (forall u, ID u <> 2 -> (In u (rows db') <-> In u (rows db_two_users))).
Proof.
  apply (updateUser_success {| Name := u16 "Bea"; Email := u16 "b@b.com"; Age := 42 |}
           db_two_users user_b).
  - vm_compute. reflexivity.
  - right. left. reflexivity.
  - change (map ID (rows db_two_users)) with [1; 2].
    apply NoDup_cons_2; [rewrite not_elem_of_cons; split; [discriminate|apply not_elem_of_nil]|].
    apply NoDup_singleton.
  - repeat constructor; vm_compute; intros H; try discriminate; contradiction.
Defined.

End UserUpdate.

Section UserInvariant.

Import Users.

(** *** What each handler does to the table *)

Lemma createUserHandler_table (now : Z) (body : option UserRequest) (db : DB) :
  snd (createUserHandler now body db) = db \/
  exists req,
    body = Some req /\ validateUser req = [] /\
    Forall (fun u => UEmail u <> Email req) (rows db) /\
    snd (createUserHandler now body db) =
      {| rows := rows db ++ [row_of (lastId db + 1) req now];
         lastId := lastId db + 1 |}.
Proof.
  unfold createUserHandler. destruct body as [req|]; [|left; reflexivity].
  destruct (validateUser req) as [|e errs] eqn:Hv; simpl; [|left; reflexivity].
  unfold insertUser, execInsert.
  destruct (emailTaken (Email req) (rows db)) eqn:Ht; [left; reflexivity|].
  right. exists req. split; [reflexivity|]. split; [exact Hv|].
  split; [apply emailTaken_false; exact Ht|].
  destruct (queryById _ _); reflexivity.
Qed.

Lemma updateUserHandler_table (idParam : option Z) (body : option UserRequest) (db : DB) :
  snd (updateUserHandler idParam body db) = db \/
  exists req id,
    validateUser req = [] /\
    Forall (fun u => ID u <> id -> UEmail u <> Email req) (rows db) /\
    snd (updateUserHandler idParam body db) =
      {| rows := map (fun u => if ID u =? id
                               then row_of (ID u) req (CreatedAt u) else u) (rows db);
         lastId := lastId db |}.
Proof.
  unfold updateUserHandler. destruct idParam as [id|]; [|left; reflexivity].
  destruct body as [req|]; [|left; reflexivity].
  destruct (validateUser req) as [|e errs] eqn:Hv; simpl; [|left; reflexivity].
  unfold updateUser, execUpdate.
  destruct (existsb (fun u => ID u =? id) (rows db)); simpl; [|left; reflexivity].
  destruct (emailTaken _ _) eqn:Ht; [left; reflexivity|].
  right. exists req, id. split; [exact Hv|]. split.
  - apply emailTaken_false in Ht. apply Forall_forall. intros u Hu Hne.
    rewrite Forall_forall in Ht. apply Ht.
    apply list_elem_of_In, filter_In. split; [apply list_elem_of_In; exact Hu|].
    apply negb_true_iff, Z.eqb_neq. exact Hne.
  - simpl. destruct (queryById _ _); reflexivity.
Qed.

Lemma deleteUserHandler_table (idParam : option Z) (db : DB) :
  snd (deleteUserHandler idParam db) = db \/
  exists id,
    snd (deleteUserHandler idParam db) =
      {| rows := List.filter (fun u => negb (ID u =? id)) (rows db);
         lastId := lastId db |}.
Proof.
  unfold deleteUserHandler. destruct idParam as [id|]; [|left; reflexivity].
  right. exists id. unfold execDelete.
  destruct (_ =? 0); reflexivity.
Qed.

(** *** The invariant *)

Lemma NoDup_map_filter {A B} (f : A -> B) (p : A -> bool) (l : list A) :
  NoDup (map f l) -> NoDup (map f (List.filter p l)).
Proof.
  induction l as [|x l IH]; simpl; intros H; [exact H|].
  apply NoDup_cons in H as [Hx Hl].
  destruct (p x); [|apply IH; exact Hl]. simpl.
  apply NoDup_cons. split; [|apply IH; exact Hl].
  intros Hin. apply Hx. apply list_elem_of_In in Hin. apply list_elem_of_In.
  apply in_map_iff in Hin as (y & Hy & Hyin). apply in_map_iff.
  exists y. split; [exact Hy|]. apply filter_In in Hyin. tauto.
Qed.

Lemma Forall_filter_bool {A} (P : A -> Prop) (p : A -> bool) (l : list A) :
  Forall P l -> Forall P (List.filter p l).
Proof.
  induction 1 as [|x l Hx _ IH]; simpl; [constructor|].
  destruct (p x); [constructor; assumption | exact IH].
Qed.

Lemma update_emails_distinct (req : UserRequest) (id : Z) (us : list User) :
  NoDup (map ID us) ->
  NoDup (map UEmail us) ->
  Forall (fun u => ID u <> id -> UEmail u <> Email req) us ->
  NoDup (map UEmail
           (map (fun u => if ID u =? id then row_of (ID u) req (CreatedAt u) else u) us)).
Proof.
  set (set := fun u => if ID u =? id then row_of (ID u) req (CreatedAt u) else u).
  induction us as [|u us IH]; simpl; intros Hids Hem Hfree; [constructor|].
  apply NoDup_cons in Hids as [Hu Hids]. apply NoDup_cons in Hem as [Hue Hem].
  inversion Hfree as [|? ? Hfu Hfus]; subst.
  apply NoDup_cons. split; [|apply IH; assumption].
  intros Hin. apply list_elem_of_In, in_map_iff in Hin as (w' & Hw' & Hin).
  apply in_map_iff in Hin as (w & <- & Hw).
  assert (Hwu : ID w <> ID u).
  { intros E. apply Hu. rewrite <- E. apply list_elem_of_In, in_map. exact Hw. }
  rewrite Forall_forall in Hfus.
  pose proof (Hfus w (proj2 (list_elem_of_In _ _) Hw)) as Hfw.
  unfold set in Hw'.
  destruct (Z.eqb_spec (ID u) id) as [Eu|Eu]; destruct (Z.eqb_spec (ID w) id) as [Ew|Ew];
    simpl in Hw'.
  - congruence.
  - apply Hfw; [exact Ew | exact Hw'].
  - apply (Hfu Eu). symmetry. exact Hw'.
  - apply Hue. rewrite <- Hw'. apply list_elem_of_In, in_map. exact Hw.
Qed.

Lemma applyOp_ok (op : UserOp) (db : DB) : db_ok db -> db_ok (applyOp op db).
Proof.
  intros (Hvalid & Hem & Hids & Hbound & Hlast).
  destruct op as [now body|idParam body|idParam]; simpl.
  - destruct (createUserHandler_table now body db) as [->|(req & _ & Hv & Hfree & ->)];
      [repeat split; assumption|].
    unfold db_ok. cbn [rows lastId]. rewrite !map_app. simpl.
    split; [apply Forall_app; split; [exact Hvalid|]; constructor; [|constructor];
            destruct req; exact Hv|].
    split.
    { apply NoDup_app. split; [exact Hem|]. split; [|apply NoDup_singleton].
      intros e He He'. apply list_elem_of_singleton in He'. subst e.
      apply list_elem_of_In, in_map_iff in He as (u & Hu & Huin).
      rewrite Forall_forall in Hfree.
      apply (Hfree u (proj2 (list_elem_of_In _ _) Huin)). exact Hu. }
    split.
    { apply NoDup_app. split; [exact Hids|]. split; [|apply NoDup_singleton].
      intros i Hi Hi'. apply list_elem_of_singleton in Hi'. subst i.
      apply list_elem_of_In, in_map_iff in Hi as (u & Hu & Huin).
      rewrite Forall_forall in Hbound.
      pose proof (Hbound u (proj2 (list_elem_of_In _ _) Huin)). lia. }
    split; [|lia].
    apply Forall_app. split.
    + eapply Forall_impl; [exact Hbound|]. intros u Hu. simpl in Hu. lia.
    + constructor; [simpl; lia | constructor].
  - destruct (updateUserHandler_table idParam body db)
      as [->|(req & id & Hv & Hfree & ->)]; [repeat split; assumption|].
    unfold db_ok. cbn [rows lastId].
    assert (Hsame : map ID (map (fun u => if ID u =? id
                                          then row_of (ID u) req (CreatedAt u) else u)
                                (rows db)) = map ID (rows db)).
    { rewrite map_map. apply map_ext. intros u. destruct (ID u =? id); reflexivity. }
    split.
    { apply Forall_forall. intros w Hw.
      apply list_elem_of_In, in_map_iff in Hw as (u & <- & Hu).
      destruct (ID u =? id).
      - destruct req; exact Hv.
      - rewrite Forall_forall in Hvalid. apply Hvalid, list_elem_of_In, Hu. }
    split; [apply update_emails_distinct; assumption|].
    split; [rewrite Hsame; exact Hids|]. split; [|exact Hlast].
    apply Forall_forall. intros w Hw.
    apply list_elem_of_In, in_map_iff in Hw as (u & <- & Hu).
    rewrite Forall_forall in Hbound.
    pose proof (Hbound u (proj2 (list_elem_of_In _ _) Hu)).
    destruct (ID u =? id); simpl; lia.
  - destruct (deleteUserHandler_table idParam db) as [->|(id & ->)];
      [repeat split; assumption|].
    unfold db_ok. cbn [rows lastId].
    split; [apply Forall_filter_bool; exact Hvalid|].
    split; [apply NoDup_map_filter; exact Hem|].
    split; [apply NoDup_map_filter; exact Hids|].
    split; [apply Forall_filter_bool; exact Hbound | exact Hlast].
Qed.

Lemma runOps_ok (ops : list UserOp) (db : DB) : db_ok db -> db_ok (runOps ops db).
Proof.
  revert db. induction ops as [|op ops IH]; intros db H; simpl; [exact H|].
  apply IH. apply applyOp_ok. exact H.
Qed.

Lemma emptyDB_ok : db_ok emptyDB.
Proof.
  unfold db_ok, emptyDB. simpl.
  split; [constructor|]. split; [constructor|]. split; [constructor|].
  split; [constructor | lia].
Qed.

(** After every sequence of create, update and delete requests on the
    table that [createTable] creates, every row passes [validateUser],
    emails are pairwise distinct, identifiers are pairwise distinct, and
    every identifier is positive and at most the last one handed out. *)
Theorem users_table_invariant (ops : list UserOp) :
  db_ok (runOps ops emptyDB).
Proof. apply runOps_ok. exact emptyDB_ok. Qed.

Lemma runOps_lastId (ops : list UserOp) (db : DB) :
  lastId db <= lastId (runOps ops db).
Proof.
  revert db. induction ops as [|op ops IH]; intros db; simpl; [lia|].
  etransitivity; [|apply IH].
  destruct op as [now body|idParam body|idParam]; simpl.
  - destruct (createUserHandler_table now body db) as [->|(req & _ & _ & _ & ->)];
      simpl; lia.
  - destruct (updateUserHandler_table idParam body db) as [->|(req & id & _ & _ & ->)];
      simpl; lia.
  - destruct (deleteUserHandler_table idParam db) as [->|(id & ->)]; simpl; lia.
Qed.

(** Identifiers are not reused: a user created after any sequence of
    requests, deletes included, gets an identifier above the last one
    handed out before, hence above the identifier of every user the table
    held then. *)
Theorem user_ids_never_reused (ops : list UserOp) (db : DB) (now : Z) (req : UserRequest) :
  db_ok db ->
  validateUser req = [] ->
  Forall (fun u => UEmail u <> Email req) (rows (runOps ops db)) ->
  exists user db',
    createUserHandler now (Some req) (runOps ops db) = (RUser 201 user, db') /\
    lastId db < ID user /\
    Forall (fun u => ID u < ID user) (rows db).
Proof.
  intros Hok Hv Hfree.
  pose proof (runOps_ok ops db Hok) as (_ & _ & _ & Hbound & _).
  eexists _, _. split.
  - unfold createUserHandler. rewrite Hv. simpl.
    apply insertUser_success; [exact Hfree|].
    eapply Forall_impl; [exact Hbound|]. intros u Hu. simpl in Hu. lia.
  - pose proof (runOps_lastId ops db). simpl. split; [lia|].
    destruct Hok as (_ & _ & _ & Hb & _).
    eapply Forall_impl; [exact Hb|]. intros u Hu. simpl in Hu. lia.
Qed.

Lemma db_two_users_ok : db_ok db_two_users.
Proof.
  exact (runOps_ok [OpCreate 1000 (Some request_a); OpCreate 1001 (Some request_b)]
           emptyDB emptyDB_ok).
Qed.

(** Deleting user 2, then creating a user: the identifier is 3, not 2. *)
Lemma user_ids_never_reused_witness :
  exists user db',
    createUserHandler 1002 (Some {| Name := u16 "C"; Email := u16 "c@b.com"; Age := 0 |})
      (runOps [OpDelete (Some 2)] db_two_users) = (RUser 201 user, db') /\
    lastId db_two_users < ID user /\
    Forall (fun u => ID u < ID user) (rows db_two_users).
Proof.
  apply (user_ids_never_reused [OpDelete (Some 2)] db_two_users 1002
           {| Name := u16 "C"; Email := u16 "c@b.com"; Age := 0 |}).
  - exact db_two_users_ok.
  - vm_compute. reflexivity.
  - repeat constructor; vm_compute; discriminate.
Defined.

End UserInvariant.

(** * Further properties of the query parameters *)

Section NumericPrefix.

Import Tasks.

(** The page and limit parameters are read leniently: a decimal numeral
    followed by any text that starts with neither a digit nor an "x" is
    taken as the binary64 number nearest to the integer written, which is
    that integer up to 2^53 in magnitude, the rest being ignored; and an
    empty value falls back to the default. *)
Theorem numeric_prefix_is_taken (q : Query) (z : Z) (rest : jsstring) :
  ends_numeral rest ->
  (q_page q = Some (QStr (decimal z ++ rest)) ->
     page_of q = round64 z /\ (- 2 ^ 53 <= z <= 2 ^ 53 -> page_of q = of_Z z)) /\
  (q_limit q = Some (QStr (decimal z ++ rest)) ->
     limit_of q = round64 z /\ (- 2 ^ 53 <= z <= 2 ^ 53 -> limit_of q = of_Z z)) /\
  (q_page q = Some (QStr []) -> page_of q = Finite 1) /\
  (q_limit q = Some (QStr []) -> limit_of q = Finite 10).
Proof.
  intros Hrest. unfold page_of, limit_of.
  split; [intros ->; rewrite (param_or_decimal_prefix z rest _ Hrest);
          split; [reflexivity | apply round64_exact]|].
  split; [intros ->; rewrite (param_or_decimal_prefix z rest _ Hrest);
          split; [reflexivity | apply round64_exact]|].
  split; intros ->; reflexivity.
Qed.

Lemma numeric_prefix_is_taken_witness :
  limit_of (query_of None None None (Some (QStr (decimal 12 ++ u16 "abc")))) = of_Z 12.
Proof.
  apply (proj1 (proj2 (numeric_prefix_is_taken
           (query_of None None None (Some (QStr (decimal 12 ++ u16 "abc"))))
           12 (u16 "abc") ltac:(vm_compute; repeat split; discriminate)))).
  - reflexivity.
  - lia.
Defined.

End NumericPrefix.
